(** * AI Lab: the test-execution core

  A shallow embedding of the orchestration core of the repository:
  [src/lib/rate-limit.ts], [src/lib/pricing.ts], [src/lib/encryption.ts]
  and [src/lib/test-runner.ts], with the properties the specification
  states about them; and, around that core, of [src/lib/validation.ts],
  the provider adapters of [src/lib/providers] and the server actions of
  [src/app/actions/runs.ts] and [src/app/actions/keys.ts], with further
  properties read off the code.

  Conventions.
  - A JavaScript string is a [string]; each character stands for one code
    unit, so the alphabet is the code units U+0000..U+00FF.  Where the code
    reads a string as Unicode text (what it encrypts), a string is the list
    of all its UTF-16 code units, a [Text].
  - A JavaScript number that takes part in arithmetic is a binary64
    [float]; counters and lengths are [Z] or [nat].
  - Code that can throw returns an [Outcome]; code that reads or writes the
    database, the clock or the network is a function of a [World]. *)

From Stdlib Require Import ZArith QArith Qround Floats Ascii String List Lia.
From Stdlib.Strings Require Import Byte.
From Stdlib Require Import DecimalString.
From stdpp Require Import gmap strings list fin_maps.

Set Warnings "-inexact-float".
Local Open Scope Z_scope.

(* ===================================================================== *)
(** ** JavaScript values shared by the modules *)
(* ===================================================================== *)

Module Js.

(** What a [throw] carries: an instance of [Error] with its [message], or
    some other value. *)
Inductive ErrorClass := Error | TypeError | RangeError | SyntaxError.

Inductive Thrown :=
| Err (cls : ErrorClass) (message : string)
| NonError.

(** The result of running code that may throw.  [Unmodelled] marks an input
    on which the embedding does not follow the source (a regular expression
    with a construct that [RegExp] does not read, decrypted bytes that are
    no UTF-8, a decrypted key with a character outside the alphabet);
    nothing is proved about it. *)
Inductive Outcome (A : Type) :=
| Return (a : A)
| Throw (e : Thrown)
| Unmodelled.
Arguments Return {A} a.
Arguments Throw {A} e.
Arguments Unmodelled {A}.

(** A field of an object: left out ([undefined]), [null], or a value. *)
Inductive Field (A : Type) :=
| Absent
| Null
| Value (a : A).
Arguments Absent {A}.
Arguments Null {A}.
Arguments Value {A} a.

(** [x ?? y]. *)
Definition nullish {A : Type} (x : option A) (y : A) : A :=
  match x with
  | Some a => a
  | None => y
  end.

(** A nullable value as a field. *)
Definition nullable {A : Type} (x : option A) : Field A :=
  match x with
  | Some a => Value a
  | None => Null
  end.

Definition bind {A B : Type} (m : Outcome A) (k : A -> Outcome B) : Outcome B :=
  match m with
  | Return a => k a
  | Throw e => Throw e
  | Unmodelled => Unmodelled
  end.

(** Reading a property of an object written as a literal: an own property
    first, then what the literal inherits from [Object.prototype] (every
    inherited value is a function or, for [__proto__], the prototype itself:
    truthy, and with none of the fields the code reads), else [undefined]. *)
Definition Object_prototype : list string :=
  [ "constructor"; "__defineGetter__"; "__defineSetter__"; "hasOwnProperty";
    "__lookupGetter__"; "__lookupSetter__"; "isPrototypeOf";
    "propertyIsEnumerable"; "toString"; "valueOf"; "__proto__";
    "toLocaleString" ].

Inductive Property (A : Type) :=
| Own (a : A)
| Inherited
| Undefined.
Arguments Own {A} a.
Arguments Inherited {A}.
Arguments Undefined {A}.

Fixpoint own {A : Type} (o : list (string * A)) (k : string) : option A :=
  match o with
  | [] => None
  | (k', a) :: o' => if String.eqb k' k then Some a else own o' k
  end.

Definition inherited (k : string) : bool :=
  existsb (String.eqb k) Object_prototype.

Definition get {A : Type} (o : list (string * A)) (k : string) : Property A :=
  match own o k with
  | Some a => Own a
  | None => if inherited k then Inherited else Undefined
  end.

(** An integer as a number. *)
Definition number (z : Z) : float := PrimFloat.of_uint63 (Uint63.of_Z z).

(** [`${n}`] for a non-negative integer. *)
Definition decimal (n : Z) : string :=
  NilZero.string_of_int (Z.to_int n).

(** [s.slice(0, n)] for [0 <= n]. *)
Definition slice0 (n : nat) (s : string) : string := String.substring 0 n s.

(** A string by its UTF-16 code units, each below [2^16].  [units] takes a
    string of the alphabet to its code units, and [narrow] takes back the
    code units of such a string. *)
Abbreviation Text := (list N).

Definition units (s : string) : Text := map N_of_ascii (list_ascii_of_string s).

Definition narrow (t : Text) : Outcome string :=
  if forallb (fun u => (u <? 256)%N) t
  then Return (string_of_list_ascii (map ascii_of_N t))
  else Unmodelled.

End Js.

(* ===================================================================== *)
(** ** Regular expressions, as far as the code builds them *)
(* ===================================================================== *)

Module RegExp.
Import Js.

(** The fragment of patterns followed here: a sequence of atoms, each alone
    or under a greedy [*].  An atom is a literal character, [.], [\s], or a
    character class given by its members (written only by a regular
    expression literal of the source, never parsed). *)
Inductive Atom :=
| Lit (c : ascii)
| AnyChar
| Space
| Class (members : list ascii).

Inductive Item :=
| One (a : Atom)
| Star (a : Atom).

Abbreviation Pattern := (list Item).

Definition chars (s : string) : list ascii := list_ascii_of_string s.
Definition text (l : list ascii) : string := string_of_list_ascii l.

Definition mem (c : ascii) (l : list ascii) : bool := existsb (Ascii.eqb c) l.

(** SyntaxCharacter of the pattern grammar. *)
Definition SyntaxCharacter (c : ascii) : bool := mem c (chars "^$\.*+?()[]{}|").

(** LineTerminator and WhiteSpace within U+0000..U+00FF. *)
Definition LineTerminator (c : ascii) : bool :=
  mem c [ascii_of_nat 10; ascii_of_nat 13].

Definition WhiteSpace (c : ascii) : bool :=
  mem c [ascii_of_nat 9; ascii_of_nat 10; ascii_of_nat 11; ascii_of_nat 12;
         ascii_of_nat 13; ascii_of_nat 32; ascii_of_nat 160].

Definition accepts (a : Atom) (c : ascii) : bool :=
  match a with
  | Lit c' => Ascii.eqb c' c
  | AnyChar => negb (LineTerminator c)
  | Space => WhiteSpace c
  | Class members => mem c members
  end.

(** The atom a backslash escape stands for: [\s], or a syntax character
    taken literally.  Other escapes are outside the fragment. *)
Definition escaped_atom (c : ascii) : option Atom :=
  if Ascii.eqb c "s" then Some Space
  else if SyntaxCharacter c then Some (Lit c)
  else None.

(** The atom an unescaped character stands for.  A syntax character other
    than [.] is outside the fragment (or a syntax error). *)
Definition plain_atom (c : ascii) : option Atom :=
  if Ascii.eqb c "." then Some AnyChar
  else if SyntaxCharacter c then None
  else Some (Lit c).

(** [a] alone, or starred when a [*] follows; the items of the rest. *)
Definition item (a : Atom) (starred : bool) (rest : option Pattern) : option Pattern :=
  match rest with
  | Some p => Some ((if starred then Star a else One a) :: p)
  | None => None
  end.

(** Reading a pattern source.  [None]: not in the fragment. *)
Fixpoint parse (src : list ascii) : option Pattern :=
  match src with
  | [] => Some []
  | c :: rest =>
      if Ascii.eqb c "\" then
        match rest with
        | [] => None
        | e :: rest' =>
            match escaped_atom e with
            | None => None
            | Some a =>
                match rest' with
                | q :: rest'' =>
                    if Ascii.eqb q "*" then item a true (parse rest'')
                    else item a false (parse rest')
                | [] => item a false (parse rest')
                end
            end
        end
      else
        match plain_atom c with
        | None => None
        | Some a =>
            match rest with
            | q :: rest' =>
                if Ascii.eqb q "*" then item a true (parse rest')
                else item a false (parse rest)
            | [] => item a false (parse rest)
            end
        end
  end.

(** What the constructor makes of a pattern source that [parse] does not
    read, as far as reading it from the left outside any group or class
    tells.  A quantifier ([*], [+] or [?]) needs an atom before it and may
    be followed by one [?]; with nothing to repeat (at the start, after a
    quantifier, an anchor or a [|]), for a [)] that closes nothing and for a
    backslash that ends the source, the constructor throws.  A closing
    bracket or brace that closes nothing stands for itself.  [quantifiable]:
    an atom has just been read; [lazy]: a quantifier has.  From an opening
    parenthesis, bracket or brace, or another escape, on, the source is not
    followed. *)
Inductive Syntax :=
| Accepted
| Refused (reason : string)
| NotFollowed.

Fixpoint syntax (quantifiable lazy : bool) (src : list ascii) : Syntax :=
  match src with
  | [] => Accepted
  | c :: rest =>
      if Ascii.eqb c "\" then
        match rest with
        | [] => Refused "\ at end of pattern"
        | e :: rest' =>
            match escaped_atom e with
            | Some _ => syntax true false rest'
            | None => NotFollowed
            end
        end
      else if Ascii.eqb c "*" || Ascii.eqb c "+" then
        if quantifiable then syntax false true rest
        else Refused "Nothing to repeat"
      else if Ascii.eqb c "?" then
        if quantifiable then syntax false true rest
        else if lazy then syntax false false rest
        else Refused "Nothing to repeat"
      else if Ascii.eqb c ")" then Refused "Unmatched ')'"
      else if Ascii.eqb c "|" || Ascii.eqb c "^" || Ascii.eqb c "$" then
        syntax false false rest
      else if Ascii.eqb c "]" || Ascii.eqb c "}" then syntax true false rest
      else
        match plain_atom c with
        | Some _ => syntax true false rest
        | None => NotFollowed
        end
  end.

(** [new RegExp(source, 'g')]: the pattern, or the SyntaxError of a source
    that is no pattern (its text is the engine's). *)
Definition RegExp (source : string) : Outcome Pattern :=
  match parse (chars source) with
  | Some p => Return p
  | None =>
      match syntax false false (chars source) with
      | Refused reason =>
          Throw (Err SyntaxError
            ("Invalid regular expression: /" +:+ source +:+ "/g: " +:+ reason))
      | _ => Unmodelled
      end
  end.

(** Matching at the start of [s], by backtracking in the order of the
    language: a starred atom takes as many characters as it can and gives
    them back one by one.  The result is what follows the match. *)
Fixpoint exec (p : Pattern) (s : list ascii) : option (list ascii) :=
  match p with
  | [] => Some s
  | One a :: p' =>
      match s with
      | c :: s' => if accepts a c then exec p' s' else None
      | [] => None
      end
  | Star a :: p' =>
      (fix star (s : list ascii) : option (list ascii) :=
         match s with
         | c :: s' =>
             if accepts a c then
               match star s' with
               | Some r => Some r
               | None => exec p' s
               end
             else exec p' s
         | [] => exec p' s
         end) s
  end.

(** GetSubstitution for a pattern with no groups: [$$], [$&], [$`] and [$']
    are replaced, any other [$] stands for itself. *)
Fixpoint expand (replacement before matched after : list ascii) : list ascii :=
  match replacement with
  | [] => []
  | c :: r =>
      if Ascii.eqb c "$" then
        match r with
        | d :: r' =>
            if Ascii.eqb d "$" then "$"%char :: expand r' before matched after
            else if Ascii.eqb d "&" then matched ++ expand r' before matched after
            else if Ascii.eqb d "`" then before ++ expand r' before matched after
            else if Ascii.eqb d "'" then after ++ expand r' before matched after
            else c :: expand r before matched after
        | [] => [c]
        end
      else c :: expand r before matched after
  end.

(** [String.prototype.replace] with a global pattern, from a position of the
    subject: [seen] is what lies before it (reversed), [s] what lies from
    it on, [skip] how many characters of [s] belong to the last match.  An
    empty match is replaced and the scan moves on by one character. *)
Fixpoint replace_from (p : Pattern) (replacement : list ascii)
    (seen : list ascii) (skip : nat) (s : list ascii) {struct s} : list ascii :=
  match skip with
  | S k =>
      match s with
      | c :: s' => replace_from p replacement (c :: seen) k s'
      | [] => []
      end
  | O =>
      match exec p s with
      | Some after =>
          let n := (length s - length after)%nat in
          let out := expand replacement (rev seen) (take n s) after in
          match s with
          | [] => out
          | c :: s' =>
              match n with
              | O => out ++ c :: replace_from p replacement (c :: seen) O s'
              | S k => out ++ replace_from p replacement (c :: seen) k s'
              end
          end
      | None =>
          match s with
          | [] => []
          | c :: s' => c :: replace_from p replacement (c :: seen) O s'
          end
      end
  end.

Definition replace (p : Pattern) (replacement s : string) : string :=
  text (replace_from p (chars replacement) [] O (chars s)).

(** Whether a pattern matches somewhere in a text. *)
Fixpoint found (p : Pattern) (s : list ascii) : bool :=
  match exec p s with
  | Some _ => true
  | None =>
      match s with
      | [] => false
      | _ :: s' => found p s'
      end
  end.

(** A pattern that spells a text, character by character, and the scan
    that replaces it. *)
Definition literal (l : list ascii) : Pattern := map (fun c => One (Lit c)) l.

Definition scan (p r s : list ascii) : list ascii := replace_from (literal p) r [] O s.

(** [s.includes(sub)]. *)
Fixpoint starts_with (sub s : list ascii) : bool :=
  match sub, s with
  | [], _ => true
  | c :: sub', d :: s' => Ascii.eqb c d && starts_with sub' s'
  | _ :: _, [] => false
  end.

Fixpoint includes_from (s sub : list ascii) : bool :=
  starts_with sub s ||
  match s with
  | [] => false
  | _ :: s' => includes_from s' sub
  end.

Definition includes (s sub : string) : bool := includes_from (chars s) (chars sub).

End RegExp.

(* ===================================================================== *)
(** ** src/lib/encryption.ts *)
(* ===================================================================== *)

Module Encryption.
Import Js RegExp.

Notation "'let*' x ':=' m 'in' k" := (Js.bind m (fun x => k))
  (at level 10, x name, m at level 100, k at level 200, only parsing).

Definition ALGORITHM : string := "aes-256-gcm".
Definition IV_LENGTH : nat := 12.
Definition AUTH_TAG_LENGTH : nat := 16.

Abbreviation bytes := (list Byte.byte).

#[global] Instance byte_eq_dec : EqDecision Byte.byte := Byte.byte_eq_dec.

Definition byte_of (n : N) : Byte.byte := default Byte.x00 (Byte.of_N n).

(** [buf.toString('hex')] and [Buffer.from(s, 'hex')]; the latter stops at
    the first pair that is not two hexadecimal digits. *)
Definition hex_digit (n : N) : ascii :=
  nth (N.to_nat n) (chars "0123456789abcdef") "0"%char.

Definition hex_value (c : ascii) : option N :=
  let n := N_of_ascii c in
  if ((48 <=? n) && (n <=? 57))%N then Some (n - 48)%N
  else if ((97 <=? n) && (n <=? 102))%N then Some (n - 87)%N
  else if ((65 <=? n) && (n <=? 70))%N then Some (n - 55)%N
  else None.

Fixpoint to_hex_chars (b : bytes) : list ascii :=
  match b with
  | [] => []
  | x :: b' =>
      hex_digit (Byte.to_N x / 16) :: hex_digit (Byte.to_N x mod 16) :: to_hex_chars b'
  end.

Fixpoint from_hex_chars (s : list ascii) : bytes :=
  match s with
  | h :: l :: s' =>
      match hex_value h, hex_value l with
      | Some x, Some y => byte_of (16 * x + y) :: from_hex_chars s'
      | _, _ => []
      end
  | _ => []
  end.

Definition to_hex (b : bytes) : string := text (to_hex_chars b).
Definition from_hex (s : string) : bytes := from_hex_chars (chars s).

(** UTF-8 of a string, as [cipher.update(plaintext, 'utf8', ...)] writes
    it: a code unit alone, or a lead and a trail surrogate together as one
    code point; a surrogate without its partner is written as U+FFFD. *)
Definition lead (u : N) : bool := ((0xD800 <=? u) && (u <? 0xDC00))%N.
Definition trail (u : N) : bool := ((0xDC00 <=? u) && (u <? 0xE000))%N.

Definition REPLACEMENT : N := 0xFFFD%N.

Definition code_point (hi lo : N) : N :=
  (0x10000 + (hi - 0xD800) * 0x400 + (lo - 0xDC00))%N.

Definition utf8_1 (u : N) : bytes := [byte_of u].

Definition utf8_2 (u : N) : bytes :=
  [byte_of (0xC0 + u / 64); byte_of (0x80 + u mod 64)].

Definition utf8_3 (u : N) : bytes :=
  [byte_of (0xE0 + u / 4096); byte_of (0x80 + (u / 64) mod 64);
   byte_of (0x80 + u mod 64)].

Definition utf8_4 (c : N) : bytes :=
  [byte_of (0xF0 + c / 262144); byte_of (0x80 + (c / 4096) mod 64);
   byte_of (0x80 + (c / 64) mod 64); byte_of (0x80 + c mod 64)].

Fixpoint utf8_encode (s : Text) : bytes :=
  match s with
  | [] => []
  | u :: s' =>
      if (u <? 0x80)%N then utf8_1 u ++ utf8_encode s'
      else if (u <? 0x800)%N then utf8_2 u ++ utf8_encode s'
      else if lead u then
        match s' with
        | v :: s'' =>
            if trail v then utf8_4 (code_point u v) ++ utf8_encode s''
            else utf8_3 REPLACEMENT ++ utf8_encode s'
        | [] => utf8_3 REPLACEMENT
        end
      else if trail u then utf8_3 REPLACEMENT ++ utf8_encode s'
      else utf8_3 u ++ utf8_encode s'
  end.

(** The decoding of well-formed UTF-8, as [decipher.update(..., 'utf8')]
    reads it: sequences of one to four bytes, the shortest for their code
    point, none for a surrogate, none above U+10FFFF; a code point above
    U+FFFF becomes two surrogates.  Bytes that are no UTF-8 are decoded
    with replacement characters, which is not followed: [None]. *)
Definition continuation (y : Byte.byte) : option N :=
  let m := Byte.to_N y in
  if ((0x80 <=? m) && (m <? 0xC0))%N then Some (m - 0x80)%N else None.

Fixpoint utf8_decode_units (b : bytes) : option Text :=
  match b with
  | [] => Some []
  | x :: b1 =>
      let n := Byte.to_N x in
      if (n <? 0x80)%N then option_map (cons n) (utf8_decode_units b1)
      else if ((0xC2 <=? n) && (n <? 0xE0))%N then
        match b1 with
        | y :: b2 =>
            match continuation y with
            | Some m =>
                option_map (cons ((n - 0xC0) * 64 + m)%N) (utf8_decode_units b2)
            | None => None
            end
        | [] => None
        end
      else if ((0xE0 <=? n) && (n <? 0xF0))%N then
        match b1 with
        | y :: z :: b3 =>
            match continuation y, continuation z with
            | Some m, Some k =>
                let u := ((n - 0xE0) * 4096 + m * 64 + k)%N in
                if (0x800 <=? u)%N && negb (lead u || trail u) then
                  option_map (cons u) (utf8_decode_units b3)
                else None
            | _, _ => None
            end
        | _ => None
        end
      else if ((0xF0 <=? n) && (n <? 0xF5))%N then
        match b1 with
        | y :: z :: t :: b4 =>
            match continuation y, continuation z, continuation t with
            | Some m, Some k, Some j =>
                let c := ((n - 0xF0) * 262144 + m * 4096 + k * 64 + j)%N in
                if ((0x10000 <=? c) && (c <? 0x110000))%N then
                  option_map
                    (fun l => (0xD800 + (c - 0x10000) / 0x400)%N
                              :: (0xDC00 + (c - 0x10000) mod 0x400)%N :: l)
                    (utf8_decode_units b4)
                else None
            | _, _, _ => None
            end
        | _ => None
        end
      else None
  end.

Definition utf8_decode (b : bytes) : Outcome Text :=
  match utf8_decode_units b with
  | Some l => Return l
  | None => Unmodelled
  end.

(** [getEncryptionKey()], from [process.env.APP_ENCRYPTION_KEY]. *)
Definition getEncryptionKey (APP_ENCRYPTION_KEY : option string) : Outcome bytes :=
  match APP_ENCRYPTION_KEY with
  | None | Some EmptyString =>
      Throw (Err Error
        ("FATAL: APP_ENCRYPTION_KEY environment variable is not set. " +:+
         "Generate a 32-byte hex key with: openssl rand -hex 32"))
  | Some key =>
      if negb (String.length key =? 64)%nat then
        Throw (Err Error
          ("FATAL: APP_ENCRYPTION_KEY must be exactly 64 hex characters (32 bytes). " +:+
           "Generate with: openssl rand -hex 32"))
      else Return (from_hex key)
  end.

Record EncryptedData := {
  encryptedKey : string;
  iv : string;
  authTag : string;
}.

Section Cipher.

(** AES-256-GCM of [node:crypto], by its two parts: the counter-mode
    transformation of the data under a key and an IV (the same function
    encrypts and decrypts), and the authentication tag of a ciphertext. *)
Variable gctr : bytes -> bytes -> bytes -> bytes.
Variable gtag : bytes -> bytes -> bytes -> bytes.

(** What [createCipheriv] and [createDecipheriv] refuse: an empty IV, then
    a key that is not 32 bytes long. *)
Definition createCipheriv (key iv : bytes) : Outcome unit :=
  if (length iv =? 0)%nat then Throw (Err TypeError "Invalid initialization vector")
  else if negb (length key =? 32)%nat then Throw (Err RangeError "Invalid key length")
  else Return tt.

(** [encryptApiKey(plaintext)]; [random] is what [randomBytes(IV_LENGTH)]
    gives. *)
Definition encryptApiKey (APP_ENCRYPTION_KEY : option string) (random : bytes)
    (plaintext : Text) : Outcome EncryptedData :=
  let* key := getEncryptionKey APP_ENCRYPTION_KEY in
  let iv := random in
  let* _ := createCipheriv key iv in
  let encrypted := gctr key iv (utf8_encode plaintext) in
  let authTag := gtag key iv encrypted in
  Return {| encryptedKey := to_hex encrypted;
            iv := to_hex iv;
            authTag := to_hex authTag |}.

(** [decryptApiKey(encryptedData)]: [setAuthTag] refuses a tag that is not
    [AUTH_TAG_LENGTH] bytes long, [update] refuses hexadecimal text of odd
    length, and [final] throws unless the tag is the one of the
    ciphertext. *)
Definition decryptApiKey (APP_ENCRYPTION_KEY : option string)
    (encryptedData : EncryptedData) : Outcome Text :=
  let* key := getEncryptionKey APP_ENCRYPTION_KEY in
  let iv := from_hex (iv encryptedData) in
  let authTag := from_hex (authTag encryptedData) in
  let* _ := createCipheriv key iv in
  if negb (length authTag =? AUTH_TAG_LENGTH)%nat then
    @Throw Text (Err TypeError
      ("Invalid authentication tag length: " +:+ decimal (Z.of_nat (length authTag))))
  else if Nat.odd (String.length (encryptedKey encryptedData)) then
    Throw (Err TypeError
      ("The argument 'encoding' is invalid for data of length " +:+
       decimal (Z.of_nat (String.length (encryptedKey encryptedData))) +:+
       ". Received 'hex'"))
  else
    let encrypted := from_hex (encryptedKey encryptedData) in
    if bool_decide (authTag = gtag key iv encrypted) then
      utf8_decode (gctr key iv encrypted)
    else Throw (Err Error "Unsupported state or unable to authenticate data").

End Cipher.

(** [getKeyLastFour]. *)
Definition getKeyLastFour (apiKey : string) : string :=
  if (String.length apiKey <? 4)%nat then "****"
  else String.substring (String.length apiKey - 4) 4 apiKey.

(** The class of [/[.*+?^${}()|[\]\\]/g]. *)
Definition special : Pattern := [One (Class (chars ".*+?^${}()|[]\"))].

(** What escaping makes of a text, and what redacting makes of one. *)
Definition escape_chars (l : list ascii) : list ascii :=
  flat_map (fun c => if SyntaxCharacter c then ["\"%char; c] else [c]) l.

Definition marker : list ascii := chars "[REDACTED]".

Definition redacted (p s : list ascii) : list ascii := scan p marker s.

(** A cipher to run the model on: it reverses the data and tags a
    ciphertext with its first bytes, padded. *)
Definition toy_gctr (key iv data : bytes) : bytes := rev data.
Definition toy_gtag (key iv data : bytes) : bytes := take 16 (data ++ replicate 16 Byte.x00).

(** [redactApiKey(text, apiKey)]. *)
Definition redactApiKey (text apiKey : string) : Outcome string :=
  if String.eqb apiKey "" || (String.length apiKey <? 8)%nat then Return text
  else
    let escaped := replace special "\$&" apiKey in
    let* regex := RegExp escaped in
    Return (replace regex "[REDACTED]" text).

(** [`${error}`] for an [Error]: its name, and its message when it has
    one. *)
Definition class_name (cls : ErrorClass) : string :=
  match cls with
  | Error => "Error"
  | TypeError => "TypeError"
  | RangeError => "RangeError"
  | SyntaxError => "SyntaxError"
  end.

Definition error_text (cls : ErrorClass) (message : string) : string :=
  if String.eqb message "" then class_name cls
  else class_name cls +:+ ": " +:+ message.

(** [validateEncryptionSetup()]; [random] is what [randomBytes] gives the
    test encryption.  What the [try] throws is an [Error] of the code or of
    [node:crypto]. *)
Definition validateEncryptionSetup (gctr gtag : bytes -> bytes -> bytes -> bytes)
    (APP_ENCRYPTION_KEY : option string) (random : bytes) : Outcome unit :=
  let body :=
    let* _ := getEncryptionKey APP_ENCRYPTION_KEY in
    let testData := units "test-key-12345" in
    let* encrypted := encryptApiKey gctr gtag APP_ENCRYPTION_KEY random testData in
    let* decrypted := decryptApiKey gctr gtag APP_ENCRYPTION_KEY encrypted in
    if negb (bool_decide (decrypted = testData)) then
      Throw (Err Error "Encryption roundtrip test failed")
    else Return tt in
  match body with
  | Throw (Err cls message) =>
      if starts_with (chars "FATAL:") (chars message) then Throw (Err cls message)
      else Throw (Err Error
             ("Encryption setup validation failed: " +:+ error_text cls message))
  | Throw NonError => Unmodelled
  | Return _ => Return tt
  | Unmodelled => Unmodelled
  end.

(** A string: code units below [2^16]. *)
Definition JsString (s : Text) : bool := forallb (fun u => (u <? 0x10000)%N) s.

(** [s.toWellFormed()] and [s.isWellFormed()]: every surrogate without its
    partner replaced by U+FFFD, and whether there is none. *)
Fixpoint toWellFormed (s : Text) : Text :=
  match s with
  | [] => []
  | u :: s' =>
      if lead u then
        match s' with
        | v :: s'' =>
            if trail v then u :: v :: toWellFormed s''
            else REPLACEMENT :: toWellFormed s'
        | [] => [REPLACEMENT]
        end
      else if trail u then REPLACEMENT :: toWellFormed s'
      else u :: toWellFormed s'
  end.

Definition isWellFormed (s : Text) : bool := bool_decide (toWellFormed s = s).

End Encryption.

(* ===================================================================== *)
(** ** src/lib/rate-limit.ts *)
(* ===================================================================== *)

Module RateLimit.

Definition MAX_RUNS_PER_MINUTE : Z := 10.

Record RateLimitResult := { allowed : bool; remaining : Z }.

(** The [rateLimit] table: one row per value of the compound unique key
    [userId_windowKey], holding [count]. *)
Abbreviation Table := (gmap (string * string) Z).

(** [prisma.rateLimit.upsert]: [count: { increment: 1 }] on an existing
    row, [count: 1] on a new one; gives back the row as written. *)
Definition upsert (userId windowKey : string) (t : Table) : Z * Table :=
  match t !! (userId, windowKey) with
  | Some c => (c + 1, <[(userId, windowKey) := c + 1]> t)
  | None => (1, <[(userId, windowKey) := 1]> t)
  end.

(** [now.toISOString().slice(0, 16)], on the ISO text of [now]. *)
Definition windowKey (nowISO : string) : string := Js.slice0 16 nowISO.

(** [checkRateLimit(userId)].  Its two inputs from outside are the ISO text
    of [new Date()] and whether the upsert goes through ([storageOk]); a
    failed upsert writes nothing and is caught. *)
Definition checkRateLimit (nowISO : string) (storageOk : bool)
    (userId : string) (t : Table) : RateLimitResult * Table :=
  let windowKey := windowKey nowISO in
  if storageOk then
    let '(count, t') := upsert userId windowKey t in
    ({| allowed := count <=? MAX_RUNS_PER_MINUTE;
        remaining := Z.max 0 (MAX_RUNS_PER_MINUTE - count) |}, t')
  else
    ({| allowed := true; remaining := MAX_RUNS_PER_MINUTE |}, t).

(** A call as the limiter sees it, and a sequence of calls run in order. *)
Record Call := { nowISO : string; storageOk : bool; userId : string }.

Definition call (c : Call) (t : Table) : RateLimitResult * Table :=
  checkRateLimit (nowISO c) (storageOk c) (userId c) t.

Fixpoint calls (cs : list Call) (t : Table) : Table :=
  match cs with
  | [] => t
  | c :: cs' => calls cs' (call c t).2
  end.

(** How many calls of [cs] reached the counter of [(u, w)]. *)
Definition counts (u w : string) (c : Call) : bool :=
  storageOk c && bool_decide (userId c = u) && bool_decide (windowKey (nowISO c) = w).

Fixpoint hits (u w : string) (cs : list Call) : Z :=
  match cs with
  | [] => 0
  | c :: cs' => (if counts u w c then 1 else 0) + hits u w cs'
  end.

Definition count_of (t : Table) (u w : string) : Z := default 0 (t !! (u, w)).

(** Whether a call falls in the window of another: the same user in the
    same minute. *)
Definition same_window (c c' : Call) : bool :=
  bool_decide (userId c' = userId c)
  && bool_decide (windowKey (nowISO c') = windowKey (nowISO c)).

End RateLimit.

(* ===================================================================== *)
(** ** src/lib/pricing.ts *)
(* ===================================================================== *)

Module Pricing.
Import Js.
Local Open Scope float_scope.

Record ModelPricing := { inputPer1M : float; outputPer1M : float }.

Record ProviderConfig := {
  name : string;
  displayName : string;
  models : list (string * ModelPricing);
  defaultModel : string;
}.

Definition PROVIDER_CONFIGS : list (string * ProviderConfig) :=
  [ ("openai",
     {| name := "openai"; displayName := "OpenAI"; defaultModel := "gpt-4o";
        models :=
          [ ("gpt-4o", {| inputPer1M := 2.50; outputPer1M := 10.00 |});
            ("gpt-4o-mini", {| inputPer1M := 0.15; outputPer1M := 0.60 |});
            ("gpt-4-turbo", {| inputPer1M := 10.00; outputPer1M := 30.00 |});
            ("gpt-4", {| inputPer1M := 30.00; outputPer1M := 60.00 |});
            ("gpt-3.5-turbo", {| inputPer1M := 0.50; outputPer1M := 1.50 |});
            ("o1", {| inputPer1M := 15.00; outputPer1M := 60.00 |});
            ("o1-mini", {| inputPer1M := 3.00; outputPer1M := 12.00 |}) ] |});
    ("anthropic",
     {| name := "anthropic"; displayName := "Anthropic";
        defaultModel := "claude-sonnet-4-20250514";
        models :=
          [ ("claude-sonnet-4-20250514", {| inputPer1M := 3.00; outputPer1M := 15.00 |});
            ("claude-opus-4-20250514", {| inputPer1M := 15.00; outputPer1M := 75.00 |});
            ("claude-3-5-sonnet-20241022", {| inputPer1M := 3.00; outputPer1M := 15.00 |});
            ("claude-3-5-haiku-20241022", {| inputPer1M := 0.80; outputPer1M := 4.00 |});
            ("claude-3-opus-20240229", {| inputPer1M := 15.00; outputPer1M := 75.00 |});
            ("claude-3-sonnet-20240229", {| inputPer1M := 3.00; outputPer1M := 15.00 |});
            ("claude-3-haiku-20240307", {| inputPer1M := 0.25; outputPer1M := 1.25 |}) ] |});
    ("google",
     {| name := "google"; displayName := "Google Gemini";
        defaultModel := "gemini-1.5-pro";
        models :=
          [ ("gemini-1.5-pro", {| inputPer1M := 1.25; outputPer1M := 5.00 |});
            ("gemini-1.5-flash", {| inputPer1M := 0.075; outputPer1M := 0.30 |});
            ("gemini-1.5-flash-8b", {| inputPer1M := 0.0375; outputPer1M := 0.15 |});
            ("gemini-2.0-flash-exp", {| inputPer1M := 0.10; outputPer1M := 0.40 |}) ] |});
    ("deepseek",
     {| name := "deepseek"; displayName := "DeepSeek";
        defaultModel := "deepseek-chat";
        models :=
          [ ("deepseek-chat", {| inputPer1M := 0.14; outputPer1M := 0.28 |});
            ("deepseek-reasoner", {| inputPer1M := 0.55; outputPer1M := 2.19 |}) ] |});
    ("local",
     {| name := "local"; displayName := "Local/OpenAI-Compatible";
        defaultModel := "default";
        models := [ ("default", {| inputPer1M := 0.00; outputPer1M := 0.00 |}) ] |}) ].

Record Cost := { cost : float; isEstimated : bool }.

(** The linear cost at a price, and the flat one ($10 per 1M tokens). *)
Definition linear (p : ModelPricing) (inputTokens outputTokens : float) : float :=
  (inputTokens / 1000000) * inputPer1M p + (outputTokens / 1000000) * outputPer1M p.

Definition flat (inputTokens outputTokens : float) : float :=
  (inputTokens + outputTokens) * 0.00001.

(** [calculateCost].  A provider name that [PROVIDER_CONFIGS] inherits passes
    [!providerConfig]; its [.models] is [undefined], and indexing that throws
    (the message is V8's).  A model name that [models] inherits passes
    [!modelPricing]; its prices are [undefined], so the sum is [NaN]. *)
Definition calculateCost (provider model : string)
    (inputTokens outputTokens : float) : Outcome Cost :=
  match get PROVIDER_CONFIGS provider with
  | Undefined =>
      Return {| cost := flat inputTokens outputTokens; isEstimated := true |}
  | Inherited =>
      Throw (Err TypeError
        ("Cannot read properties of undefined (reading '" +:+ model +:+ "')"))
  | Own providerConfig =>
      match get (models providerConfig) model with
      | Undefined =>
          match get (models providerConfig) (defaultModel providerConfig) with
          | Own defaultPricing =>
              Return {| cost := linear defaultPricing inputTokens outputTokens;
                        isEstimated := true |}
          | Inherited => Return {| cost := nan; isEstimated := true |}
          | Undefined =>
              Return {| cost := flat inputTokens outputTokens; isEstimated := true |}
          end
      | Inherited => Return {| cost := nan; isEstimated := false |}
      | Own modelPricing =>
          Return {| cost := linear modelPricing inputTokens outputTokens;
                    isEstimated := false |}
      end
  end.

(** [estimateTokenCount]: [Math.ceil(text.length / 4)], and 0 for the empty
    text. *)
Definition estimateTokenCount (text : string) : Z :=
  if String.eqb text "" then 0%Z
  else Qceiling (inject_Z (Z.of_nat (String.length text)) / 4)%Q.

(** [getModelsForProvider]: the keys of [models], in the order they are
    written (none is an array index).  A name that [PROVIDER_CONFIGS]
    inherits passes [!config]; its [.models] is [undefined], which
    [Object.keys] refuses (the message is V8's). *)
Definition getModelsForProvider (provider : string) : Outcome (list string) :=
  match get PROVIDER_CONFIGS provider with
  | Undefined => Return []
  | Inherited => Throw (Err TypeError "Cannot convert undefined or null to object")
  | Own config => Return (map fst (models config))
  end.

(** [getAvailableProviders]: [name] and [displayName] of every entry. *)
Definition getAvailableProviders : list (string * string) :=
  map (fun entry => (name entry.2, displayName entry.2)) PROVIDER_CONFIGS.

End Pricing.

(* ===================================================================== *)
(** ** src/lib/validation.ts *)
(* ===================================================================== *)

Module Validation.
Import Js RegExp.

Record ValidationResult := { passed : bool; notes : string }.

Definition quote : string := String (ascii_of_nat 34) EmptyString.

(** [validateContains]. *)
Definition validateContains (output expectedContains : string) : ValidationResult :=
  let passed := includes output expectedContains in
  {| passed := passed;
     notes :=
       if passed then "Output contains expected string"
       else "Output does not contain: " +:+ quote +:+ slice0 50 expectedContains
            +:+ (if (50 <? String.length expectedContains)%nat then "..." else "")
            +:+ quote |}.

(** [results.map((r) => r.notes).join('; ')]. *)
Fixpoint join (sep : string) (l : list string) : string :=
  match l with
  | [] => ""
  | [x] => x
  | x :: l' => x +:+ sep +:+ join sep l'
  end.

(** A string that is neither [null] nor empty. *)
Definition truthy (s : option string) : option string :=
  match s with
  | Some EmptyString | None => None
  | Some s => Some s
  end.

(** [validateOutput].  [validateJsonSchema] (Ajv over parsed JSON) catches
    everything it throws and always gives a result; it is taken as given. *)
Definition validateOutput (validateJsonSchema : string -> string -> ValidationResult)
    (output : string) (expectedContains jsonSchema : option string)
    : option ValidationResult :=
  match truthy expectedContains, truthy jsonSchema with
  | None, None => None
  | c, j =>
      let results :=
        (match c with Some e => [validateContains output e] | None => [] end)
        ++ (match j with Some sch => [validateJsonSchema output sch] | None => [] end) in
      Some {| passed := forallb passed results;
              notes := join "; " (map notes results) |}
  end.

End Validation.

(* ===================================================================== *)
(** ** src/lib/providers: what the runner uses of them *)
(* ===================================================================== *)

Module Providers.
Import Js.

Inductive Role := system | user | assistant.

Record ProviderMessage := { role : Role; content : string }.

Record ProviderRequest := {
  messages : list ProviderMessage;
  model : string;
  apiKey : string;
  baseUrl : option string;
}.

Record ProviderResponse := {
  output : string;
  inputTokens : option float;
  outputTokens : option float;
  totalTokens : option float;
  tokensEstimated : bool;
}.

(** How a promise settles. *)
Inductive Settled (A : Type) :=
| Resolved (a : A)
| Rejected (e : Thrown).
Arguments Resolved {A} a.
Arguments Rejected {A} e.

(** The names [initAdapters] registers; [getAdapter] finds these and no
    other. *)
Definition adapters : list string :=
  ["openai"; "anthropic"; "google"; "deepseek"; "local"].

Definition getAdapter (providerName : string) : option string :=
  if existsb (String.eqb providerName) adapters then Some providerName else None.

End Providers.

(* ===================================================================== *)
(** ** src/lib/providers: the adapters and their registry *)
(* ===================================================================== *)

Module Adapters.
Import Js RegExp Encryption Providers.

(** *** types.ts *)

(** The request of types.ts, with the two optional fields the runner never
    sets. *)
Record Request := {
  request : ProviderRequest;
  maxTokens : option float;
  temperature : option float;
}.

(** A number that is neither [undefined], nor zero, nor [NaN]. *)
Definition truthy_number (x : option float) : option float :=
  match x with
  | Some f => if PrimFloat.is_zero f || PrimFloat.is_nan f then None else Some f
  | None => None
  end.

(** [BaseProviderAdapter.estimateTokens] and [estimateInputTokens]. *)
Definition estimateTokens (text : string) : Z :=
  if String.eqb text "" then 0
  else Qceiling (inject_Z (Z.of_nat (String.length text)) / 4).

Definition estimateInputTokens (messages : list ProviderMessage) : Z :=
  fold_left (fun sum msg => sum + estimateTokens (content msg) + 4) messages 0.

(** An adapter by what it holds itself: its names, its static list of
    models and its default model. *)
Record ProviderAdapter := {
  name : string;
  displayName : string;
  getSupportedModels : list string;
  getDefaultModel : string;
}.

Definition OpenAIAdapter : ProviderAdapter :=
  {| name := "openai"; displayName := "OpenAI";
     getSupportedModels :=
       ["gpt-4o"; "gpt-4o-mini"; "gpt-4-turbo"; "gpt-4"; "gpt-3.5-turbo"; "o1"; "o1-mini"];
     getDefaultModel := "gpt-4o" |}.

Definition AnthropicAdapter : ProviderAdapter :=
  {| name := "anthropic"; displayName := "Anthropic";
     getSupportedModels :=
       ["claude-sonnet-4-20250514"; "claude-opus-4-20250514";
        "claude-3-5-sonnet-20241022"; "claude-3-5-haiku-20241022";
        "claude-3-opus-20240229"; "claude-3-sonnet-20240229";
        "claude-3-haiku-20240307"];
     getDefaultModel := "claude-sonnet-4-20250514" |}.

Definition GoogleAdapter : ProviderAdapter :=
  {| name := "google"; displayName := "Google Gemini";
     getSupportedModels :=
       ["gemini-1.5-pro"; "gemini-1.5-flash"; "gemini-1.5-flash-8b";
        "gemini-2.0-flash-exp"];
     getDefaultModel := "gemini-1.5-pro" |}.

Definition DeepSeekAdapter : ProviderAdapter :=
  {| name := "deepseek"; displayName := "DeepSeek";
     getSupportedModels := ["deepseek-chat"; "deepseek-reasoner"];
     getDefaultModel := "deepseek-chat" |}.

Definition LocalAdapter : ProviderAdapter :=
  {| name := "local"; displayName := "Local/OpenAI-Compatible";
     getSupportedModels :=
       ["default"; "llama2"; "llama3"; "mistral"; "mixtral"; "codellama"; "phi"; "gemma"];
     getDefaultModel := "default" |}.

(** Whether a message is a system message. *)
Definition is_system (msg : ProviderMessage) : bool :=
  match role msg with
  | system => true
  | _ => false
  end.

(** *** index.ts: the registry *)

(** The [Map] of adapters, by its entries in the order of insertion. *)
Abbreviation Registry := (list (string * ProviderAdapter)).

(** [Map.prototype.set]: in place for a key the map holds, else at the
    end. *)
Fixpoint set (key : string) (adapter : ProviderAdapter) (m : Registry) : Registry :=
  match m with
  | [] => [(key, adapter)]
  | (key', adapter') :: m' =>
      if String.eqb key' key then (key', adapter) :: m'
      else (key', adapter') :: set key adapter m'
  end.

Definition initAdapters (adapters : Registry) : Registry :=
  if (length adapters =? 0)%nat then
    let adapters := set (name OpenAIAdapter) OpenAIAdapter adapters in
    let adapters := set (name AnthropicAdapter) AnthropicAdapter adapters in
    let adapters := set (name GoogleAdapter) GoogleAdapter adapters in
    let adapters := set (name DeepSeekAdapter) DeepSeekAdapter adapters in
    set (name LocalAdapter) LocalAdapter adapters
  else adapters.

(** The functions of the registry: what each returns, and the registry it
    leaves. *)
Definition getAdapter (providerName : string) (adapters : Registry)
    : option ProviderAdapter * Registry :=
  let adapters := initAdapters adapters in
  (own adapters providerName, adapters).

Definition getAllAdapters (adapters : Registry) : list ProviderAdapter * Registry :=
  let adapters := initAdapters adapters in
  (map snd adapters, adapters).

Definition getProviderNames (adapters : Registry) : list string * Registry :=
  let adapters := initAdapters adapters in
  (map fst adapters, adapters).

Definition isProviderSupported (providerName : string) (adapters : Registry)
    : bool * Registry :=
  let adapters := initAdapters adapters in
  (match own adapters providerName with Some _ => true | None => false end, adapters).

Definition registerAdapter (adapter : ProviderAdapter) (adapters : Registry) : Registry :=
  set (name adapter) adapter (initAdapters adapters).

(** The registry after a sequence of registrations. *)
Definition registered (custom : list ProviderAdapter) : Registry :=
  fold_left (fun adapters adapter => registerAdapter adapter adapters) custom [].

(** *** The network, as an adapter sees it *)

(** What [fetch] and the reading of the body give: [fetch] rejects; the
    response is not [ok], with its status and, when its body is JSON that
    has one, [error.message]; the response is [ok] and [response.json()]
    settles. *)
Inductive Fetched (Data : Type) :=
| Rejects (e : Thrown)
| Refused (status : Z) (message : option string)
| Answers (data : Settled Data).
Arguments Rejects {Data} e.
Arguments Refused {Data} status message.
Arguments Answers {Data} data.

(** [errorData.error?.message || `HTTP ${response.status}`]. *)
Definition errorMessage (status : Z) (message : option string) : string :=
  nullish (Validation.truthy message) ("HTTP " +:+ decimal status).

(** The [catch] of [complete]: a new [Error] with the redacted message. *)
Definition rethrow {A : Type} (apiKey : string) (error : Thrown) : Outcome A :=
  let message :=
    match error with
    | Err _ message => message
    | NonError => "Unknown error"
    end in
  let* redacted := redactApiKey message apiKey in
  Throw (Err Error redacted).

(** *** openai.ts *)

Module OpenAI.

Record ChatRequest := {
  model : string;
  messages : list ProviderMessage;
  max_tokens : option float;
  temperature : option float;
  stream : bool;
}.

Definition requestBody (r : Request) : ChatRequest :=
  {| model := Providers.model (request r);
     messages :=
       map (fun m => {| role := role m; content := content m |})
         (Providers.messages (request r));
     max_tokens := truthy_number (maxTokens r);
     temperature := Adapters.temperature r;
     stream := false |}.

Record Usage := {
  prompt_tokens : float;
  completion_tokens : float;
  total_tokens : float;
}.

Record Choice := { message : string; finish_reason : string }.

Record ChatResponse := { choices : list Choice; usage : option Usage }.

(** [complete(request)], given what the network does. *)
Definition complete (fetched : Fetched ChatResponse) (r : Request)
    : Outcome ProviderResponse :=
  let apiKey := Providers.apiKey (request r) in
  let attempt : Outcome ProviderResponse :=
    match fetched with
    | Rejects e => Throw e
    | Refused status message =>
        let* redacted := redactApiKey (errorMessage status message) apiKey in
        Throw (Err Error redacted)
    | Answers (Rejected e) => Throw e
    | Answers (Resolved data) =>
        match choices data with
        | [] => Throw (Err Error "No response choices returned")
        | choice :: _ =>
            Return {| output := message choice;
                      inputTokens := option_map prompt_tokens (usage data);
                      outputTokens := option_map completion_tokens (usage data);
                      totalTokens := option_map total_tokens (usage data);
                      tokensEstimated :=
                        match usage data with Some _ => false | None => true end |}
        end
    end in
  match attempt with
  | Throw error => rethrow apiKey error
  | settled => settled
  end.

End OpenAI.

(** *** anthropic.ts *)

Module Anthropic.

Record AnthropicRequest := {
  model : string;
  messages : list ProviderMessage;
  max_tokens : float;
  system : option string;
  temperature : option float;
}.

(** The loop over [request.messages]: [systemPrompt] and [messages] after
    it. *)
Definition extract (messages : list ProviderMessage)
    : option string * list ProviderMessage :=
  fold_left
    (fun state msg =>
       match role msg with
       | Providers.system => (Some (content msg), state.2)
       | _ => (state.1, state.2 ++ [ {| role := role msg; content := content msg |} ])
       end)
    messages (None, []).

Definition requestBody (r : Request) : AnthropicRequest :=
  let state := extract (Providers.messages (request r)) in
  {| model := Providers.model (request r);
     messages := state.2;
     max_tokens := nullish (truthy_number (maxTokens r)) 4096%float;
     system := Validation.truthy state.1;
     temperature := Adapters.temperature r |}.

Record Block := { type : string; text : string }.

Record Usage := { input_tokens : float; output_tokens : float }.

Record AnthropicResponse := { content : list Block; usage : option Usage }.

Definition complete (fetched : Fetched AnthropicResponse) (r : Request)
    : Outcome ProviderResponse :=
  let apiKey := Providers.apiKey (request r) in
  let attempt : Outcome ProviderResponse :=
    match fetched with
    | Rejects e => Throw e
    | Refused status message =>
        let* redacted := redactApiKey (errorMessage status message) apiKey in
        Throw (Err Error redacted)
    | Answers (Rejected e) => Throw e
    | Answers (Resolved data) =>
        let textContent := find (fun c => String.eqb (type c) "text") (content data) in
        Return {| output := nullish (Validation.truthy (option_map text textContent)) "";
                  inputTokens := option_map input_tokens (usage data);
                  outputTokens := option_map output_tokens (usage data);
                  totalTokens :=
                    option_map (fun u => (input_tokens u + output_tokens u)%float)
                      (usage data);
                  tokensEstimated :=
                    match usage data with Some _ => false | None => true end |}
    end in
  match attempt with
  | Throw error => rethrow apiKey error
  | settled => settled
  end.

End Anthropic.

(** *** google.ts *)

Module Google.

Inductive GeminiRole := user | model.

Record GeminiContent := { role : GeminiRole; parts : list string }.

Record GenerationConfig := {
  maxOutputTokens : option float;
  temperature : option float;
}.

Record GeminiRequest := {
  contents : list GeminiContent;
  systemInstruction : option (list string);
  generationConfig : GenerationConfig;
}.

(** The loop over [request.messages]: [systemInstruction] and [contents]
    after it. *)
Definition convert (messages : list ProviderMessage)
    : option (list string) * list GeminiContent :=
  fold_left
    (fun state msg =>
       match Providers.role msg with
       | Providers.system => (Some [Providers.content msg], state.2)
       | Providers.assistant =>
           (state.1, state.2 ++ [ {| role := model; parts := [Providers.content msg] |} ])
       | Providers.user =>
           (state.1, state.2 ++ [ {| role := user; parts := [Providers.content msg] |} ])
       end)
    messages (None, []).

(** The content a message that is no system message becomes. *)
Definition turn (msg : ProviderMessage) : GeminiContent :=
  {| role := match Providers.role msg with Providers.assistant => model | _ => user end;
     parts := [Providers.content msg] |}.

Definition requestBody (r : Request) : GeminiRequest :=
  let state := convert (Providers.messages (request r)) in
  {| contents := state.2;
     systemInstruction := state.1;
     generationConfig :=
       {| maxOutputTokens := truthy_number (maxTokens r);
          temperature := Adapters.temperature r |} |}.

End Google.

End Adapters.

(* ===================================================================== *)
(** ** The database, the clock and the network *)
(* ===================================================================== *)

Module ModelConfig.
Record t := { provider : string; model : string; apiKeyId : string }.
End ModelConfig.

Inductive RunStatus := pending | running | completed | failed | dry_run.

(** An object with string values, as the list of its own properties in the
    order [Object.entries] gives them: array indices first, ascending, then
    the other keys as they were added. *)
Abbreviation JsObject := (list (string * string)).

Module Prisma.

Module Test.
Record t := {
  userId : string;
  basePrompt : string;
  variables : option JsObject;
  expectedContains : option string;
  jsonSchema : option string;
}.
End Test.

Module ApiKey.
Record t := {
  userId : string;
  isActive : bool;
  encryptedKey : string;
  iv : string;
  authTag : string;
  baseUrl : option string;
}.
End ApiKey.

Module Run.
Record t := {
  id : string;
  userId : string;
  testId : option string;
  apiKeyId : string;
  provider : string;
  model : string;
  prompt : string;
  inputVariables : JsObject;
  batchId : option string;
  batchIndex : option nat;
  isDryRun : bool;
  status : RunStatus;
  output : option string;
  errorMessage : option string;
  latencyMs : option Z;
  inputTokens : option float;
  outputTokens : option float;
  totalTokens : option float;
  tokensEstimated : option bool;
  estimatedCost : option float;
  costEstimated : option bool;
  passed : option bool;
  validationNotes : option string;
  completedAt : option string;
}.
End Run.

End Prisma.

Module System.
Import Js Providers Validation.

(** A reading of the clock: [Date.now()] and [toISOString()]. *)
Record Instant := { ms : Z; iso : string }.

(** What the program is given from outside, each by the number of earlier
    uses: the clock, whether the next upsert of [rateLimit] goes through,
    the id of the next [run] row, [Math.random().toString(36).slice(2, 8)],
    how the next [adapter.complete] settles; then [validateJsonSchema], the
    encryption key of the process and the cipher. *)
Record Env := {
  clock : nat -> Instant;
  storage : nat -> bool;
  cuid : nat -> string;
  random : nat -> string;
  complete : nat -> string -> ProviderRequest -> Settled ProviderResponse;
  validateJsonSchema : string -> string -> ValidationResult;
  APP_ENCRYPTION_KEY : option string;
  gctr : Encryption.bytes -> Encryption.bytes -> Encryption.bytes -> Encryption.bytes;
  gtag : Encryption.bytes -> Encryption.bytes -> Encryption.bytes -> Encryption.bytes;
}.

(** The tables, and what has been done so far: every status written to a
    [run] row and every call of an adapter, in order, and how often the
    clock, the [rateLimit] upsert and [Math.random] were used. *)
Record World := {
  rateLimit : gmap (string * string) Z;
  test : gmap string Prisma.Test.t;
  apiKey : gmap string Prisma.ApiKey.t;
  run : list Prisma.Run.t;
  statusLog : list (string * RunStatus);
  adapterLog : list (string * ProviderRequest);
  clockReads : nat;
  upserts : nat;
  randoms : nat;
}.

(** A computation: from a world to an outcome and the world it leaves. *)
Definition M (A : Type) : Type := World -> Outcome A * World.

Definition ret {A : Type} (a : A) : M A := fun w => (Return a, w).

Definition throw {A : Type} (e : Thrown) : M A := fun w => (Throw e, w).

Definition lift {A : Type} (o : Outcome A) : M A := fun w => (o, w).

Definition bind {A B : Type} (m : M A) (k : A -> M B) : M B :=
  fun w =>
    match m w with
    | (Return a, w') => k a w'
    | (Throw e, w') => (Throw e, w')
    | (Unmodelled, w') => (Unmodelled, w')
    end.

(** [try { body } catch (error) { handler }]. *)
Definition try_catch {A : Type} (body : M A) (handler : Thrown -> M A) : M A :=
  fun w =>
    match body w with
    | (Throw e, w') => handler e w'
    | r => r
    end.

(** [new Date()] or [Date.now()]. *)
Definition now (env : Env) : M Instant :=
  fun w =>
    (Return (clock env (clockReads w)),
     {| rateLimit := rateLimit w; test := test w; apiKey := apiKey w;
        run := run w; statusLog := statusLog w; adapterLog := adapterLog w;
        clockReads := S (clockReads w); upserts := upserts w;
        randoms := randoms w |}).

Definition math_random (env : Env) : M string :=
  fun w =>
    (Return (random env (randoms w)),
     {| rateLimit := rateLimit w; test := test w; apiKey := apiKey w;
        run := run w; statusLog := statusLog w; adapterLog := adapterLog w;
        clockReads := clockReads w; upserts := upserts w;
        randoms := S (randoms w) |}).

(** [checkRateLimit(userId)] of rate-limit.ts, on the [rateLimit] table. *)
Definition checkRateLimit (env : Env) (userId : string) : M RateLimit.RateLimitResult :=
  bind (now env) (fun date w =>
    let '(r, t) :=
      RateLimit.checkRateLimit (iso date) (storage env (upserts w)) userId (rateLimit w) in
    (Return r,
     {| rateLimit := t; test := test w; apiKey := apiKey w;
        run := run w; statusLog := statusLog w; adapterLog := adapterLog w;
        clockReads := clockReads w; upserts := S (upserts w);
        randoms := randoms w |})).

(** [prisma.run.create]: a new row, its id from [cuid]. *)
Definition run_create (env : Env) (row : string -> Prisma.Run.t) : M Prisma.Run.t :=
  fun w =>
    let r := row (cuid env (length (run w))) in
    (Return r,
     {| rateLimit := rateLimit w; test := test w; apiKey := apiKey w;
        run := run w ++ [r];
        statusLog := statusLog w ++ [(Prisma.Run.id r, Prisma.Run.status r)];
        adapterLog := adapterLog w;
        clockReads := clockReads w; upserts := upserts w;
        randoms := randoms w |}).

(** [prisma.run.update] of the row [runId], with [data] that sets [status]. *)
Definition run_update (runId : string) (status : RunStatus)
    (data : Prisma.Run.t -> Prisma.Run.t) : M unit :=
  fun w =>
    (Return tt,
     {| rateLimit := rateLimit w; test := test w; apiKey := apiKey w;
        run := map (fun r => if String.eqb (Prisma.Run.id r) runId then data r else r) (run w);
        statusLog := statusLog w ++ [(runId, status)];
        adapterLog := adapterLog w;
        clockReads := clockReads w; upserts := upserts w;
        randoms := randoms w |}).

(** [adapter.complete(request)]: a call over the network. *)
Definition adapter_complete (env : Env) (adapter : string) (request : ProviderRequest)
    : M ProviderResponse :=
  fun w =>
    let w' :=
      {| rateLimit := rateLimit w; test := test w; apiKey := apiKey w;
         run := run w; statusLog := statusLog w;
         adapterLog := adapterLog w ++ [(adapter, request)];
         clockReads := clockReads w; upserts := upserts w;
         randoms := randoms w |} in
    match complete env (length (adapterLog w)) adapter request with
    | Resolved response => (Return response, w')
    | Rejected e => (Throw e, w')
    end.

End System.

(* ===================================================================== *)
(** ** src/lib/test-runner.ts *)
(* ===================================================================== *)

Module RunResult.
Import Js.
Record t := {
  id : string;
  status : RunStatus;
  provider : string;
  model : string;
  output : Field string;
  errorMessage : Field string;
  latencyMs : Field Z;
  inputTokens : Field float;
  outputTokens : Field float;
  estimatedCost : Field float;
  passed : Field bool;
  validationNotes : Field string;
}.
End RunResult.

Module TestRunner.
Import Js RegExp Providers Validation System.

Notation "x <- m ;; k" := (System.bind m (fun x => k))
  (at level 100, m at next level, right associativity, only parsing).

Record RunOptions := {
  testId : string;
  modelConfigs : list ModelConfig.t;
  variables : option JsObject;
  batchCount : option nat;
  isDryRun : option bool;
  userId : string;
}.

(** *** Objects with string values *)

Definition digit (c : ascii) : option N :=
  let n := N_of_ascii c in
  if ((48 <=? n) && (n <=? 57))%N then Some (n - 48)%N else None.

Fixpoint digits (acc : N) (l : list ascii) : option N :=
  match l with
  | [] => Some acc
  | c :: l' =>
      match digit c with
      | Some d => digits (10 * acc + d) l'
      | None => None
      end
  end.

(** The array index a property key spells, if any: a decimal numeral with
    no leading zero, below [2^32 - 1]. *)
Definition array_index (k : string) : option N :=
  match chars k with
  | [] => None
  | c :: l =>
      if Ascii.eqb c "0" && negb (Nat.eqb (length l) 0) then None
      else
        match digits 0 (c :: l) with
        | Some n => if (n <? 4294967295)%N then Some n else None
        | None => None
        end
  end.

Fixpoint update (k v : string) (o : JsObject) : JsObject :=
  match o with
  | [] => []
  | (k', v') :: o' =>
      if String.eqb k' k then (k', v) :: o' else (k', v') :: update k v o'
  end.

Fixpoint insert_index (n : N) (k v : string) (o : JsObject) : JsObject :=
  match o with
  | [] => [(k, v)]
  | (k', v') :: o' =>
      match array_index k' with
      | Some n' =>
          if (n' <? n)%N then (k', v') :: insert_index n k v o' else (k, v) :: o
      | None => (k, v) :: o
      end
  end.

(** Setting a property: in place when the object has it, else at the place
    its key takes in the order. *)
Definition define (k v : string) (o : JsObject) : JsObject :=
  match own o k with
  | Some _ => update k v o
  | None =>
      match array_index k with
      | Some n => insert_index n k v o
      | None => o ++ [(k, v)]
      end
  end.

(** [{ ...target, ...source }] onto [target]. *)
Definition spread (target source : JsObject) : JsObject :=
  fold_left (fun o kv => define kv.1 kv.2 o) source target.

(** *** substituteVariables *)

(** [new RegExp(`\\{\\{\\s*${key}\\s*\\}\\}`, 'g')]. *)
Definition placeholder (key : string) : Outcome Pattern :=
  RegExp ("\{\{\s*" +:+ key +:+ "\s*\}\}").

Fixpoint substituteEntries (result : string) (entries : JsObject) : Outcome string :=
  match entries with
  | [] => Return result
  | (key, value) :: entries' =>
      match placeholder key with
      | Return regex => substituteEntries (replace regex value result) entries'
      | Throw e => Throw e
      | Unmodelled => Unmodelled
      end
  end.

Definition substituteVariables (template : string) (variables : JsObject) : Outcome string :=
  substituteEntries template variables.

(** *** executeRun *)

Record KeyMaterial := {
  encryptedKey : string;
  iv : string;
  authTag : string;
  baseUrl : option string;
}.

Definition set_running (r : Prisma.Run.t) : Prisma.Run.t :=
  {| Prisma.Run.id := Prisma.Run.id r; Prisma.Run.userId := Prisma.Run.userId r;
     Prisma.Run.testId := Prisma.Run.testId r; Prisma.Run.apiKeyId := Prisma.Run.apiKeyId r;
     Prisma.Run.provider := Prisma.Run.provider r; Prisma.Run.model := Prisma.Run.model r;
     Prisma.Run.prompt := Prisma.Run.prompt r;
     Prisma.Run.inputVariables := Prisma.Run.inputVariables r;
     Prisma.Run.batchId := Prisma.Run.batchId r;
     Prisma.Run.batchIndex := Prisma.Run.batchIndex r;
     Prisma.Run.isDryRun := Prisma.Run.isDryRun r;
     Prisma.Run.status := running;
     Prisma.Run.output := Prisma.Run.output r;
     Prisma.Run.errorMessage := Prisma.Run.errorMessage r;
     Prisma.Run.latencyMs := Prisma.Run.latencyMs r;
     Prisma.Run.inputTokens := Prisma.Run.inputTokens r;
     Prisma.Run.outputTokens := Prisma.Run.outputTokens r;
     Prisma.Run.totalTokens := Prisma.Run.totalTokens r;
     Prisma.Run.tokensEstimated := Prisma.Run.tokensEstimated r;
     Prisma.Run.estimatedCost := Prisma.Run.estimatedCost r;
     Prisma.Run.costEstimated := Prisma.Run.costEstimated r;
     Prisma.Run.passed := Prisma.Run.passed r;
     Prisma.Run.validationNotes := Prisma.Run.validationNotes r;
     Prisma.Run.completedAt := Prisma.Run.completedAt r |}.

Definition set_dry_run (inputTokens cost : float) (completedAt : string)
    (r : Prisma.Run.t) : Prisma.Run.t :=
  {| Prisma.Run.id := Prisma.Run.id r; Prisma.Run.userId := Prisma.Run.userId r;
     Prisma.Run.testId := Prisma.Run.testId r; Prisma.Run.apiKeyId := Prisma.Run.apiKeyId r;
     Prisma.Run.provider := Prisma.Run.provider r; Prisma.Run.model := Prisma.Run.model r;
     Prisma.Run.prompt := Prisma.Run.prompt r;
     Prisma.Run.inputVariables := Prisma.Run.inputVariables r;
     Prisma.Run.batchId := Prisma.Run.batchId r;
     Prisma.Run.batchIndex := Prisma.Run.batchIndex r;
     Prisma.Run.isDryRun := true;
     Prisma.Run.status := dry_run;
     Prisma.Run.output := Prisma.Run.output r;
     Prisma.Run.errorMessage := Prisma.Run.errorMessage r;
     Prisma.Run.latencyMs := Prisma.Run.latencyMs r;
     Prisma.Run.inputTokens := Some inputTokens;
     Prisma.Run.outputTokens := None;
     Prisma.Run.totalTokens := Prisma.Run.totalTokens r;
     Prisma.Run.tokensEstimated := Some true;
     Prisma.Run.estimatedCost := Some cost;
     Prisma.Run.costEstimated := Some true;
     Prisma.Run.passed := Prisma.Run.passed r;
     Prisma.Run.validationNotes := Prisma.Run.validationNotes r;
     Prisma.Run.completedAt := Some completedAt |}.

Definition set_completed (output : string) (latencyMs : Z)
    (inputTokens outputTokens : float) (tokensEstimated : bool)
    (cost : float) (costEstimated : bool) (validation : option ValidationResult)
    (completedAt : string) (r : Prisma.Run.t) : Prisma.Run.t :=
  {| Prisma.Run.id := Prisma.Run.id r; Prisma.Run.userId := Prisma.Run.userId r;
     Prisma.Run.testId := Prisma.Run.testId r; Prisma.Run.apiKeyId := Prisma.Run.apiKeyId r;
     Prisma.Run.provider := Prisma.Run.provider r; Prisma.Run.model := Prisma.Run.model r;
     Prisma.Run.prompt := Prisma.Run.prompt r;
     Prisma.Run.inputVariables := Prisma.Run.inputVariables r;
     Prisma.Run.batchId := Prisma.Run.batchId r;
     Prisma.Run.batchIndex := Prisma.Run.batchIndex r;
     Prisma.Run.isDryRun := Prisma.Run.isDryRun r;
     Prisma.Run.status := completed;
     Prisma.Run.output := Some output;
     Prisma.Run.errorMessage := Prisma.Run.errorMessage r;
     Prisma.Run.latencyMs := Some latencyMs;
     Prisma.Run.inputTokens := Some inputTokens;
     Prisma.Run.outputTokens := Some outputTokens;
     Prisma.Run.totalTokens := Some (inputTokens + outputTokens)%float;
     Prisma.Run.tokensEstimated := Some tokensEstimated;
     Prisma.Run.estimatedCost := Some cost;
     Prisma.Run.costEstimated := Some costEstimated;
     Prisma.Run.passed := option_map Validation.passed validation;
     Prisma.Run.validationNotes := option_map Validation.notes validation;
     Prisma.Run.completedAt := Some completedAt |}.

Definition set_failed (errorMessage : string) (latencyMs : Z) (completedAt : string)
    (r : Prisma.Run.t) : Prisma.Run.t :=
  {| Prisma.Run.id := Prisma.Run.id r; Prisma.Run.userId := Prisma.Run.userId r;
     Prisma.Run.testId := Prisma.Run.testId r; Prisma.Run.apiKeyId := Prisma.Run.apiKeyId r;
     Prisma.Run.provider := Prisma.Run.provider r; Prisma.Run.model := Prisma.Run.model r;
     Prisma.Run.prompt := Prisma.Run.prompt r;
     Prisma.Run.inputVariables := Prisma.Run.inputVariables r;
     Prisma.Run.batchId := Prisma.Run.batchId r;
     Prisma.Run.batchIndex := Prisma.Run.batchIndex r;
     Prisma.Run.isDryRun := Prisma.Run.isDryRun r;
     Prisma.Run.status := failed;
     Prisma.Run.output := Prisma.Run.output r;
     Prisma.Run.errorMessage := Some errorMessage;
     Prisma.Run.latencyMs := Some latencyMs;
     Prisma.Run.inputTokens := Prisma.Run.inputTokens r;
     Prisma.Run.outputTokens := Prisma.Run.outputTokens r;
     Prisma.Run.totalTokens := Prisma.Run.totalTokens r;
     Prisma.Run.tokensEstimated := Prisma.Run.tokensEstimated r;
     Prisma.Run.estimatedCost := Prisma.Run.estimatedCost r;
     Prisma.Run.costEstimated := Prisma.Run.costEstimated r;
     Prisma.Run.passed := Prisma.Run.passed r;
     Prisma.Run.validationNotes := Prisma.Run.validationNotes r;
     Prisma.Run.completedAt := Some completedAt |}.

(** The body of the [try] of [executeRun]. *)
Definition callProvider (env : Env) (runId prompt : string)
    (modelConfig : ModelConfig.t) (apiKey : KeyMaterial)
    (expectedContains jsonSchema : option string) (startTime : Instant)
    : M RunResult.t :=
  decrypted <- lift (Encryption.decryptApiKey (gctr env) (gtag env)
                       (APP_ENCRYPTION_KEY env)
                       {| Encryption.encryptedKey := encryptedKey apiKey;
                          Encryption.iv := iv apiKey;
                          Encryption.authTag := authTag apiKey |}) ;;
  decryptedKey <- lift (narrow decrypted) ;;
  adapter <- match getAdapter (ModelConfig.provider modelConfig) with
             | Some adapter => ret adapter
             | None =>
                 throw (Err Error
                   ("Provider " +:+ ModelConfig.provider modelConfig +:+ " not found"))
             end ;;
  let messages := [ {| role := user; content := prompt |} ] in
  response <- adapter_complete env adapter
                {| Providers.messages := messages;
                   Providers.model := ModelConfig.model modelConfig;
                   Providers.apiKey := decryptedKey;
                   Providers.baseUrl := truthy (baseUrl apiKey) |} ;;
  finished <- now env ;;
  let latencyMs := (ms finished - ms startTime)%Z in
  let inputTokens :=
    nullish (Providers.inputTokens response) (number (Pricing.estimateTokenCount prompt)) in
  let outputTokens :=
    nullish (Providers.outputTokens response)
      (number (Pricing.estimateTokenCount (Providers.output response))) in
  let tokensEstimated :=
    Providers.tokensEstimated response
    || match Providers.inputTokens response with None => true | Some _ => false end in
  priced <- lift (Pricing.calculateCost (ModelConfig.provider modelConfig)
                    (ModelConfig.model modelConfig) inputTokens outputTokens) ;;
  let validation :=
    validateOutput (validateJsonSchema env) (Providers.output response)
      expectedContains jsonSchema in
  completedAt <- now env ;;
  _ <- run_update runId completed
         (set_completed (Providers.output response) latencyMs inputTokens outputTokens
            tokensEstimated (Pricing.cost priced) (Pricing.isEstimated priced)
            validation (iso completedAt)) ;;
  ret {| RunResult.id := runId;
         RunResult.status := completed;
         RunResult.provider := ModelConfig.provider modelConfig;
         RunResult.model := ModelConfig.model modelConfig;
         RunResult.output := Value (Providers.output response);
         RunResult.errorMessage := Absent;
         RunResult.latencyMs := Value latencyMs;
         RunResult.inputTokens := Value inputTokens;
         RunResult.outputTokens := Value outputTokens;
         RunResult.estimatedCost := Value (Pricing.cost priced);
         RunResult.passed := nullable (option_map Validation.passed validation);
         RunResult.validationNotes :=
           match validation with
           | Some v => Value (Validation.notes v)
           | None => Absent
           end |}.

(** The [catch] of [executeRun]. *)
Definition recordFailure (env : Env) (runId : string) (modelConfig : ModelConfig.t)
    (startTime : Instant) (error : Thrown) : M RunResult.t :=
  let errorMessage :=
    match error with
    | Err _ message => message
    | NonError => "Unknown error"
    end in
  caught <- now env ;;
  let latencyMs := (ms caught - ms startTime)%Z in
  completedAt <- now env ;;
  _ <- run_update runId failed (set_failed errorMessage latencyMs (iso completedAt)) ;;
  ret {| RunResult.id := runId;
         RunResult.status := failed;
         RunResult.provider := ModelConfig.provider modelConfig;
         RunResult.model := ModelConfig.model modelConfig;
         RunResult.output := Absent;
         RunResult.errorMessage := Value errorMessage;
         RunResult.latencyMs := Value latencyMs;
         RunResult.inputTokens := Absent;
         RunResult.outputTokens := Absent;
         RunResult.estimatedCost := Absent;
         RunResult.passed := Absent;
         RunResult.validationNotes := Absent |}.

Definition executeRun (env : Env) (runId prompt : string)
    (modelConfig : ModelConfig.t) (apiKey : KeyMaterial)
    (expectedContains jsonSchema : option string) (isDryRun : bool)
    : M RunResult.t :=
  startTime <- now env ;;
  _ <- run_update runId running set_running ;;
  if isDryRun then
    let inputTokens := number (Pricing.estimateTokenCount prompt) in
    let outputTokens := number (Pricing.estimateTokenCount "") in
    priced <- lift (Pricing.calculateCost (ModelConfig.provider modelConfig)
                      (ModelConfig.model modelConfig) inputTokens 500%float) ;;
    completedAt <- now env ;;
    _ <- run_update runId dry_run
           (set_dry_run inputTokens (Pricing.cost priced) (iso completedAt)) ;;
    ret {| RunResult.id := runId;
           RunResult.status := dry_run;
           RunResult.provider := ModelConfig.provider modelConfig;
           RunResult.model := ModelConfig.model modelConfig;
           RunResult.output := Absent;
           RunResult.errorMessage := Absent;
           RunResult.latencyMs := Absent;
           RunResult.inputTokens := Value inputTokens;
           RunResult.outputTokens := Absent;
           RunResult.estimatedCost := Value (Pricing.cost priced);
           RunResult.passed := Absent;
           RunResult.validationNotes := Absent |}
  else
    try_catch
      (callProvider env runId prompt modelConfig apiKey expectedContains jsonSchema startTime)
      (recordFailure env runId modelConfig startTime).

(** *** runTest *)

(** The result for a selection whose key is not among the active keys of
    the user. *)
Definition keyNotFound (modelConfig : ModelConfig.t) : RunResult.t :=
  {| RunResult.id := "";
     RunResult.status := failed;
     RunResult.provider := ModelConfig.provider modelConfig;
     RunResult.model := ModelConfig.model modelConfig;
     RunResult.output := Absent;
     RunResult.errorMessage := Value "API key not found or inactive";
     RunResult.latencyMs := Absent;
     RunResult.inputTokens := Absent;
     RunResult.outputTokens := Absent;
     RunResult.estimatedCost := Absent;
     RunResult.passed := Absent;
     RunResult.validationNotes := Absent |}.

Definition keyMaterial (apiKey : Prisma.ApiKey.t) : KeyMaterial :=
  {| encryptedKey := Prisma.ApiKey.encryptedKey apiKey;
     iv := Prisma.ApiKey.iv apiKey;
     authTag := Prisma.ApiKey.authTag apiKey;
     baseUrl := Prisma.ApiKey.baseUrl apiKey |}.

(** The row [prisma.run.create] is asked for. *)
Definition newRun (userId : string) (testId : option string)
    (modelConfig : ModelConfig.t) (prompt : string) (inputVariables : JsObject)
    (batchId : option string) (batchIndex : option nat) (isDryRun : bool)
    (id : string) : Prisma.Run.t :=
  {| Prisma.Run.id := id; Prisma.Run.userId := userId;
     Prisma.Run.testId := testId;
     Prisma.Run.apiKeyId := ModelConfig.apiKeyId modelConfig;
     Prisma.Run.provider := ModelConfig.provider modelConfig;
     Prisma.Run.model := ModelConfig.model modelConfig;
     Prisma.Run.prompt := prompt;
     Prisma.Run.inputVariables := inputVariables;
     Prisma.Run.batchId := batchId;
     Prisma.Run.batchIndex := batchIndex;
     Prisma.Run.isDryRun := isDryRun;
     Prisma.Run.status := pending;
     Prisma.Run.output := None;
     Prisma.Run.errorMessage := None;
     Prisma.Run.latencyMs := None;
     Prisma.Run.inputTokens := None;
     Prisma.Run.outputTokens := None;
     Prisma.Run.totalTokens := None;
     Prisma.Run.tokensEstimated := None;
     Prisma.Run.estimatedCost := None;
     Prisma.Run.costEstimated := None;
     Prisma.Run.passed := None;
     Prisma.Run.validationNotes := None;
     Prisma.Run.completedAt := None |}.

(** The keys [findMany] gives for [where: { id: { in: apiKeyIds }, userId,
    isActive: true }], by id. *)
Definition activeKeys (apiKeyIds : list string) (userId : string)
    (keys : gmap string Prisma.ApiKey.t) : gmap string Prisma.ApiKey.t :=
  filter (fun kv => kv.1 ∈ apiKeyIds
                    /\ Prisma.ApiKey.userId kv.2 = userId
                    /\ Prisma.ApiKey.isActive kv.2 = true) keys.

Section Loop.

(** The locals of [runTest] that its loop reads. *)
Variable env : Env.
Variables (userId testId : string) (isDryRun : bool).
Variable test : Prisma.Test.t.
Variables (prompt : string) (mergedVariables : JsObject) (batchId : string).
Variable apiKeyMap : gmap string Prisma.ApiKey.t.

(** The re-check at the head of the loop body. *)
Definition recheck (results : list RunResult.t) : M unit :=
  if isDryRun then ret tt
  else
    check <- checkRateLimit env userId ;;
    if RateLimit.allowed check then ret tt
    else throw (Err Error
           ("Rate limit exceeded after " +:+ decimal (Z.of_nat (length results))
            +:+ " runs. Results so far have been saved.")).

(** One turn of the inner loop: the results and [batchIndex] it leaves. *)
Definition attempt (modelConfig : ModelConfig.t) (results : list RunResult.t)
    (batchIndex : nat) : M (list RunResult.t * nat) :=
  _ <- recheck results ;;
  match apiKeyMap !! ModelConfig.apiKeyId modelConfig with
  | None => ret (results ++ [keyNotFound modelConfig], batchIndex)
  | Some apiKey =>
      run <- run_create env
               (newRun userId (Some testId) modelConfig prompt mergedVariables
                  (Some batchId) (Some batchIndex) isDryRun) ;;
      result <- executeRun env (Prisma.Run.id run) prompt modelConfig
                  (keyMaterial apiKey) (Prisma.Test.expectedContains test)
                  (Prisma.Test.jsonSchema test) isDryRun ;;
      ret (results ++ [result], S batchIndex)
  end.

(** [for (const modelConfig of modelConfigs)]. *)
Fixpoint selections (modelConfigs : list ModelConfig.t) (results : list RunResult.t)
    (batchIndex : nat) : M (list RunResult.t * nat) :=
  match modelConfigs with
  | [] => ret (results, batchIndex)
  | modelConfig :: rest =>
      next <- attempt modelConfig results batchIndex ;;
      selections rest next.1 next.2
  end.

(** [for (let i = 0; i < batchCount; i++)], by the turns left. *)
Fixpoint repetitions (modelConfigs : list ModelConfig.t) (turns : nat)
    (results : list RunResult.t) (batchIndex : nat) : M (list RunResult.t * nat) :=
  match turns with
  | O => ret (results, batchIndex)
  | S turns' =>
      next <- selections modelConfigs results batchIndex ;;
      repetitions modelConfigs turns' next.1 next.2
  end.

End Loop.

(** What [runTest] has when it enters its loop. *)
Record Locals := {
  the_test : Prisma.Test.t;
  prompt : string;
  mergedVariables : JsObject;
  batchId : string;
  apiKeyMap : gmap string Prisma.ApiKey.t;
}.

(** [runTest] up to its loop: the admission check, the test, the prompt,
    the batch id and the keys. *)
Definition prepare (env : Env) (options : RunOptions) : M Locals :=
  let variables := default [] (variables options) in
  rateCheck <- checkRateLimit env (userId options) ;;
  if negb (RateLimit.allowed rateCheck) then
    throw (Err Error "Rate limit exceeded. Please wait a minute before running more tests.")
  else
    found <- (fun w => (Return (test w !! testId options), w)) ;;
    match found with
    | None => throw (Err Error "Test not found")
    | Some test =>
        if negb (String.eqb (Prisma.Test.userId test) (userId options)) then
          throw (Err Error "Test not found")
        else
          let testVariables := default [] (Prisma.Test.variables test) in
          let mergedVariables := spread (spread [] testVariables) variables in
          prompt <- lift (substituteVariables (Prisma.Test.basePrompt test) mergedVariables) ;;
          stamp <- now env ;;
          suffix <- math_random env ;;
          let batchId := "batch_" +:+ decimal (ms stamp) +:+ "_" +:+ suffix in
          let apiKeyIds := remove_dups (map ModelConfig.apiKeyId (modelConfigs options)) in
          apiKeys <- (fun w => (Return (activeKeys apiKeyIds (userId options) (apiKey w)), w)) ;;
          ret {| the_test := test; prompt := prompt; mergedVariables := mergedVariables;
                 batchId := batchId; apiKeyMap := apiKeys |}
    end.

(** The loop of [runTest] from what [prepare] left. *)
Definition loop (env : Env) (options : RunOptions) (l : Locals)
    : M (list RunResult.t * nat) :=
  repetitions env (userId options) (testId options)
    (default false (isDryRun options)) (the_test l) (prompt l)
    (mergedVariables l) (batchId l) (apiKeyMap l)
    (modelConfigs options) (default 1%nat (batchCount options)) [] O.

Definition runTest (env : Env) (options : RunOptions) : M (list RunResult.t) :=
  l <- prepare env options ;;
  done <- loop env options l ;;
  ret done.1.

(** *** runAdHocPrompt *)

Definition runAdHocPrompt (env : Env) (userId prompt : string)
    (modelConfig : ModelConfig.t) (isDryRun : bool) : M RunResult.t :=
  _ <- (if isDryRun then ret tt
        else
          rateCheck <- checkRateLimit env userId ;;
          if negb (RateLimit.allowed rateCheck) then
            throw (Err Error
              "Rate limit exceeded. Please wait a minute before running more tests.")
          else ret tt) ;;
  found <- (fun w =>
              (Return
                 (activeKeys [ModelConfig.apiKeyId modelConfig] userId (apiKey w)
                    !! ModelConfig.apiKeyId modelConfig), w)) ;;
  match found with
  | None => ret (keyNotFound modelConfig)
  | Some apiKey =>
      run <- run_create env
               (newRun userId None modelConfig prompt [] None None isDryRun) ;;
      executeRun env (Prisma.Run.id run) prompt modelConfig (keyMaterial apiKey)
        None None isDryRun
  end.

(** *** Words for the properties *)

(** The (repetition, selection) pairs in the order [runTest] takes them. *)
Definition pairs (options : RunOptions) : list ModelConfig.t :=
  concat (replicate (default 1%nat (batchCount options)) (modelConfigs options)).

(** What a dry run estimates for a selection: [ceil(len(prompt) / 4)] input
    tokens, no output tokens, and the cost of that input with 500 output
    tokens. *)
Definition dryEstimate (prompt : string) (modelConfig : ModelConfig.t)
    (r : RunResult.t) : Prop :=
  let inputTokens :=
    number (Qceiling (inject_Z (Z.of_nat (String.length prompt)) / 4)) in
  RunResult.status r = dry_run
  /\ RunResult.provider r = ModelConfig.provider modelConfig
  /\ RunResult.model r = ModelConfig.model modelConfig
  /\ RunResult.inputTokens r = Value inputTokens
  /\ RunResult.outputTokens r = Absent
  /\ exists priced,
       Pricing.calculateCost (ModelConfig.provider modelConfig)
         (ModelConfig.model modelConfig) inputTokens 500%float = Return priced
       /\ RunResult.estimatedCost r = Value (Pricing.cost priced).

(** What a dry run gives for a selection, by whether its key resolved. *)
Definition dryOutcome (l : Locals) (modelConfig : ModelConfig.t) (r : RunResult.t) : Prop :=
  match apiKeyMap l !! ModelConfig.apiKeyId modelConfig with
  | None => r = keyNotFound modelConfig
  | Some _ => dryEstimate (prompt l) modelConfig r
  end.

(** The two errors of the limiter, as [runTest] and [runAdHocPrompt] throw
    them. *)
Definition admission : Thrown :=
  Err Error "Rate limit exceeded. Please wait a minute before running more tests.".




(** The selections whose key is among the active keys of the user. *)
Definition resolved (keys : gmap string Prisma.ApiKey.t) (modelConfigs : list ModelConfig.t)
    : list ModelConfig.t :=
  filter (fun mc => is_Some (keys !! ModelConfig.apiKeyId mc)) modelConfigs.

End TestRunner.

(* ===================================================================== *)
(** ** src/app/actions: the server actions around the runner *)
(* ===================================================================== *)

Module RunState.
Record t := {
  error : option string;
  success : option bool;
  results : option (list RunResult.t);
}.
End RunState.

Module KeyState.
Record t := { error : option string; success : option bool }.
End KeyState.

(** The data of [executeTestRun] and of [executeAdHocRun], as their types
    have them before parsing. *)
Module RunTestData.
Record t := {
  testId : string;
  modelConfigs : list ModelConfig.t;
  variables : option JsObject;
  batchCount : option float;
  isDryRun : option bool;
}.
End RunTestData.

Module AdHocData.
Record t := {
  prompt : string;
  provider : string;
  model : string;
  apiKeyId : string;
  isDryRun : option bool;
}.
End AdHocData.

Module Actions.
Import Js RegExp Validation System TestRunner.

(** [requireAuth()] of src/lib/auth.ts.  [session] is the [userId] in the
    payload of the session cookie, when the request has a cookie whose
    token verifies. *)
Definition requireAuth (session : option string) : Outcome string :=
  match truthy session with
  | Some userId => Return userId
  | None => Throw (Err Error "Unauthorized")
  end.

(** *** zod *)

(** An issue a schema raises: its code, the field, and the message the
    schema gives it.  An issue without one gets its text from the error map
    of zod. *)
Inductive ZodIssueCode := invalid_type | too_small | too_big.

Record ZodIssue := {
  code : ZodIssueCode;
  path : string;
  custom : option string;
}.

Abbreviation ErrorMap := (ZodIssueCode -> string -> string).

(** [error.errors[i].message]. *)
Definition message (errorMap : ErrorMap) (issue : ZodIssue) : string :=
  match custom issue with
  | Some text => text
  | None => errorMap (code issue) (path issue)
  end.

(** *** runs.ts *)

(** The issues of [runTestSchema], in the order of its fields. *)
Definition runTestSchema (data : RunTestData.t) : list ZodIssue :=
  (if (String.length (RunTestData.testId data) <? 1)%nat
   then [ {| code := too_small; path := "testId"; custom := None |} ] else [])
  ++ (if (length (RunTestData.modelConfigs data) <? 1)%nat
      then [ {| code := too_small; path := "modelConfigs";
                custom := Some "Select at least one model" |} ]
      else [])
  ++ match RunTestData.batchCount data with
     | None => []
     | Some n =>
         if PrimFloat.is_nan n
         then [ {| code := invalid_type; path := "batchCount"; custom := None |} ]
         else
           (if (n <? 1)%float
            then [ {| code := too_small; path := "batchCount"; custom := None |} ] else [])
           ++ (if (10 <? n)%float
               then [ {| code := too_big; path := "batchCount"; custom := None |} ] else [])
     end.

Definition runAdHocSchema (data : AdHocData.t) : list ZodIssue :=
  if (String.length (AdHocData.prompt data) <? 1)%nat
  then [ {| code := too_small; path := "prompt"; custom := Some "Prompt is required" |} ]
  else [].

(** How often [for (let i = 0; i < batchCount; i++)] turns, for a
    [batchCount] of at most 10. *)
Definition turns (batchCount : float) : nat :=
  length (filter (fun i => (number (Z.of_nat i) <? batchCount)%float) (seq 0 10)).

(** What [runTest] is called with. *)
Definition validated (data : RunTestData.t) (userId : string) : RunOptions :=
  {| testId := RunTestData.testId data;
     modelConfigs := RunTestData.modelConfigs data;
     variables := RunTestData.variables data;
     batchCount := Some (turns (default 1%float (RunTestData.batchCount data)));
     isDryRun := Some (default false (RunTestData.isDryRun data));
     userId := userId |}.

(** The [catch] of an action, past the test for a [ZodError]. *)
Definition caught (fallback : string) (e : Thrown) : RunState.t :=
  match e with
  | Err _ text =>
      if String.eqb text "Unauthorized"
      then {| RunState.error := Some "Please log in to continue";
              RunState.success := None; RunState.results := None |}
      else {| RunState.error := Some text;
              RunState.success := None; RunState.results := None |}
  | NonError =>
      {| RunState.error := Some fallback;
         RunState.success := None; RunState.results := None |}
  end.

(** [executeTestRun(data)]. *)
Definition executeTestRun (errorMap : ErrorMap) (env : Env) (session : option string)
    (data : RunTestData.t) : M RunState.t :=
  fun w =>
    match requireAuth session with
    | Return userId =>
        match runTestSchema data with
        | issue :: _ =>
            (Return {| RunState.error := Some (message errorMap issue);
                       RunState.success := None; RunState.results := None |}, w)
        | [] =>
            match runTest env (validated data userId) w with
            | (Return results, w') =>
                (Return {| RunState.error := None; RunState.success := Some true;
                           RunState.results := Some results |}, w')
            | (Throw e, w') => (Return (caught "Failed to run test" e), w')
            | (Unmodelled, w') => (Unmodelled, w')
            end
        end
    | Throw e => (Return (caught "Failed to run test" e), w)
    | Unmodelled => (Unmodelled, w)
    end.

(** [executeAdHocRun(data)]. *)
Definition executeAdHocRun (errorMap : ErrorMap) (env : Env) (session : option string)
    (data : AdHocData.t) : M RunState.t :=
  fun w =>
    match requireAuth session with
    | Return userId =>
        match runAdHocSchema data with
        | issue :: _ =>
            (Return {| RunState.error := Some (message errorMap issue);
                       RunState.success := None; RunState.results := None |}, w)
        | [] =>
            match runAdHocPrompt env userId (AdHocData.prompt data)
                    {| ModelConfig.provider := AdHocData.provider data;
                       ModelConfig.model := AdHocData.model data;
                       ModelConfig.apiKeyId := AdHocData.apiKeyId data |}
                    (default false (AdHocData.isDryRun data)) w with
            | (Return result, w') =>
                (Return {| RunState.error := None; RunState.success := Some true;
                           RunState.results := Some [result] |}, w')
            | (Throw e, w') => (Return (caught "Failed to run prompt" e), w')
            | (Unmodelled, w') => (Unmodelled, w')
            end
        end
    | Throw e => (Return (caught "Failed to run prompt" e), w)
    | Unmodelled => (Unmodelled, w)
    end.

(** The loop of [getRunsForComparison] over the rows [findMany] gave, newest
    first: [grouped] by the order in which its keys were added.  A key holds
    a [/], so it is no array index; it is none of the names an object
    inherits either, which is what [!grouped[key]] relies on. *)
Definition comparisonKey (run : Prisma.Run.t) : string :=
  Prisma.Run.provider run +:+ "/" +:+ Prisma.Run.model run.

Abbreviation Grouped := (list (string * list Prisma.Run.t)).

(** [grouped[key].push(run)]. *)
Fixpoint push (key : string) (run : Prisma.Run.t) (grouped : Grouped) : Grouped :=
  match grouped with
  | [] => []
  | (key', runs) :: grouped' =>
      if String.eqb key' key then (key', runs ++ [run]) :: grouped'
      else (key', runs) :: push key run grouped'
  end.

Fixpoint group (runsPerModel : Z) (runs : list Prisma.Run.t) (grouped : Grouped)
    : Outcome Grouped :=
  match runs with
  | [] => Return grouped
  | run :: rest =>
      let key := comparisonKey run in
      match get grouped key with
      | Inherited => Unmodelled
      | Undefined =>
          let grouped := grouped ++ [(key, [])] in
          group runsPerModel rest
            (if 0 <? runsPerModel then push key run grouped else grouped)
      | Own found =>
          group runsPerModel rest
            (if Z.of_nat (length found) <? runsPerModel then push key run grouped
             else grouped)
      end
  end.

(** What the groups hold after the rows [seen]: under each key met, the
    first [n] of its rows. *)
Definition grouped_by (n : nat) (seen : list Prisma.Run.t) (grouped : Grouped) : Prop :=
  NoDup (map fst grouped)
  /\ forall key,
       own grouped key
       = if bool_decide (key ∈ map comparisonKey seen)
         then Some (take n (filter (fun run => comparisonKey run = key) seen))
         else None.

Definition getRunsForComparison (runs : list Prisma.Run.t) (runsPerModel : option Z)
    : Outcome Grouped :=
  group (default 5 runsPerModel) runs [].

(** *** keys.ts *)

(** [toggleApiKeyActive(keyId)]. *)
Definition toggleApiKeyActive (session : option string) (keyId : string) : M KeyState.t :=
  fun w =>
    match requireAuth session with
    | Return userId =>
        match apiKey w !! keyId with
        | Some found =>
            if String.eqb (Prisma.ApiKey.userId found) userId then
              let toggled :=
                {| Prisma.ApiKey.userId := Prisma.ApiKey.userId found;
                   Prisma.ApiKey.isActive := negb (Prisma.ApiKey.isActive found);
                   Prisma.ApiKey.encryptedKey := Prisma.ApiKey.encryptedKey found;
                   Prisma.ApiKey.iv := Prisma.ApiKey.iv found;
                   Prisma.ApiKey.authTag := Prisma.ApiKey.authTag found;
                   Prisma.ApiKey.baseUrl := Prisma.ApiKey.baseUrl found |} in
              (Return {| KeyState.error := None; KeyState.success := Some true |},
               {| rateLimit := rateLimit w; System.test := System.test w;
                  System.apiKey := <[keyId := toggled]> (apiKey w);
                  run := run w; statusLog := statusLog w; adapterLog := adapterLog w;
                  clockReads := clockReads w; upserts := upserts w;
                  randoms := randoms w |})
            else
              (Return {| KeyState.error := Some "API key not found";
                         KeyState.success := None |}, w)
        | None =>
            (Return {| KeyState.error := Some "API key not found";
                       KeyState.success := None |}, w)
        end
    | Throw (Err _ text) =>
        (Return {| KeyState.error :=
                     Some (if String.eqb text "Unauthorized"
                           then "Please log in to continue"
                           else "Failed to update API key");
                   KeyState.success := None |}, w)
    | Throw NonError =>
        (Return {| KeyState.error := Some "Failed to update API key";
                   KeyState.success := None |}, w)
    | Unmodelled => (Unmodelled, w)
    end.

End Actions.

(* ===================================================================== *)
(** ** A small installation to run the model on *)
(* ===================================================================== *)

Module Demo.
Import Js Providers Validation System TestRunner.

Definition key : string :=
  "000102030405060708090a0b0c0d0e0f101112131415161718191a1b1c1d1e1f".

(** A clock that stays within one minute, a store that works, adapters
    that answer, and the toy cipher. *)
Definition env : Env :=
  {| clock := fun n =>
       {| ms := 1767614407503 + 100 * Z.of_nat n; iso := "2026-01-05T12:00:07.503Z" |};
     storage := fun _ => true;
     cuid := fun n => "run" +:+ decimal (Z.of_nat n);
     random := fun _ => "k3x9qa";
     complete := fun _ _ _ =>
       Resolved {| output := "hello"; inputTokens := Some 12%float;
                   outputTokens := None; totalTokens := None;
                   tokensEstimated := false |};
     validateJsonSchema := fun _ _ =>
       {| passed := true; notes := "Output matches JSON schema" |};
     APP_ENCRYPTION_KEY := Some key;
     gctr := Encryption.toy_gctr;
     gtag := Encryption.toy_gtag |}.

(** An active key of user u1, holding the encryption of sk-live-4fA9, and
    a key the user has switched off. *)
Definition k1 : Prisma.ApiKey.t :=
  {| Prisma.ApiKey.userId := "u1"; Prisma.ApiKey.isActive := true;
     Prisma.ApiKey.encryptedKey := "394166342d6576696c2d6b73";
     Prisma.ApiKey.iv := "a0a1a2a3a4a5a6a7a8a9aaab";
     Prisma.ApiKey.authTag := "394166342d6576696c2d6b7300000000";
     Prisma.ApiKey.baseUrl := None |}.

Definition k2 : Prisma.ApiKey.t :=
  {| Prisma.ApiKey.userId := "u1"; Prisma.ApiKey.isActive := false;
     Prisma.ApiKey.encryptedKey := "394166342d6576696c2d6b73";
     Prisma.ApiKey.iv := "a0a1a2a3a4a5a6a7a8a9aaab";
     Prisma.ApiKey.authTag := "394166342d6576696c2d6b7300000000";
     Prisma.ApiKey.baseUrl := None |}.

Definition t1 : Prisma.Test.t :=
  {| Prisma.Test.userId := "u1";
     Prisma.Test.basePrompt := "Say {{ word }} to {{who}}";
     Prisma.Test.variables := Some [("word", "hi"); ("who", "Bob")];
     Prisma.Test.expectedContains := Some "hello";
     Prisma.Test.jsonSchema := None |}.

(** The store when user u1 has made [used] calls in the minute. *)
Definition world (used : Z) : World :=
  {| rateLimit :=
       if (used =? 0)%Z then ∅ else {[ ("u1", "2026-01-05T12:00") := used ]};
     test := {[ "t1" := t1 ]};
     apiKey := {[ "k1" := k1; "k2" := k2 ]};
     run := []; statusLog := []; adapterLog := [];
     clockReads := 0; upserts := 0; randoms := 0 |}.

Definition openai : ModelConfig.t :=
  {| ModelConfig.provider := "openai"; ModelConfig.model := "gpt-4o";
     ModelConfig.apiKeyId := "k1" |}.

Definition anthropic : ModelConfig.t :=
  {| ModelConfig.provider := "anthropic"; ModelConfig.model := "claude-3-opus-20240229";
     ModelConfig.apiKeyId := "k2" |}.

Definition google : ModelConfig.t :=
  {| ModelConfig.provider := "google"; ModelConfig.model := "gemini-1.5-pro";
     ModelConfig.apiKeyId := "k1" |}.

(** Three selections, the second on the key that is switched off. *)
Definition options (isDryRun : bool) : RunOptions :=
  {| testId := "t1";
     modelConfigs := [openai; anthropic; google];
     variables := Some [("who", "Alice")];
     batchCount := None;
     isDryRun := Some isDryRun;
     userId := "u1" |}.

(** A call of the limiter that reaches the store. *)
Definition check (nowISO userId : string) : RateLimit.Call :=
  {| RateLimit.nowISO := nowISO; RateLimit.storageOk := true;
     RateLimit.userId := userId |}.

End Demo.

(* ===================================================================== *)
(** * Properties *)
(* ===================================================================== *)

Module RateLimitFacts.
Import RateLimit.

Lemma upsert_count (u w : string) (t : Table) :
  (upsert u w t).1 = count_of t u w + 1.
Proof.
  unfold upsert, count_of. destruct (t !! (u, w)); simpl; lia.
Qed.

Lemma upsert_table (u w : string) (t : Table) :
  (upsert u w t).2 = <[(u, w) := count_of t u w + 1]> t.
Proof.
  unfold upsert, count_of. destruct (t !! (u, w)); simpl; f_equal; lia.
Qed.

Lemma call_count_of (c : Call) (t : Table) (u w : string) :
  count_of (call c t).2 u w =
  count_of t u w + (if counts u w c then 1 else 0).
Proof.
  unfold call, checkRateLimit, counts.
  destruct (storageOk c); simpl; [|lia].
  pose proof (upsert_table (userId c) (windowKey (nowISO c)) t) as Ht.
  destruct (upsert _ _ t) as [n t']; simpl in *; subst t'.
  unfold count_of at 1.
  destruct (decide ((userId c, windowKey (nowISO c)) = (u, w))) as [E|N].
  - injection E as Eu Ew. rewrite Eu, Ew, lookup_insert_eq.
    rewrite !bool_decide_eq_true_2 by done. simpl. lia.
  - rewrite lookup_insert_ne by done. fold (count_of t u w).
    repeat case_bool_decide; simpl; try lia. congruence.
Qed.

Lemma calls_count_of (cs : list Call) (t : Table) (u w : string) :
  count_of (calls cs t) u w = count_of t u w + hits u w cs.
Proof.
  revert t. induction cs as [|c cs IH]; intros t; simpl.
  - lia.
  - rewrite IH, call_count_of. lia.
Qed.

(** What one call answers, from the counter it meets. *)
Lemma call_result (c : Call) (t : Table) :
  (call c t).1 =
  if storageOk c then
    let k := count_of t (userId c) (windowKey (nowISO c)) + 1 in
    {| allowed := k <=? 10; remaining := Z.max 0 (10 - k) |}
  else {| allowed := true; remaining := 10 |}.
Proof.
  unfold call, checkRateLimit. destruct (storageOk c); [|reflexivity].
  pose proof (upsert_count (userId c) (windowKey (nowISO c)) t) as Hc.
  destruct (upsert _ _ t) as [n t']; simpl in *; subst n. reflexivity.
Qed.

(** After [before], a call that reaches the store is the
    [hits + 1]-th of its window. *)
Lemma call_after (t : Table) (before : list Call) (c : Call) :
  storageOk c = true ->
  (call c (calls before t)).1 =
  let k := count_of t (userId c) (windowKey (nowISO c))
           + hits (userId c) (windowKey (nowISO c)) before + 1 in
  {| allowed := k <=? 10; remaining := Z.max 0 (10 - k) |}.
Proof.
  intros Hok. rewrite call_result, Hok, calls_count_of. reflexivity.
Qed.



End RateLimitFacts.

Module PricingFacts.
Import Js Pricing.
Local Open Scope float_scope.

Example cost_gpt4o :
  calculateCost "openai" "gpt-4o" 1000 500
  = Return {| cost := 0.0074999999999999997; isEstimated := false |}.
Proof. reflexivity. Qed.

(** The flat rate is $10 per million tokens. *)
Lemma flat_rate (i o : float) : flat i o = (i + o) * (10 / 1000000).
Proof. reflexivity. Qed.

(** The ladder on names that are not inherited from [Object.prototype]:
    a known entry is priced exactly; an unknown model of a known provider is
    priced as the provider's default model and flagged; an unknown provider
    is priced flat and flagged. *)
Lemma calculateCost_known (provider model : string) (cfg : ProviderConfig)
    (p : ModelPricing) (i o : float) :
  own PROVIDER_CONFIGS provider = Some cfg ->
  own (models cfg) model = Some p ->
  calculateCost provider model i o
  = Return {| cost := (i / 1000000) * inputPer1M p + (o / 1000000) * outputPer1M p;
              isEstimated := false |}.
Proof.
  intros Hc Hm. unfold calculateCost, get. rewrite Hc, Hm. reflexivity.
Qed.

Lemma default_model_priced (provider : string) (cfg : ProviderConfig) :
  own PROVIDER_CONFIGS provider = Some cfg ->
  exists d, own (models cfg) (defaultModel cfg) = Some d.
Proof.
  unfold PROVIDER_CONFIGS. cbn [own].
  repeat (destruct (String.eqb _ provider);
          [intros [= <-]; eexists; reflexivity|]).
  discriminate.
Qed.

Lemma calculateCost_unknown_model (provider model : string)
    (cfg : ProviderConfig) (i o : float) :
  own PROVIDER_CONFIGS provider = Some cfg ->
  own (models cfg) model = None ->
  inherited model = false ->
  exists d, own (models cfg) (defaultModel cfg) = Some d /\
    calculateCost provider model i o
    = Return {| cost := (i / 1000000) * inputPer1M d + (o / 1000000) * outputPer1M d;
                isEstimated := true |}.
Proof.
  intros Hc Hm Hi. destruct (default_model_priced provider cfg Hc) as [d Hd].
  exists d. split; [exact Hd|].
  unfold calculateCost, get. rewrite Hc, Hm, Hi, Hd. reflexivity.
Qed.

Lemma calculateCost_unknown_provider (provider model : string) (i o : float) :
  own PROVIDER_CONFIGS provider = None ->
  inherited provider = false ->
  calculateCost provider model i o
  = Return {| cost := (i + o) * (10 / 1000000); isEstimated := true |}.
Proof.
  intros Hc Hi. unfold calculateCost, get. rewrite Hc, Hi. reflexivity.
Qed.

(** C4, at the input on which it fails.  [calculateCost] is not total: the
    provider name [constructor] is no entry of the price table, yet
    [PROVIDER_CONFIGS["constructor"]] is the inherited [Object] function, so
    the unknown-provider branch is skipped and reading a model of its
    [undefined] [.models] throws a [TypeError]. *)
Theorem calculateCost_constructor_throws :
  own PROVIDER_CONFIGS "constructor" = None /\
  calculateCost "constructor" "gpt-4o" 1000 500
  = Throw (Err TypeError "Cannot read properties of undefined (reading 'gpt-4o')").
Proof. split; reflexivity. Qed.

(** The same slip one level down: a model name that the [models] object
    inherits counts as a known entry and is priced [NaN], unflagged. *)
Example calculateCost_toString_nan :
  own PROVIDER_CONFIGS "openai" <> None /\
  calculateCost "openai" "toString" 1000 500
  = Return {| cost := nan; isEstimated := false |}.
Proof. split; [discriminate|reflexivity]. Qed.

(** Every inherited provider name throws, whatever the model and counts. *)
Lemma calculateCost_inherited_provider (provider model : string) (i o : float) :
  inherited provider = true ->
  exists e, calculateCost provider model i o = Throw e.
Proof.
  intros Hi. unfold calculateCost, get.
  assert (own PROVIDER_CONFIGS provider = None) as ->.
  { unfold PROVIDER_CONFIGS. cbn [own].
    repeat match goal with
    | |- context [String.eqb ?a provider] =>
        destruct (String.eqb_spec a provider) as [<-|_];
          [vm_compute in Hi; discriminate Hi|]
    end. reflexivity. }
  rewrite Hi. eexists. reflexivity.
Qed.

End PricingFacts.

Module RegExpFacts.
Import Js RegExp Encryption.
Local Arguments Ascii.eqb : simpl never.
Local Arguments String.eqb : simpl never.

Lemma chars_text (l : list ascii) : chars (text l) = l.
Proof. apply list_ascii_of_string_of_list_ascii. Qed.

Lemma text_chars (s : string) : text (chars s) = s.
Proof. apply string_of_list_ascii_of_string. Qed.

Lemma length_chars (s : string) : length (chars s) = String.length s.
Proof. induction s; simpl; congruence. Qed.


Lemma starts_with_app (p s : list ascii) :
  starts_with p s = true <-> exists rest, s = p ++ rest.
Proof.
  revert s. induction p as [|c p IH]; intros s; simpl.
  - split; [eauto|done].
  - destruct s as [|d s]; [split; [done|intros [r Hr]; discriminate]|].
    rewrite andb_true_iff, Ascii.eqb_eq, IH. split.
    + intros [-> [r ->]]. eauto.
    + intros [r [= -> ->]]. eauto.
Qed.

Lemma exec_literal (p s : list ascii) :
  exec (literal p) s = if starts_with p s then Some (drop (length p) s) else None.
Proof.
  revert s. induction p as [|c p IH]; intros s; simpl.
  - by rewrite drop_0.
  - destruct s as [|d s]; [done|]. simpl.
    destruct (Ascii.eqb c d); simpl; [apply IH|done].
Qed.

Lemma includes_from_spec (s p : list ascii) :
  includes_from s p = true <-> exists a b, s = a ++ p ++ b.
Proof.
  induction s as [|c s IH]; simpl.
  - rewrite orb_false_r, starts_with_app. split.
    + intros [r Hr]. exists [], r. done.
    + intros (a & b & H). symmetry in H.
      apply app_eq_nil in H as [-> H]. eauto.
  - rewrite orb_true_iff, starts_with_app, IH. split.
    + intros [[r Hr]|(a & b & ->)].
      * exists [], r. done.
      * exists (c :: a), b. done.
    + intros (a & b & H). destruct a as [|d a]; simpl in H.
      * left. eauto.
      * right. injection H as -> ->. eauto.
Qed.

(** A replacement without [$] stands for itself. *)
Lemma expand_plain (r b m a : list ascii) :
  mem "$" r = false -> expand r b m a = r.
Proof.
  induction r as [|c r IH]; simpl; [done|].
  rewrite orb_false_iff. intros [Hc Hr].
  rewrite Ascii.eqb_sym, Hc. f_equal. auto.
Qed.

Lemma replace_from_seen (p : Pattern) (r : list ascii) :
  mem "$" r = false ->
  forall s seen seen' k,
    replace_from p r seen k s = replace_from p r seen' k s.
Proof.
  intros Hr. induction s as [|c s IH]; intros seen seen' k.
  - destruct k; simpl; [|done]. destruct (exec p []); [|done].
    by rewrite !expand_plain.
  - destruct k; simpl; [|apply IH].
    destruct (exec p (c :: s)) as [after|].
    + rewrite !expand_plain by done.
      destruct (_ - _)%nat; f_equal; [f_equal|]; apply IH.
    + f_equal. apply IH.
Qed.

Lemma replace_from_skip (p : Pattern) (r : list ascii) :
  forall k s seen, (k <= length s)%nat ->
    exists seen', replace_from p r seen k s = replace_from p r seen' O (drop k s).
Proof.
  induction k as [|k IH]; intros s seen Hk.
  - exists seen. by rewrite drop_0.
  - destruct s as [|c s]; simpl in Hk; [lia|].
    simpl. apply IH. lia.
Qed.

(** Replacing by a [$]-free text with a pattern that spells [p]: the scan
    either meets [p] and goes on after it, or copies one character. *)
Section Literal.
Variables (p r : list ascii).
Hypothesis p_nonempty : p <> [].
Hypothesis r_plain : mem "$" r = false.


Lemma scan_nil : scan p r [] = [].
Proof.
  unfold scan. simpl. rewrite exec_literal.
  destruct p; [done|]. done.
Qed.

Lemma scan_hit (rest : list ascii) : scan p r (p ++ rest) = r ++ scan p r rest.
Proof.
  unfold scan.
  assert (Hst : starts_with p (p ++ rest) = true) by (apply starts_with_app; eauto).
  assert (Hdrop : drop (length p) (p ++ rest) = rest) by apply drop_app_length.
  assert (Hp : (0 < length p)%nat) by (destruct p; [done|simpl; lia]).
  assert (Hlen : length (p ++ rest) = (length p + length rest)%nat) by apply length_app.
  destruct (p ++ rest) as [|c s'] eqn:Es; [simpl in Hlen; lia|].
  cbn [replace_from]. rewrite exec_literal, Hst, Hdrop. cbv zeta.
  simpl in Hlen.
  replace (length (c :: s') - length rest)%nat with (S (length p - 1)) by (simpl; lia).
  rewrite expand_plain by done. f_equal.
  destruct (replace_from_skip (literal p) r (length p - 1) s' [c]) as [seen' ->]; [lia|].
  replace (drop (length p - 1) s') with rest.
  - apply replace_from_seen. done.
  - rewrite <- Hdrop. replace (length p) with (S (length p - 1)) at 1 by lia. done.
Qed.

Lemma scan_miss (c : ascii) (s : list ascii) :
  starts_with p (c :: s) = false -> scan p r (c :: s) = c :: scan p r s.
Proof.
  intros Hst. unfold scan. cbn [replace_from]. rewrite exec_literal, Hst.
  f_equal. apply replace_from_seen. done.
Qed.

End Literal.

Lemma mem_true (c : ascii) (l : list ascii) : mem c l = true <-> c ∈ l.
Proof.
  unfold mem. rewrite existsb_exists. setoid_rewrite Ascii.eqb_eq.
  setoid_rewrite <- list_elem_of_In. split; [intros (x & Hx & ->)|]; eauto.
Qed.

Lemma mem_false_lookup (c : ascii) (l : list ascii) (i : nat) :
  mem c l = false -> l !! i <> Some c.
Proof.
  intros Hm Hl. apply list_elem_of_lookup_2, mem_true in Hl. congruence.
Qed.



(** What the output starts with, up to its first bracket, the input starts
    with too. *)
Lemma redacted_prefix (p q s : list ascii) :
  p <> [] ->
  mem "[" q = false ->
  starts_with q (redacted p s) = true -> starts_with q s = true.
Proof.
  intros Hne. revert s. induction q as [|d q IH]; intros s Hq Hs; [done|].
  simpl in Hq. apply orb_false_iff in Hq as [Hd Hq].
  destruct s as [|c s].
  { unfold redacted in Hs. rewrite scan_nil in Hs by done. done. }
  destruct (starts_with p (c :: s)) eqn:Hp.
  - apply starts_with_app in Hp as [rest Hrest].
    unfold redacted in Hs. rewrite Hrest, scan_hit in Hs by done.
    simpl in Hs. rewrite andb_true_iff in Hs. destruct Hs as [Hs _].
    apply Ascii.eqb_eq in Hs. subst d. rewrite Ascii.eqb_refl in Hd. done.
  - unfold redacted in Hs. rewrite scan_miss in Hs by done.
    simpl in Hs. simpl. rewrite andb_true_iff in Hs |- *.
    destruct Hs as [Hc Hs]. split; [done|]. apply IH; done.
Qed.

(** A secret of eight characters or more, without brackets and other than
    the word of the marker, does not overlap a marker. *)
Lemma marker_clear (p x a b : list ascii) :
  (8 <= length p)%nat ->
  mem "[" p = false ->
  mem "]" p = false ->
  p <> chars "REDACTED" ->
  marker ++ x = a ++ p ++ b -> (length a < 10)%nat -> False.
Proof.
  intros Hlong Hopen Hclose Hword E Ha.
  destruct a as [|a0 a].
  { destruct p as [|c p']; [simpl in Hlong; lia|]. injection E as <- _.
    simpl in Hopen. done. }
  destruct (decide (10 <= length (a0 :: a) + length p)%nat) as [Hcover|Hshort].
  - assert (Hl : (marker ++ x) !! 9%nat = Some "]"%char) by done.
    rewrite E, lookup_app_r in Hl by lia.
    rewrite lookup_app_l in Hl by lia.
    by apply mem_false_lookup in Hl.
  - assert (Ha1 : length a = 0%nat) by (simpl in *; lia).
    assert (Hp8 : length p = 8%nat) by (simpl in *; lia).
    destruct a; [|done].
    apply Hword.
    assert (Hp : take 8 (drop 1 (marker ++ x)) = p).
    { rewrite E. simpl. rewrite <- Hp8. apply take_app_length. }
    rewrite <- Hp. done.
Qed.

Lemma redacted_clear (p s : list ascii) :
  (8 <= length p)%nat ->
  mem "[" p = false ->
  mem "]" p = false ->
  p <> chars "REDACTED" ->
  includes_from (redacted p s) p = false.
Proof.
  intros Hlong Hopen Hclose Hword.
  assert (Hne : p <> []) by (intros ->; simpl in Hlong; lia).
  remember (length s) as n eqn:Hn. revert s Hn.
  induction n as [n IH] using lt_wf_ind. intros s Hn.
  apply not_true_is_false. intros Hin.
  apply includes_from_spec in Hin as (a & b & E).
  destruct s as [|c s].
  { unfold redacted in E. rewrite scan_nil in E by done.
    symmetry in E. apply app_eq_nil in E as [_ E].
    apply app_eq_nil in E as [E _]. done. }
  destruct (starts_with p (c :: s)) eqn:Hp.
  - apply starts_with_app in Hp as [rest Hrest].
    unfold redacted in E. rewrite Hrest, scan_hit in E by done.
    destruct (decide (length a < 10)%nat) as [Hlt|Hge].
    { exact (marker_clear p _ _ _ Hlong Hopen Hclose Hword E Hlt). }
    assert (Hrestlt : (length rest < n)%nat).
    { rewrite Hn, Hrest, length_app. lia. }
    assert (Hinc : includes_from (redacted p rest) p = true).
    { apply includes_from_spec. exists (drop 10 a), b.
      apply (f_equal (drop 10)) in E.
      rewrite drop_app_length' in E by done.
      rewrite drop_app_le in E by lia. done. }
    rewrite (IH _ Hrestlt rest eq_refl) in Hinc. done.
  - unfold redacted in E. rewrite scan_miss in E by done.
    destruct a as [|a0 a].
    + simpl in E.
      destruct p as [|c' p']; [done|].
      injection E as <- E.
      assert (Hs : starts_with p' s = true).
      { apply (redacted_prefix (c :: p')); [done| |].
        - simpl in Hopen. apply orb_false_iff in Hopen as [_ H]. done.
        - unfold redacted. rewrite E. apply starts_with_app. eauto. }
      simpl in Hp. rewrite Ascii.eqb_refl, Hs in Hp. done.
    + injection E as _ E.
      assert (Hinc : includes_from (redacted p s) p = true).
      { apply includes_from_spec. eauto. }
      rewrite (IH (length s)) in Hinc; [done|simpl in Hn; lia|done].
Qed.


Lemma special_class (c : ascii) :
  accepts (Class (chars ".*+?^${}()|[]\")) c = SyntaxCharacter c.
Proof. destruct c as [[] [] [] [] [] [] [] []]; reflexivity. Qed.

Lemma escape_spec (s seen : list ascii) :
  replace_from [One (Class (chars ".*+?^${}()|[]\"))] (chars "\$&") seen O s
  = escape_chars s.
Proof.
  revert seen. induction s as [|c s IH]; intros seen; [done|].
  cbn [replace_from exec escape_chars flat_map]. rewrite special_class.
  destruct (SyntaxCharacter c).
  - replace (length (c :: s) - length s)%nat with 1%nat by (simpl; lia).
    cbn [take]. rewrite take_0.
    change (expand (chars "\$&") (rev seen) [c] s) with ("\"%char :: [c] ++ []).
    simpl. f_equal. f_equal. apply IH.
  - simpl. f_equal. apply IH.
Qed.

Lemma syntax_not_s (c : ascii) : SyntaxCharacter c = true -> Ascii.eqb c "s" = false.
Proof. destruct c as [[] [] [] [] [] [] [] []]; done. Qed.

Lemma plain_not_special (c : ascii) :
  SyntaxCharacter c = false ->
  Ascii.eqb c "\" = false /\ Ascii.eqb c "." = false /\ Ascii.eqb c "*" = false.
Proof. destruct c as [[] [] [] [] [] [] [] []]; done. Qed.

Lemma escape_head (l : list ascii) :
  match escape_chars l with
  | q :: _ => Ascii.eqb q "*" = false
  | [] => True
  end.
Proof.
  destruct l as [|c l]; [done|]. cbn [escape_chars flat_map].
  destruct (SyntaxCharacter c) eqn:Hc; simpl; [done|].
  apply plain_not_special in Hc. tauto.
Qed.

Lemma parse_escaped (l : list ascii) : parse (escape_chars l) = Some (literal l).
Proof.
  induction l as [|c l IH]; [done|].
  cbn [escape_chars flat_map]. fold (escape_chars l).
  pose proof (escape_head l) as Hh.
  destruct (SyntaxCharacter c) eqn:Hc.
  - cbn [app parse]. change (Ascii.eqb "\" "\") with true. cbv iota.
    unfold escaped_atom. rewrite (syntax_not_s c Hc), Hc.
    destruct (escape_chars l) as [|q rest] eqn:Er.
    + rewrite IH. done.
    + rewrite Hh, IH. done.
  - cbn [app parse]. destruct (plain_not_special c Hc) as (Hb & Hd & _).
    rewrite Hb. unfold plain_atom. rewrite Hd, Hc.
    destruct (escape_chars l) as [|q rest] eqn:Er.
    + rewrite IH. done.
    + rewrite Hh, IH. done.
Qed.

Lemma includes_single (c : ascii) (s : list ascii) : includes_from s [c] = mem c s.
Proof.
  induction s as [|d s IH]; [done|].
  simpl. rewrite IH, andb_true_r. done.
Qed.

End RegExpFacts.

Module EncryptionFacts.
Import Js RegExp Encryption RegExpFacts.
Local Arguments Ascii.eqb : simpl never.
Local Arguments String.eqb : simpl never.

Lemma redactApiKey_long (text apiKey : string) :
  (8 <= String.length apiKey)%nat ->
  redactApiKey text apiKey
  = Return (RegExp.text (redacted (chars apiKey) (chars text))).
Proof.
  intros Hlong. unfold redactApiKey.
  destruct (String.eqb_spec apiKey "") as [->|_]; [simpl in Hlong; lia|].
  rewrite (proj2 (Nat.ltb_ge _ _) Hlong). cbn [orb].
  unfold RegExp, replace at 1, special. rewrite escape_spec, chars_text, parse_escaped.
  reflexivity.
Qed.

Lemma includes_char (s : string) (c : ascii) :
  includes s (String c EmptyString) = mem c (chars s).
Proof. apply includes_single. Qed.

(** C5, as the code has it.  A secret shorter than 8 characters leaves the
    text unchanged.  For a secret of 8 characters or more that contains
    neither [[] nor []] and is not the word REDACTED, [redactApiKey] returns
    a text with no occurrence of the secret. *)
Theorem redactApiKey_removes_secret (text apiKey : string) :
  ((String.length apiKey < 8)%nat -> redactApiKey text apiKey = Return text)
  /\ ((8 <= String.length apiKey)%nat ->
      includes apiKey "[" = false ->
      includes apiKey "]" = false ->
      apiKey <> "REDACTED" ->
      exists out, redactApiKey text apiKey = Return out
                  /\ includes out apiKey = false).
Proof.
  split.
  - intros Hshort. unfold redactApiKey.
    rewrite (proj2 (Nat.ltb_lt _ _) Hshort), orb_true_r. reflexivity.
  - intros Hlong Hopen Hclose Hword.
    rewrite redactApiKey_long by done. eexists. split; [reflexivity|].
    unfold includes. rewrite chars_text.
    rewrite includes_char in Hopen, Hclose.
    apply redacted_clear; try done.
    + by rewrite length_chars.
    + intros E. apply Hword. rewrite <- (text_chars apiKey), E. reflexivity.
Qed.

Lemma redactApiKey_removes_secret_witness :
  redactApiKey "401: bad key sk-live-4fA9" "ab12" = Return "401: bad key sk-live-4fA9"
  /\ exists out, redactApiKey "401: bad key sk-live-4fA9 (sk-live-4fA9)" "sk-live-4fA9"
                 = Return out /\ includes out "sk-live-4fA9" = false.
Proof.
  split.
  - apply (redactApiKey_removes_secret "401: bad key sk-live-4fA9" "ab12").
    simpl. lia.
  - apply (redactApiKey_removes_secret
             "401: bad key sk-live-4fA9 (sk-live-4fA9)" "sk-live-4fA9");
      [simpl; lia|reflexivity|reflexivity|discriminate].
Defined.

(** C5 as stated fails: a secret of 8 characters that ends in [[] survives
    its own redaction, carried by the marker that replaces it. *)
Lemma redactApiKey_secret_survives :
  (8 <= String.length "key-123[")%nat
  /\ redactApiKey "key-123key-123[" "key-123[" = Return "key-123[REDACTED]"
  /\ includes "key-123[REDACTED]" "key-123[" = true.
Proof. split; [simpl; lia|]. split; reflexivity. Qed.

Example redactApiKey_marker_word :
  redactApiKey "REDACTED" "REDACTED" = Return "[REDACTED]"
  /\ includes "[REDACTED]" "REDACTED" = true.
Proof. split; reflexivity. Qed.

(** Hexadecimal text decodes to the bytes it was written from. *)
Lemma from_hex_to_hex (b : bytes) : from_hex (to_hex b) = b.
Proof.
  unfold from_hex, to_hex. rewrite chars_text.
  induction b as [|x b IH]; [done|].
  cbn [to_hex_chars from_hex_chars].
  assert (Hh : hex_value (hex_digit (Byte.to_N x / 16)) = Some (Byte.to_N x / 16)%N)
    by (destruct x; reflexivity).
  assert (Hl : hex_value (hex_digit (Byte.to_N x mod 16)) = Some (Byte.to_N x mod 16)%N)
    by (destruct x; reflexivity).
  assert (Hx : byte_of (16 * (Byte.to_N x / 16) + Byte.to_N x mod 16) = x)
    by (destruct x; reflexivity).
  rewrite Hh, Hl, Hx, IH. reflexivity.
Qed.

(** Hexadecimal text has an even number of characters. *)
Lemma to_hex_even (b : bytes) : Nat.odd (String.length (to_hex b)) = false.
Proof.
  unfold to_hex. rewrite <- length_chars, chars_text.
  induction b as [|x b IH]; [done|]. exact IH.
Qed.

(** *** UTF-8 *)

Lemma to_N_byte_of (n : N) : (n < 256)%N -> Byte.to_N (byte_of n) = n.
Proof.
  intros H. unfold byte_of.
  destruct (Byte.of_N n) as [b|] eqn:E.
  - cbn. by apply Byte.to_of_N.
  - apply Byte.of_N_None_iff in E. lia.
Qed.

Ltac div_lia := zify; Z.to_euclidean_division_equations; lia.

Ltac bounds :=
  repeat match goal with
  | |- context [N.ltb ?a ?b] => destruct (N.ltb_spec a b); [try lia|try lia]
  | |- context [N.leb ?a ?b] => destruct (N.leb_spec a b); [try lia|try lia]
  end.

(** The digits of a number in base 64. *)
Lemma base64_2 (u : N) :
  exists a c, (a = u / 64 /\ c = u mod 64 /\ c < 64 /\ u = a * 64 + c)%N.
Proof. exists (u / 64)%N, (u mod 64)%N. div_lia. Qed.

Lemma base64_3 (u : N) :
  exists a b c, (a = u / 4096 /\ b = (u / 64) mod 64 /\ c = u mod 64
                 /\ b < 64 /\ c < 64 /\ u = a * 4096 + b * 64 + c)%N.
Proof. exists (u / 4096)%N, ((u / 64) mod 64)%N, (u mod 64)%N. div_lia. Qed.

Lemma base64_4 (u : N) :
  exists a b c d, (a = u / 262144 /\ b = (u / 4096) mod 64 /\ c = (u / 64) mod 64
                   /\ d = u mod 64
                   /\ b < 64 /\ c < 64 /\ d < 64
                   /\ u = a * 262144 + b * 4096 + c * 64 + d)%N.
Proof.
  exists (u / 262144)%N, ((u / 4096) mod 64)%N, ((u / 64) mod 64)%N, (u mod 64)%N.
  div_lia.
Qed.

(** A sequence of one, two, three or four bytes decodes to what it was
    written from. *)
Lemma decode_1 (u : N) (rest : bytes) :
  (u < 0x80)%N ->
  utf8_decode_units (utf8_1 u ++ rest) = option_map (cons u) (utf8_decode_units rest).
Proof.
  intros H. unfold utf8_1. cbn [app utf8_decode_units].
  rewrite to_N_byte_of by lia.
  destruct (N.ltb_spec u 0x80); [done|lia].
Qed.

Lemma decode_2 (u : N) (rest : bytes) :
  (0x80 <= u < 0x800)%N ->
  utf8_decode_units (utf8_2 u ++ rest) = option_map (cons u) (utf8_decode_units rest).
Proof.
  intros H. unfold utf8_2.
  destruct (base64_2 u) as (a & c & <- & <- & Hc & Hu).
  cbn [app utf8_decode_units]. unfold continuation.
  rewrite !to_N_byte_of by lia.
  bounds. cbn [andb].
  replace ((0xC0 + a - 0xC0) * 64 + (0x80 + c - 0x80))%N with u by lia.
  done.
Qed.

Lemma decode_3 (u : N) (rest : bytes) :
  (0x800 <= u < 0x10000)%N -> lead u || trail u = false ->
  utf8_decode_units (utf8_3 u ++ rest) = option_map (cons u) (utf8_decode_units rest).
Proof.
  intros H Hs. unfold utf8_3.
  destruct (base64_3 u) as (a & b & c & <- & <- & <- & Hb & Hc & Hu).
  cbn [app utf8_decode_units]. unfold continuation.
  rewrite !to_N_byte_of by lia.
  bounds. cbn [andb].
  replace ((0xE0 + a - 0xE0) * 4096 + (0x80 + b - 0x80) * 64 + (0x80 + c - 0x80))%N
    with u by lia.
  rewrite Hs. cbn [negb]. bounds. done.
Qed.

Lemma code_point_units (hi lo : N) :
  lead hi = true -> trail lo = true ->
  let c := code_point hi lo in
  (0x10000 <= c < 0x110000
   /\ 0xD800 + (c - 0x10000) / 0x400 = hi
   /\ 0xDC00 + (c - 0x10000) mod 0x400 = lo)%N.
Proof.
  unfold lead, trail. intros [H1 H2]%andb_prop [H3 H4]%andb_prop.
  apply N.leb_le in H1, H3. apply N.ltb_lt in H2, H4.
  unfold code_point. cbv zeta. split; [lia|].
  replace (0x10000 + (hi - 0xD800) * 0x400 + (lo - 0xDC00) - 0x10000)%N
    with ((lo - 0xDC00) + (hi - 0xD800) * 0x400)%N by lia.
  rewrite N.div_add, N.Div0.mod_add by done.
  rewrite N.div_small, N.mod_small by lia. lia.
Qed.

Lemma decode_4 (hi lo : N) (rest : bytes) :
  lead hi = true -> trail lo = true ->
  utf8_decode_units (utf8_4 (code_point hi lo) ++ rest)
  = option_map (fun l => hi :: lo :: l) (utf8_decode_units rest).
Proof.
  intros Hhi Hlo. destruct (code_point_units hi lo Hhi Hlo) as (Hc & Eh & El).
  revert Hc Eh El. cbv zeta. generalize (code_point hi lo). intros u Hu Eh El.
  unfold utf8_4.
  destruct (base64_4 u) as (a & b & c & d & <- & <- & <- & <- & Hb & Hc & Hd & Eu).
  cbn [app utf8_decode_units]. unfold continuation.
  rewrite !to_N_byte_of by lia.
  bounds. cbn [andb].
  replace ((0xF0 + a - 0xF0) * 262144 + (0x80 + b - 0x80) * 4096
           + (0x80 + c - 0x80) * 64 + (0x80 + d - 0x80))%N
    with u by lia.
  bounds. cbn [andb]. rewrite Eh, El. done.
Qed.

Lemma decode_replacement (rest : bytes) :
  utf8_decode_units (utf8_3 REPLACEMENT ++ rest)
  = option_map (cons REPLACEMENT) (utf8_decode_units rest).
Proof. apply decode_3; [unfold REPLACEMENT; lia|reflexivity]. Qed.

(** UTF-8 decodes to the string it was written from, with U+FFFD where the
    string had a surrogate without its partner. *)
Lemma utf8_decode_encode (s : Text) :
  JsString s = true -> utf8_decode (utf8_encode s) = Return (toWellFormed s).
Proof.
  unfold utf8_decode, JsString.
  enough (H : Forall (fun u => (u < 0x10000)%N) s ->
              utf8_decode_units (utf8_encode s) = Some (toWellFormed s)).
  { intros Hs. rewrite H; [done|]. apply Forall_forall. intros u Hu.
    apply N.ltb_lt. rewrite forallb_forall in Hs. apply Hs, list_elem_of_In, Hu. }
  remember (length s) as n eqn:Hn. revert s Hn.
  induction n as [n IH] using lt_wf_ind. intros s -> Hs.
  destruct s as [|u s]; [done|].
  apply Forall_cons in Hs as [Hu Hs].
  assert (IH1 : utf8_decode_units (utf8_encode s) = Some (toWellFormed s)).
  { apply (IH (length s)); [cbn; lia|done|done]. }
  cbn [utf8_encode toWellFormed].
  destruct (N.ltb_spec u 0x80) as [H1|H1].
  { rewrite decode_1, IH1 by done.
    replace (lead u) with false by (unfold lead; bounds; done).
    replace (trail u) with false by (unfold trail; bounds; done). done. }
  destruct (N.ltb_spec u 0x800) as [H2|H2].
  { rewrite decode_2, IH1 by lia.
    replace (lead u) with false by (unfold lead; bounds; done).
    replace (trail u) with false by (unfold trail; bounds; done). done. }
  destruct (lead u) eqn:Hl.
  - destruct s as [|v s]; [apply (decode_replacement [])|].
    destruct (trail v) eqn:Ht.
    + apply Forall_cons in Hs as [Hv Hs].
      rewrite decode_4 by done.
      rewrite (IH (length s)); [done|cbn; lia|done|done].
    + by rewrite decode_replacement, IH1.
  - destruct (trail u) eqn:Ht.
    + by rewrite decode_replacement, IH1.
    + rewrite decode_3, IH1; [done|lia|by rewrite Hl, Ht].
Qed.

(** A string of the alphabet is a string with no surrogate, and [narrow]
    gives it back. *)
Lemma units_JsString (s : string) : JsString (units s) = true.
Proof.
  unfold JsString, units. apply forallb_forall. intros u [c [<- _]]%in_map_iff.
  apply N.ltb_lt. pose proof (N_ascii_bounded c). lia.
Qed.

Lemma units_wellFormed (s : string) : toWellFormed (units s) = units s.
Proof.
  unfold units. induction (list_ascii_of_string s) as [|c l IH]; [done|].
  cbn [map toWellFormed]. pose proof (N_ascii_bounded c) as Hc.
  replace (lead (N_of_ascii c)) with false by (unfold lead; bounds; done).
  replace (trail (N_of_ascii c)) with false by (unfold trail; bounds; done).
  by rewrite IH.
Qed.

Lemma narrow_units (s : string) : narrow (units s) = Return s.
Proof.
  unfold narrow, units.
  assert (H : forallb (fun u => (u <? 256)%N) (map N_of_ascii (list_ascii_of_string s))
              = true).
  { apply forallb_forall. intros u [c [<- _]]%in_map_iff.
    apply N.ltb_lt, N_ascii_bounded. }
  rewrite H, map_map. f_equal.
  rewrite <- (string_of_list_ascii_of_string s) at 2. f_equal.
  rewrite <- (map_id (list_ascii_of_string s)) at 2.
  apply map_ext. intros c. apply ascii_N_embedding.
Qed.

Section CipherFacts.
Variable gctr : bytes -> bytes -> bytes -> bytes.
Variable gtag : bytes -> bytes -> bytes -> bytes.
Hypothesis gctr_involutive : forall key iv data, gctr key iv (gctr key iv data) = data.
Hypothesis gtag_length : forall key iv data, length (gtag key iv data) = AUTH_TAG_LENGTH.

(** What [encryptApiKey] returns under a configured key, and what
    [decryptApiKey] makes of it, for a cipher that keeps its contract. *)
Lemma decrypt_encrypt (env : option string) (key random : bytes) (plaintext : Text) :
  getEncryptionKey env = Return key ->
  length key = 32%nat ->
  length random = IV_LENGTH ->
  JsString plaintext = true ->
  exists d,
    encryptApiKey gctr gtag env random plaintext = Return d
    /\ d = {| encryptedKey := to_hex (gctr key random (utf8_encode plaintext));
              iv := to_hex random;
              authTag := to_hex (gtag key random (gctr key random (utf8_encode plaintext))) |}
    /\ decryptApiKey gctr gtag env d = Return (toWellFormed plaintext).
Proof.
  intros Hkey Hlen Hiv Hs.
  assert (Hcreate : createCipheriv key random = Return tt).
  { unfold createCipheriv. rewrite Hlen, Hiv. reflexivity. }
  eexists. split; [|split; [reflexivity|]].
  - unfold encryptApiKey. rewrite Hkey. cbn [bind]. rewrite Hcreate. cbn [bind].
    reflexivity.
  - unfold decryptApiKey. rewrite Hkey. cbn [bind iv authTag encryptedKey].
    rewrite !from_hex_to_hex, Hcreate. cbn [bind].
    rewrite gtag_length, Nat.eqb_refl. cbn [negb]. rewrite to_hex_even.
    rewrite bool_decide_eq_true_2 by reflexivity.
    rewrite gctr_involutive. by apply utf8_decode_encode.
Qed.

(** C6, as the code has it.  With the key configured ([getEncryptionKey]
    gives 32 bytes) and a fresh IV of [IV_LENGTH] bytes, for every string
    (any code units below [2^16]) [encryptApiKey] returns a payload that
    [decryptApiKey] turns into the plaintext with U+FFFD for every
    surrogate that has no partner: into the plaintext itself exactly when
    it has no such surrogate.  The same payload with any
    other authentication tag makes [decryptApiKey] throw.  AES-256-GCM is
    taken by its contract: the counter-mode transformation undoes itself and
    tags are [AUTH_TAG_LENGTH] bytes long. *)
Theorem encrypt_decrypt_roundtrip
    (env : option string) (key random : bytes) (plaintext : Text) :
  getEncryptionKey env = Return key ->
  length key = 32%nat ->
  length random = IV_LENGTH ->
  JsString plaintext = true ->
  exists d,
    encryptApiKey gctr gtag env random plaintext = Return d
    /\ decryptApiKey gctr gtag env d = Return (toWellFormed plaintext)
    /\ (decryptApiKey gctr gtag env d = Return plaintext
        <-> isWellFormed plaintext = true)
    /\ forall tampered : string,
         from_hex tampered <> from_hex (authTag d) ->
         exists e,
           decryptApiKey gctr gtag env
             {| encryptedKey := encryptedKey d; iv := iv d; authTag := tampered |}
           = Throw e.
Proof.
  intros Hkey Hlen Hiv Hs.
  destruct (decrypt_encrypt env key random plaintext Hkey Hlen Hiv Hs)
    as (d & He & -> & Hd).
  assert (Hcreate : createCipheriv key random = Return tt).
  { unfold createCipheriv. rewrite Hlen, Hiv. reflexivity. }
  eexists. split; [exact He|]. split; [exact Hd|]. split.
  - rewrite Hd. unfold isWellFormed. rewrite bool_decide_eq_true.
    split; [by intros [= ->]|by intros ->].
  - intros tampered Htag. unfold decryptApiKey.
    rewrite Hkey. cbn [bind iv authTag encryptedKey] in *.
    rewrite !from_hex_to_hex in *. rewrite Hcreate. cbn [bind].
    destruct (negb _); [eexists; reflexivity|]. rewrite to_hex_even.
    rewrite bool_decide_eq_false_2 by exact Htag. eexists; reflexivity.
Qed.

End CipherFacts.

Lemma toy_gctr_involutive (key iv data : bytes) :
  toy_gctr key iv (toy_gctr key iv data) = data.
Proof. apply rev_involutive. Qed.

Lemma toy_gtag_length (key iv data : bytes) :
  length (toy_gtag key iv data) = AUTH_TAG_LENGTH.
Proof.
  unfold toy_gtag, AUTH_TAG_LENGTH.
  rewrite length_take, length_app, length_replicate. lia.
Qed.

(** A key as it is entered, and a text with a character outside the Basic
    Multilingual Plane (U+1F511, two surrogates). *)
Lemma encrypt_decrypt_roundtrip_witness :
  let env := Some "000102030405060708090a0b0c0d0e0f101112131415161718191a1b1c1d1e1f" in
  let random := from_hex "a0a1a2a3a4a5a6a7a8a9aaab" in
  let plaintext := units "sk-" ++ [0xD83D; 0xDD11]%N in
  exists d,
    encryptApiKey toy_gctr toy_gtag env random plaintext = Return d
    /\ decryptApiKey toy_gctr toy_gtag env d = Return (toWellFormed plaintext)
    /\ (decryptApiKey toy_gctr toy_gtag env d = Return plaintext
        <-> isWellFormed plaintext = true)
    /\ forall tampered : string,
         from_hex tampered <> from_hex (authTag d) ->
         exists e,
           decryptApiKey toy_gctr toy_gtag env
             {| encryptedKey := encryptedKey d; iv := iv d; authTag := tampered |}
           = Throw e.
Proof.
  intros env random plaintext.
  apply (encrypt_decrypt_roundtrip toy_gctr toy_gtag
           toy_gctr_involutive toy_gtag_length env
           (from_hex "000102030405060708090a0b0c0d0e0f101112131415161718191a1b1c1d1e1f")
           random plaintext);
    reflexivity.
Defined.

(** C6 as stated fails: a string that is one surrogate without its partner
    (U+D83D) is encrypted as U+FFFD, and that is what decryption returns. *)
Lemma roundtrip_lone_surrogate :
  JsString [0xD83D%N] = true
  /\ exists d,
       encryptApiKey toy_gctr toy_gtag
         (Some "000102030405060708090a0b0c0d0e0f101112131415161718191a1b1c1d1e1f")
         (from_hex "a0a1a2a3a4a5a6a7a8a9aaab") [0xD83D%N] = Return d
       /\ decryptApiKey toy_gctr toy_gtag
            (Some "000102030405060708090a0b0c0d0e0f101112131415161718191a1b1c1d1e1f") d
          = Return [0xFFFD%N]
       /\ [0xFFFD%N] <> [0xD83D%N].
Proof. split; [reflexivity|]. eexists. split; [reflexivity|]. split; [reflexivity|done]. Qed.

End EncryptionFacts.

Module SubstitutionFacts.
Import Js RegExp TestRunner.
Local Arguments Ascii.eqb : simpl never.
Local Arguments String.eqb : simpl never.

(** Setting a property is seen by a lookup of its key and by no other. *)
Lemma own_update (k v k' : string) (o : JsObject) :
  own o k <> None ->
  own (update k v o) k' = if String.eqb k k' then Some v else own o k'.
Proof.
  induction o as [|[k0 v0] o IH]; intros Hk; [done|].
  cbn [own update] in *.
  destruct (String.eqb_spec k0 k) as [->|Hne].
  - cbn [own]. destruct (String.eqb_spec k k'); done.
  - cbn [own]. rewrite IH by done.
    destruct (String.eqb_spec k0 k') as [->|]; [|done].
    destruct (String.eqb_spec k k'); [congruence|done].
Qed.

Lemma own_insert_index (n : N) (k v k' : string) (o : JsObject) :
  own o k = None ->
  own (insert_index n k v o) k' = if String.eqb k k' then Some v else own o k'.
Proof.
  induction o as [|[k0 v0] o IH]; intros Hk; [done|].
  cbn [own insert_index] in *.
  destruct (String.eqb_spec k0 k) as [->|Hne]; [done|].
  destruct (array_index k0) as [n'|]; [destruct (n' <? n)%N|]; cbn [own].
  - rewrite IH by done.
    destruct (String.eqb_spec k0 k') as [->|]; [|done].
    destruct (String.eqb_spec k k'); [congruence|done].
  - done.
  - done.
Qed.

Lemma own_append (k v k' : string) (o : JsObject) :
  own o k = None ->
  own (o ++ [(k, v)]) k' = if String.eqb k k' then Some v else own o k'.
Proof.
  induction o as [|[k0 v0] o IH]; intros Hk; [cbn; by destruct (String.eqb k k')|].
  cbn [own app] in *.
  destruct (String.eqb_spec k0 k) as [->|Hne]; [done|].
  rewrite IH by done.
  destruct (String.eqb_spec k0 k') as [->|]; [|done].
  destruct (String.eqb_spec k k'); [congruence|done].
Qed.

Lemma own_define (k v k' : string) (o : JsObject) :
  own (define k v o) k' = if String.eqb k k' then Some v else own o k'.
Proof.
  unfold define. destruct (own o k) eqn:Hk.
  - apply own_update. congruence.
  - destruct (array_index k); [apply own_insert_index|apply own_append]; done.
Qed.

(** Last write wins: a key of the source takes the value of its last entry
    there, any other key keeps what the target has. *)
Lemma own_spread (target source : JsObject) (k : string) :
  own (spread target source) k
  = match own (rev source) k with
    | Some v => Some v
    | None => own target k
    end.
Proof.
  unfold spread. revert target.
  induction source as [|[k0 v0] source IH]; intros target; [done|].
  cbn [fold_left rev fst snd]. rewrite IH, own_define.
  assert (Hrev : own (rev source ++ [(k0, v0)]) k
                 = match own (rev source) k with
                   | Some v => Some v
                   | None => if String.eqb k0 k then Some v0 else None
                   end).
  { generalize (rev source). intros l. induction l as [|[k1 v1] l IHl]; [done|].
    cbn [own app]. destruct (String.eqb k1 k); done. }
  rewrite Hrev. destruct (own (rev source) k); [done|].
  destruct (String.eqb k0 k); done.
Qed.

(** Whether a pattern matches somewhere in a text. *)
Lemma replace_from_no_match (p : Pattern) (r : list ascii) (s seen : list ascii) :
  found p s = false -> replace_from p r seen O s = s.
Proof.
  revert seen. induction s as [|c s IH]; intros seen; cbn [found replace_from].
  - destruct (exec p []); done.
  - destruct (exec p (c :: s)); [done|]. intros H. f_equal. auto.
Qed.

Lemma replace_no_match (p : Pattern) (value s : string) :
  found p (chars s) = false -> replace p value s = s.
Proof.
  intros H. unfold replace. rewrite replace_from_no_match by done.
  apply string_of_list_ascii_of_string.
Qed.

(** Placeholders that no key matches are left as they are, and a second
    pass over a text in which no key matches any more changes nothing. *)
Lemma substituteVariables_no_match (template : string) (variables : JsObject) :
  Forall (fun kv => exists p, placeholder kv.1 = Return p
                              /\ found p (chars template) = false) variables ->
  substituteVariables template variables = Return template.
Proof.
  unfold substituteVariables.
  induction 1 as [|[k v] vars (p & Hp & Hf) _ IH]; [done|].
  cbn [substituteEntries fst] in *. rewrite Hp.
  rewrite replace_no_match by done. exact IH.
Qed.

Lemma substituteVariables_parses (template : string) (variables : JsObject) (r : string) :
  substituteVariables template variables = Return r ->
  Forall (fun kv => exists p, placeholder kv.1 = Return p) variables.
Proof.
  unfold substituteVariables. revert template.
  induction variables as [|[k v] vars IH]; intros template; [constructor|].
  cbn [substituteEntries fst].
  destruct (placeholder k) as [p| |] eqn:Hp; [|done..].
  intros H. constructor; [eauto|]. eapply IH, H.
Qed.

Lemma substituteVariables_idempotent (template : string) (variables : JsObject) (r : string) :
  substituteVariables template variables = Return r ->
  (forall k v p, In (k, v) variables -> placeholder k = Return p ->
                 found p (chars r) = false) ->
  substituteVariables r variables = Return r.
Proof.
  intros Hr Hclear. apply substituteVariables_no_match.
  apply substituteVariables_parses in Hr.
  rewrite Forall_forall in Hr |- *. intros [k v] Hin.
  destruct (Hr _ Hin) as [p Hp]. exists p. split; [done|].
  eapply Hclear; [|done]. apply list_elem_of_In. exact Hin.
Qed.

(** C9, at an input on which it fails.  The value of a variable is not put
    in literally: [replace] reads it as a replacement pattern, so the
    value $$5 arrives as $5 and the value $& as the placeholder itself. *)
Theorem substituteVariables_value_not_literal :
  substituteVariables "Pay {{amount}} now" (spread [] [("amount", "$$5")])
  = Return "Pay $5 now"
  /\ substituteVariables "Pay {{ amount }} now" (spread [] [("amount", "$&")])
     = Return "Pay {{ amount }} now".
Proof. split; reflexivity. Qed.

(** The key is not matched literally either: it is read as a pattern, so
    a placeholder of another name can be replaced. *)
Example substituteVariables_key_not_literal :
  substituteVariables "{{a.b}} and {{axb}}" [("a.b", "V")] = Return "V and V".
Proof. reflexivity. Qed.

(** Overrides win over defaults, key by key, and whitespace inside the
    braces is allowed. *)
Example substituteVariables_merged :
  substituteVariables "Say {{ word }} to {{who}}, {{other}}"
    (spread (spread [] [("word", "hi"); ("who", "Bob")]) [("who", "Alice")])
  = Return "Say hi to Alice, {{other}}".
Proof. reflexivity. Qed.

End SubstitutionFacts.

Module TestRunnerFacts.
Import Js RegExp Providers Validation System TestRunner.
Local Arguments Ascii.eqb : simpl never.
Local Arguments String.eqb : simpl never.

(** Running a computation step by step. *)
Ltac step_m :=
  unfold executeRun, callProvider, recordFailure, try_catch, System.bind, now,
    math_random, run_update, run_create, lift, ret, throw, adapter_complete,
    System.checkRateLimit;
  cbn [fst snd rateLimit test apiKey run statusLog adapterLog clockReads upserts randoms].

(** What [executeRun] leaves alone. *)
Lemma executeRun_frame (env : Env) (runId prompt : string) (mc : ModelConfig.t)
    (key : KeyMaterial) (e j : option string) (isDryRun : bool) (w : World) :
  let w' := (executeRun env runId prompt mc key e j isDryRun w).2 in
  rateLimit w' = rateLimit w /\ upserts w' = upserts w /\ test w' = test w
  /\ apiKey w' = apiKey w /\ randoms w' = randoms w
  /\ length (run w') = length (run w)
  /\ (isDryRun = true -> adapterLog w' = adapterLog w).
Proof.
  step_m. destruct isDryRun.
  - destruct (Pricing.calculateCost _ _ _ _); cbn; rewrite ?length_map; auto 10.
  - destruct (Encryption.decryptApiKey _ _ _ _); cbn;
      [|rewrite ?length_map; repeat split; done..].
    destruct (narrow _); cbn;
      [|rewrite ?length_map; repeat split; done..].
    destruct (getAdapter _); cbn; [|rewrite ?length_map; repeat split; done].
    destruct (complete _ _ _ _); cbn; [|rewrite ?length_map; repeat split; done].
    destruct (Pricing.calculateCost _ _ _ _); cbn;
      rewrite ?length_map; repeat split; done.
Qed.

(** The statuses [executeRun] writes: [running] first, then the status of
    its result if it returns one. *)
Lemma executeRun_status_path (env : Env) (runId prompt : string)
    (mc : ModelConfig.t) (key : KeyMaterial) (e j : option string)
    (isDryRun : bool) (w : World) :
  exists tail,
    statusLog (executeRun env runId prompt mc key e j isDryRun w).2
    = statusLog w ++ (runId, running) :: tail
    /\ match (executeRun env runId prompt mc key e j isDryRun w).1 with
       | Return r =>
           tail = [(runId, RunResult.status r)]
           /\ RunResult.id r = runId
           /\ (if isDryRun then RunResult.status r = dry_run
               else RunResult.status r = completed \/ RunResult.status r = failed)
       | _ => tail = []
       end.
Proof.
  step_m. destruct isDryRun.
  - destruct (Pricing.calculateCost _ _ _ _); cbn; rewrite <- ?app_assoc;
      eexists; (split; [reflexivity|]); auto.
  - destruct (Encryption.decryptApiKey _ _ _ _); cbn; rewrite <- ?app_assoc;
      [|eexists; (split; [reflexivity|]); auto..].
    destruct (narrow _); cbn; rewrite <- ?app_assoc;
      [|eexists; (split; [reflexivity|]); auto..].
    destruct (getAdapter _); cbn; rewrite <- ?app_assoc;
      [|eexists; (split; [reflexivity|]); auto].
    destruct (complete _ _ _ _); cbn; rewrite <- ?app_assoc;
      [|eexists; (split; [reflexivity|]); auto].
    destruct (Pricing.calculateCost _ _ _ _); cbn; rewrite <- ?app_assoc;
      eexists; (split; [reflexivity|]); auto.
Qed.


(** The dry branch of [executeRun], by its result. *)
Lemma executeRun_dry (env : Env) (runId prompt : string) (mc : ModelConfig.t)
    (key : KeyMaterial) (e j : option string) (w : World) (r : RunResult.t) (w' : World) :
  executeRun env runId prompt mc key e j true w = (Return r, w') ->
  dryEstimate prompt mc r.
Proof.
  step_m.
  assert (Hc : Pricing.estimateTokenCount prompt
               = Qceiling (inject_Z (Z.of_nat (String.length prompt)) / 4)).
  { unfold Pricing.estimateTokenCount. destruct prompt; reflexivity. }
  rewrite Hc.
  destruct (Pricing.calculateCost _ _ _ _) as [priced| |] eqn:Hp; [|done..].
  intros [= <- _]. unfold dryEstimate. cbn. repeat split; eauto.
Qed.

(** What the re-check does. *)
Lemma recheck_spec (env : Env) (userId : string) (isDryRun : bool)
    (rs : list RunResult.t) (w : World) :
  let r := RateLimit.checkRateLimit (iso (clock env (clockReads w)))
             (storage env (upserts w)) userId (rateLimit w) in
  recheck env userId isDryRun rs w
  = if isDryRun then (Return tt, w)
    else
      let w' :=
        {| System.rateLimit := r.2; System.test := System.test w;
           System.apiKey := apiKey w; System.run := run w;
           System.statusLog := statusLog w; System.adapterLog := adapterLog w;
           System.clockReads := S (clockReads w); System.upserts := S (upserts w);
           System.randoms := randoms w |} in
      if RateLimit.allowed r.1 then (Return tt, w')
      else (Throw (Err Error
              ("Rate limit exceeded after " +:+ decimal (Z.of_nat (length rs))
               +:+ " runs. Results so far have been saved.")), w').
Proof.
  unfold recheck. destruct isDryRun; [done|].
  step_m. cbn -[RateLimit.checkRateLimit].
  destruct (RateLimit.checkRateLimit _ _ _ _) as [r t]. cbn.
  destruct (RateLimit.allowed r); done.
Qed.

Section LoopFacts.
Variable env : Env.
Variables (userId testId : string) (isDryRun : bool).
Variable test : Prisma.Test.t.
Variables (prompt : string) (mergedVariables : JsObject) (batchId : string).
Variable apiKeyMap : gmap string Prisma.ApiKey.t.

Let recheck := recheck env userId isDryRun.
Let attempt := attempt env userId testId isDryRun test prompt mergedVariables batchId apiKeyMap.
Let selections := selections env userId testId isDryRun test prompt mergedVariables batchId apiKeyMap.
Let repetitions := repetitions env userId testId isDryRun test prompt mergedVariables batchId apiKeyMap.

(** The loops, as one pass over the pairs in order. *)
Lemma selections_app (a b : list ModelConfig.t) (rs : list RunResult.t) (i : nat) (w : World) :
  selections (a ++ b) rs i w
  = match selections a rs i w with
    | (Return next, w') => selections b next.1 next.2 w'
    | (Throw e, w') => (Throw e, w')
    | (Unmodelled, w') => (Unmodelled, w')
    end.
Proof.
  revert rs i w. induction a as [|mc a IH]; intros rs i w; [done|].
  cbn [app]. unfold selections in *. cbn [TestRunner.selections].
  unfold System.bind.
  destruct (TestRunner.attempt _ _ _ _ _ _ _ _ _ _ _ _ _) as [[next| |] w']; [|done..].
  apply IH.
Qed.

Lemma repetitions_selections (mcs : list ModelConfig.t) (turns : nat)
    (rs : list RunResult.t) (i : nat) (w : World) :
  repetitions mcs turns rs i w = selections (concat (replicate turns mcs)) rs i w.
Proof.
  revert rs i w. induction turns as [|n IH]; intros rs i w; [done|].
  cbn [replicate concat]. rewrite selections_app.
  unfold repetitions in *. cbn [TestRunner.repetitions]. unfold System.bind.
  fold selections.
  destruct (selections mcs rs i w) as [[next| |] w']; [|done..].
  apply IH.
Qed.

(** A turn whose re-check fails throws there and then. *)
Lemma attempt_denied (mc : ModelConfig.t) (rs : list RunResult.t) (i : nat)
    (w : World) (e : Thrown) (w' : World) :
  recheck rs w = (Throw e, w') -> attempt mc rs i w = (Throw e, w').
Proof.
  intros H. unfold attempt, TestRunner.attempt, System.bind. fold recheck.
  rewrite H. done.
Qed.

(** A turn for a key that did not resolve adds its result and nothing else. *)
Lemma attempt_key_missing (mc : ModelConfig.t) (rs : list RunResult.t) (i : nat)
    (w w' : World) :
  apiKeyMap !! ModelConfig.apiKeyId mc = None ->
  recheck rs w = (Return tt, w') ->
  attempt mc rs i w = (Return (rs ++ [keyNotFound mc], i), w').
Proof.
  intros Hk H. unfold attempt, TestRunner.attempt, System.bind. fold recheck.
  rewrite H, Hk. done.
Qed.


(** A turn adds one result. *)
Lemma attempt_adds_one (mc : ModelConfig.t) (rs : list RunResult.t) (i : nat)
    (w : World) (next : list RunResult.t * nat) (w' : World) :
  attempt mc rs i w = (Return next, w') -> exists r, next.1 = rs ++ [r].
Proof.
  unfold attempt, TestRunner.attempt, System.bind. fold recheck.
  destruct (recheck rs w) as [[[]| |] w1]; [|done..].
  destruct (apiKeyMap !! _).
  - destruct (run_create _ _ _) as [[row| |] w2]; [|done..].
    destruct (executeRun _ _ _ _ _ _ _ _ _) as [[r| |] w3]; [|done..].
    intros [= <- _]. eauto.
  - intros [= <- _]. eauto.
Qed.

Lemma selections_adds (mcs : list ModelConfig.t) (rs : list RunResult.t) (i : nat)
    (w : World) (next : list RunResult.t * nat) (w' : World) :
  selections mcs rs i w = (Return next, w') ->
  exists new, next.1 = rs ++ new /\ length new = length mcs.
Proof.
  revert rs i w. induction mcs as [|mc mcs IH]; intros rs i w.
  - intros [= <- _]. exists []. by rewrite app_nil_r.
  - unfold selections in *. cbn [TestRunner.selections]. unfold System.bind.
    fold attempt.
    destruct (attempt mc rs i w) as [[n1| |] w1] eqn:Ha; [|done..].
    intros Hs. apply attempt_adds_one in Ha as [r Hr].
    apply IH in Hs as (new & Hn & Hl). exists (r :: new).
    rewrite Hn, Hr, <- app_assoc. split; [done|]. simpl. lia.
Qed.

(** In a dry run a turn touches neither the limiter nor an adapter. *)
Lemma attempt_dry_quiet (mc : ModelConfig.t) (rs : list RunResult.t) (i : nat) (w : World) :
  isDryRun = true ->
  let w' := (attempt mc rs i w).2 in
  rateLimit w' = rateLimit w /\ upserts w' = upserts w /\ adapterLog w' = adapterLog w.
Proof.
  intros Hdry. unfold attempt, TestRunner.attempt, System.bind, TestRunner.recheck.
  rewrite Hdry. cbn [ret].
  destruct (apiKeyMap !! _) as [k|]; [|done].
  cbn [run_create].
  match goal with
  | |- context [executeRun ?e ?id ?p ?m ?k ?x ?j true ?w0] =>
      pose proof (executeRun_frame e id p m k x j true w0) as Hf;
      destruct (executeRun e id p m k x j true w0) as [[r| |] w3]
  end; cbn in Hf |- *; destruct Hf as (H1 & H2 & _ & _ & _ & _ & H3);
    rewrite H1, H2, H3 by done; done.
Qed.

Lemma selections_dry_quiet (mcs : list ModelConfig.t) (rs : list RunResult.t)
    (i : nat) (w : World) :
  isDryRun = true ->
  let w' := (selections mcs rs i w).2 in
  rateLimit w' = rateLimit w /\ upserts w' = upserts w /\ adapterLog w' = adapterLog w.
Proof.
  intros Hdry. revert rs i w. induction mcs as [|mc mcs IH]; intros rs i w; [done|].
  unfold selections in *. cbn [TestRunner.selections]. unfold System.bind.
  fold attempt.
  pose proof (attempt_dry_quiet mc rs i w Hdry) as Ha.
  destruct (attempt mc rs i w) as [[next| |] w1]; cbn in Ha |- *; [|done..].
  specialize (IH next.1 next.2 w1). cbn in IH.
  destruct IH as (H1 & H2 & H3), Ha as (G1 & G2 & G3).
  rewrite H1, H2, H3. done.
Qed.

(** In a dry run every turn gives the estimate, or the result for a key
    that did not resolve. *)
Lemma attempt_dry_result (mc : ModelConfig.t) (rs : list RunResult.t) (i : nat)
    (w : World) (next : list RunResult.t * nat) (w' : World) :
  isDryRun = true ->
  attempt mc rs i w = (Return next, w') ->
  exists r, next.1 = rs ++ [r]
    /\ match apiKeyMap !! ModelConfig.apiKeyId mc with
       | None => r = keyNotFound mc
       | Some _ => dryEstimate prompt mc r
       end.
Proof.
  intros Hdry. unfold attempt, TestRunner.attempt, System.bind, TestRunner.recheck.
  rewrite Hdry. cbn [ret].
  destruct (apiKeyMap !! _) as [k|].
  - cbn [run_create].
    destruct (executeRun _ _ _ _ _ _ _ _ _) as [[r| |] w3] eqn:He; [|done..].
    intros [= <- _]. exists r. split; [done|].
    eapply executeRun_dry, He.
  - intros [= <- _]. eauto.
Qed.

Lemma selections_dry_results (mcs : list ModelConfig.t) (rs : list RunResult.t)
    (i : nat) (w : World) (next : list RunResult.t * nat) (w' : World) :
  isDryRun = true ->
  selections mcs rs i w = (Return next, w') ->
  exists new, next.1 = rs ++ new
    /\ Forall2 (fun mc r =>
                  match apiKeyMap !! ModelConfig.apiKeyId mc with
                  | None => r = keyNotFound mc
                  | Some _ => dryEstimate prompt mc r
                  end) mcs new.
Proof.
  intros Hdry. revert rs i w. induction mcs as [|mc mcs IH]; intros rs i w.
  - intros [= <- _]. exists []. by rewrite app_nil_r.
  - unfold selections in *. cbn [TestRunner.selections]. unfold System.bind.
    fold attempt.
    destruct (attempt mc rs i w) as [[n1| |] w1] eqn:Ha; [|done..].
    intros Hs. apply attempt_dry_result in Ha as (r & Hr & Hd); [|done].
    apply IH in Hs as (new & Hn & Hf). exists (r :: new).
    rewrite Hn, Hr, <- app_assoc. split; [done|]. by constructor.
Qed.

End LoopFacts.


(** [runTest], as [prepare] and then one pass over the pairs. *)
Lemma runTest_unfold (env : Env) (options : RunOptions) (w : World) :
  runTest env options w
  = match prepare env options w with
    | (Return l, w0) =>
        match selections env (userId options) (testId options)
                (default false (isDryRun options)) (the_test l) (prompt l)
                (mergedVariables l) (batchId l) (apiKeyMap l)
                (pairs options) [] O w0 with
        | (Return next, w') => (Return next.1, w')
        | (Throw e, w') => (Throw e, w')
        | (Unmodelled, w') => (Unmodelled, w')
        end
    | (Throw e, w0) => (Throw e, w0)
    | (Unmodelled, w0) => (Unmodelled, w0)
    end.
Proof.
  unfold runTest, loop, System.bind, pairs.
  destruct (prepare env options w) as [[l| |] w0]; [|done..].
  rewrite repetitions_selections.
  destruct (selections _ _ _ _ _ _ _ _ _ _ _ _ _) as [[next| |] w']; done.
Qed.

(** What [prepare] does to the store, and when it refuses. *)
Lemma prepare_frame (env : Env) (options : RunOptions) (w : World) :
  let r := RateLimit.checkRateLimit (iso (clock env (clockReads w)))
             (storage env (upserts w)) (userId options) (rateLimit w) in
  let out := prepare env options w in
  rateLimit out.2 = r.2 /\ upserts out.2 = S (upserts w)
  /\ adapterLog out.2 = adapterLog w /\ run out.2 = run w
  /\ statusLog out.2 = statusLog w
  /\ (RateLimit.allowed r.1 = false ->
      out.1 = Throw (Err Error
                "Rate limit exceeded. Please wait a minute before running more tests.")).
Proof.
  unfold prepare. step_m. cbn -[RateLimit.checkRateLimit].
  destruct (RateLimit.checkRateLimit _ _ _ _) as [r t]. cbn.
  destruct (RateLimit.allowed r); cbn; [|auto 10].
  destruct (test w !! testId options) as [t1|]; cbn; [|repeat split; done].
  destruct (negb _); cbn; [repeat split; done|].
  destruct (substituteVariables _ _); cbn; repeat split; done.
Qed.

(** What [prepare] hands to the loop: the test of the user, the variables
    merged with the overrides last, the prompt after substitution, and the
    active keys of the user among those the selections name. *)
Lemma prepare_locals (env : Env) (options : RunOptions) (w : World)
    (l : Locals) (w0 : World) :
  prepare env options w = (Return l, w0) ->
  test w !! testId options = Some (the_test l)
  /\ Prisma.Test.userId (the_test l) = userId options
  /\ mergedVariables l
     = spread (spread [] (default [] (Prisma.Test.variables (the_test l))))
         (default [] (variables options))
  /\ substituteVariables (Prisma.Test.basePrompt (the_test l)) (mergedVariables l)
     = Return (prompt l)
  /\ apiKeyMap l
     = activeKeys (remove_dups (map ModelConfig.apiKeyId (modelConfigs options)))
         (userId options) (apiKey w).
Proof.
  unfold prepare. step_m. cbn -[RateLimit.checkRateLimit].
  destruct (RateLimit.checkRateLimit _ _ _ _) as [r t]. cbn.
  destruct (RateLimit.allowed r); cbn; [|done].
  destruct (test w !! testId options) as [t1|]; cbn; [|done].
  destruct (String.eqb_spec (Prisma.Test.userId t1) (userId options)); cbn; [|done].
  destruct (substituteVariables _ _) as [prompt| |] eqn:Hs; cbn; [|done..].
  intros [= <- _]. cbn. auto.
Qed.

(** A key that is switched off, or of another user, or not there at all,
    is not among the active keys. *)
Lemma activeKeys_None (ids : list string) (uid id : string)
    (keys : gmap string Prisma.ApiKey.t) :
  match keys !! id with
  | Some k => Prisma.ApiKey.isActive k = false \/ Prisma.ApiKey.userId k <> uid
  | None => True
  end ->
  activeKeys ids uid keys !! id = None.
Proof.
  intros H. unfold activeKeys. apply map_lookup_filter_None.
  destruct (keys !! id) as [k|]; [right|by left].
  intros k' [= <-] (_ & Hu & Ha). cbn in *. destruct H; congruence.
Qed.

(** C10.  A dry run is admitted like any other run: [runTest] with
    [isDryRun = true] makes the admission check, and only that one; the
    counter of the user's minute goes up by one; and when the check refuses,
    the call throws the rate-limit error with nothing created.
    [runAdHocPrompt] with [isDryRun = true] leaves the limiter alone. *)
Theorem dry_run_is_admitted (env : Env) (options : RunOptions) (w : World) :
  isDryRun options = Some true ->
  let date := iso (clock env (clockReads w)) in
  let r := RateLimit.checkRateLimit date (storage env (upserts w))
             (userId options) (rateLimit w) in
  let out := runTest env options w in
  rateLimit out.2 = r.2
  /\ upserts out.2 = S (upserts w)
  /\ (storage env (upserts w) = true ->
      RateLimit.count_of (rateLimit out.2) (userId options) (RateLimit.windowKey date)
      = RateLimit.count_of (rateLimit w) (userId options) (RateLimit.windowKey date) + 1)
  /\ (RateLimit.allowed r.1 = false ->
      out.1 = Throw (Err Error
                "Rate limit exceeded. Please wait a minute before running more tests.")
      /\ run out.2 = run w /\ statusLog out.2 = statusLog w)
  /\ forall (uid prompt : string) (mc : ModelConfig.t),
       let adhoc := runAdHocPrompt env uid prompt mc true w in
       rateLimit adhoc.2 = rateLimit w /\ upserts adhoc.2 = upserts w.
Proof.
  intros Hdry date r out.
  pose proof (prepare_frame env options w) as Hp. cbn zeta in Hp.
  fold date in Hp. fold r in Hp.
  destruct Hp as (Hrl & Hup & _ & Hrun & Hlog & Hdeny).
  assert (Hquiet : rateLimit out.2 = r.2 /\ upserts out.2 = S (upserts w)).
  { subst out. rewrite runTest_unfold.
    destruct (prepare env options w) as [[l| |] w0]; cbn in *; [|done..].
    rewrite Hdry. change (default false (Some true)) with true.
    match goal with
    | |- context [selections ?e ?u ?t true ?tt ?p ?m ?b ?k ?mcs ?rs ?i ?w1] =>
        pose proof (selections_dry_quiet e u t true tt p m b k mcs rs i w1 eq_refl) as Hs;
        destruct (selections e u t true tt p m b k mcs rs i w1) as [[next| |] w']
    end; cbn in Hs |- *; destruct Hs as (H1 & H2 & _); rewrite H1, H2; done. }
  destruct Hquiet as [Hq1 Hq2].
  split; [done|]. split; [done|]. split; [|split].
  - intros Hok. rewrite Hq1. subst r. rewrite Hok.
    pose proof (RateLimitFacts.call_count_of
                  {| RateLimit.nowISO := date; RateLimit.storageOk := true;
                     RateLimit.userId := userId options |}
                  (rateLimit w) (userId options) (RateLimit.windowKey date)) as Hc.
    unfold RateLimit.call, RateLimit.counts in Hc. cbn in Hc.
    rewrite !bool_decide_eq_true_2 in Hc by done. exact Hc.
  - intros Hno. specialize (Hdeny Hno). subst out. rewrite runTest_unfold.
    destruct (prepare env options w) as [[l| |] w0]; cbn in *; [done| |done].
    injection Hdeny as ->. split; [reflexivity|split; assumption].
  - intros uid prompt mc adhoc. subst adhoc.
    unfold runAdHocPrompt, System.bind. cbn [ret].
    destruct (activeKeys _ _ _ !! _) as [k|]; [|done].
    cbn [run_create].
    match goal with
    | |- context [executeRun ?e ?id ?p ?m ?k ?x ?j true ?w0] =>
        pose proof (executeRun_frame e id p m k x j true w0) as Hf;
        destruct (executeRun e id p m k x j true w0) as [[res| |] w3]
    end; cbn in Hf |- *; destruct Hf as (H1 & H2 & _); rewrite H1, H2; done.
Qed.

Lemma dry_run_is_admitted_witness :
  (runTest Demo.env (Demo.options true) (Demo.world 10)).1
  = Throw (Err Error
      "Rate limit exceeded. Please wait a minute before running more tests.")
  /\ RateLimit.count_of (rateLimit (runTest Demo.env (Demo.options true) (Demo.world 10)).2)
       "u1" "2026-01-05T12:00" = 11
  /\ rateLimit (runAdHocPrompt Demo.env "u1" "Say hi" Demo.openai true (Demo.world 10)).2
     = rateLimit (Demo.world 10).
Proof.
  destruct (dry_run_is_admitted Demo.env (Demo.options true) (Demo.world 10) eq_refl)
    as (_ & _ & Hcount & Hdeny & Hadhoc).
  split; [apply Hdeny; reflexivity|].
  split; [apply Hcount; reflexivity|].
  apply Hadhoc.
Defined.

(** C8, as the code has it.  [runTest] with [isDryRun = true] calls no
    adapter, whatever its outcome.  When it returns, it returns one result
    per pair, in order: for a pair whose key resolved, the estimate (status
    [dry_run], no [outputTokens], [inputTokens] the ceiling of a quarter of
    the prompt's length, [estimatedCost] the cost of that input with 500
    output tokens); for a pair whose key did not resolve, the [failed]
    result that says so, dry run or not. *)
Theorem dry_run_estimates (env : Env) (options : RunOptions) (w : World) :
  isDryRun options = Some true ->
  let out := runTest env options w in
  adapterLog out.2 = adapterLog w
  /\ forall rs, out.1 = Return rs ->
       exists l w0, prepare env options w = (Return l, w0)
                    /\ Forall2 (dryOutcome l) (pairs options) rs.
Proof.
  intros Hdry out. subst out. rewrite runTest_unfold.
  pose proof (prepare_frame env options w) as Hp. cbn zeta in Hp.
  destruct Hp as (_ & _ & Hlog & _).
  destruct (prepare env options w) as [[l| |] w0]; cbn in *; [|done..].
  rewrite Hdry. change (default false (Some true)) with true.
  match goal with
  | |- context [selections ?e ?u ?t true ?tt ?p ?m ?b ?k ?mcs ?rs ?i ?w1] =>
      pose proof (selections_dry_quiet e u t true tt p m b k mcs rs i w1 eq_refl) as Hq;
      pose proof (selections_dry_results e u t true tt p m b k mcs rs i w1) as Hr;
      destruct (selections e u t true tt p m b k mcs rs i w1) as [[next| |] w']
  end; cbn in Hq |- *; destruct Hq as (_ & _ & Hq); (split; [congruence|]);
    [|done..].
  intros rs [= <-]. exists l, w0. split; [done|].
  destruct (Hr next w' eq_refl eq_refl) as (new & -> & Hf). exact Hf.
Qed.

Lemma dry_run_estimates_witness :
  adapterLog (runTest Demo.env (Demo.options true) (Demo.world 0)).2 = []
  /\ forall rs, (runTest Demo.env (Demo.options true) (Demo.world 0)).1 = Return rs ->
       exists l w0, prepare Demo.env (Demo.options true) (Demo.world 0) = (Return l, w0)
                    /\ Forall2 (dryOutcome l) [Demo.openai; Demo.anthropic; Demo.google] rs.
Proof.
  exact (dry_run_estimates Demo.env (Demo.options true) (Demo.world 0) eq_refl).
Defined.

(** C8 as stated fails: in a dry run over three selections the one whose
    key is switched off gets a [failed] result. *)
Lemma dry_run_result_failed :
  isDryRun (Demo.options true) = Some true
  /\ match (runTest Demo.env (Demo.options true) (Demo.world 0)).1 with
     | Return rs => map RunResult.status rs = [dry_run; failed; dry_run]
     | _ => False
     end.
Proof. split; [reflexivity|]. vm_compute. reflexivity. Qed.

(** C2, as the code has it.  A [run] row is created [pending]; [executeRun]
    first writes [running], in a dry run too, and when it returns it has
    written one more status, the one of its result: [dry_run] in a dry run,
    [completed] or [failed] otherwise.  When it does not return, the row
    stays [running]. *)
Theorem run_status_path (env : Env) (userId : string) (testId : option string)
    (mc : ModelConfig.t) (prompt : string) (inputVariables : JsObject)
    (batchId : option string) (batchIndex : option nat) (isDryRun : bool)
    (key : KeyMaterial) (e j : option string) (w : World) :
  let id := cuid env (length (run w)) in
  let created :=
    run_create env
      (newRun userId testId mc prompt inputVariables batchId batchIndex isDryRun) w in
  let out := executeRun env id prompt mc key e j isDryRun created.2 in
  created.1
  = Return (newRun userId testId mc prompt inputVariables batchId batchIndex isDryRun id)
  /\ exists tail,
       statusLog out.2 = statusLog w ++ (id, pending) :: (id, running) :: tail
       /\ match out.1 with
          | Return r =>
              tail = [(id, RunResult.status r)]
              /\ RunResult.id r = id
              /\ (if isDryRun then RunResult.status r = dry_run
                  else RunResult.status r = completed \/ RunResult.status r = failed)
          | _ => tail = []
          end.
Proof.
  intros id created out. split; [reflexivity|].
  destruct (executeRun_status_path env id prompt mc key e j isDryRun created.2)
    as (tail & Hlog & Hout).
  exists tail. split; [|exact Hout].
  subst out. rewrite Hlog. subst created. cbn [run_create snd statusLog].
  rewrite <- app_assoc. reflexivity.
Qed.

(** C2 as stated fails: the row of a dry run is written [running] on its
    way from [pending] to [dry_run]. *)
Lemma dry_run_enters_running :
  (runAdHocPrompt Demo.env "u1" "Say hi" Demo.openai true (Demo.world 0)).1
  = Return {| RunResult.id := "run0"; RunResult.status := dry_run;
              RunResult.provider := "openai"; RunResult.model := "gpt-4o";
              RunResult.output := Absent; RunResult.errorMessage := Absent;
              RunResult.latencyMs := Absent;
              RunResult.inputTokens := Value 2%float;
              RunResult.outputTokens := Absent;
              RunResult.estimatedCost := Value 0.0050049999999999999%float;
              RunResult.passed := Absent; RunResult.validationNotes := Absent |}
  /\ statusLog (runAdHocPrompt Demo.env "u1" "Say hi" Demo.openai true (Demo.world 0)).2
     = [("run0", pending); ("run0", running); ("run0", dry_run)].
Proof. split; vm_compute; reflexivity. Qed.

(** When [runTest] returns, it returns a result for every pair: never a
    part of the batch. *)
Lemma runTest_returns_all (env : Env) (options : RunOptions) (w : World)
    (rs : list RunResult.t) (w' : World) :
  runTest env options w = (Return rs, w') -> length rs = length (pairs options).
Proof.
  rewrite runTest_unfold.
  destruct (prepare env options w) as [[l| |] w0]; [|done..].
  destruct (selections _ _ _ _ _ _ _ _ _ _ _ _ _) as [[next| |] w1] eqn:Hs; [|done..].
  intros [= <- _]. apply selections_adds in Hs as (new & -> & Hlen). done.
Qed.

(** The dry branch prices outside the [try]: a provider name that the
    price table inherits makes a dry run throw, and the row stays
    [running]. *)
Example dry_run_inherited_provider :
  (runAdHocPrompt Demo.env "u1" "Say hi"
     {| ModelConfig.provider := "constructor"; ModelConfig.model := "gpt-4o";
        ModelConfig.apiKeyId := "k1" |} true (Demo.world 0)).1
  = Throw (Err TypeError "Cannot read properties of undefined (reading 'gpt-4o')")
  /\ statusLog
       (runAdHocPrompt Demo.env "u1" "Say hi"
          {| ModelConfig.provider := "constructor"; ModelConfig.model := "gpt-4o";
             ModelConfig.apiKeyId := "k1" |} true (Demo.world 0)).2
     = [("run0", pending); ("run0", running)].
Proof. split; vm_compute; reflexivity. Qed.

(** C1, as the code has it.  Take a [runTest] that is not a dry run and
    whose pairs are [done], then [mc], then [rest].  If the turns of [done]
    went through, leaving the results [rs], and the re-check before [mc]
    refuses, then [runTest] throws: it returns no result, and the message of
    the error counts the results produced so far.  Nothing is attempted for
    [mc] or [rest]: the rows and statuses written for [done] are what the
    store holds, and no adapter is called again. *)
Theorem mid_batch_limit_throws (env : Env) (options : RunOptions) (w : World)
    (l : Locals) (w0 : World)
    (done : list ModelConfig.t) (mc : ModelConfig.t) (rest : list ModelConfig.t)
    (rs : list RunResult.t) (i : nat) (w1 : World) :
  default false (isDryRun options) = false ->
  prepare env options w = (Return l, w0) ->
  pairs options = done ++ mc :: rest ->
  selections env (userId options) (testId options) false (the_test l) (prompt l)
    (mergedVariables l) (batchId l) (apiKeyMap l) done [] O w0
  = (Return (rs, i), w1) ->
  RateLimit.allowed
    (RateLimit.checkRateLimit (iso (clock env (clockReads w1)))
       (storage env (upserts w1)) (userId options) (rateLimit w1)).1 = false ->
  let out := runTest env options w in
  out.1 = Throw (Err Error
            ("Rate limit exceeded after " +:+ decimal (Z.of_nat (length rs))
             +:+ " runs. Results so far have been saved."))
  /\ length rs = length done
  /\ run out.2 = run w1
  /\ statusLog out.2 = statusLog w1
  /\ adapterLog out.2 = adapterLog w1.
Proof.
  intros Hdry Hprep Hpairs Hdone Hdeny out. subst out.
  rewrite runTest_unfold, Hprep, Hdry, Hpairs, selections_app, Hdone.
  cbn [fst snd TestRunner.selections]. unfold System.bind.
  pose proof (recheck_spec env (userId options) false rs w1) as Hre.
  cbn zeta in Hre. rewrite Hdeny in Hre.
  erewrite attempt_denied by exact Hre.
  cbn. split; [reflexivity|]. split; [|done].
  apply selections_adds in Hdone as (new & Hnew & Hlen).
  cbn in Hnew. subst rs. done.
Qed.

Lemma mid_batch_limit_throws_witness :
  (runTest Demo.env (Demo.options false) (Demo.world 8)).1
  = Throw (Err Error "Rate limit exceeded after 1 runs. Results so far have been saved.")
  /\ statusLog (runTest Demo.env (Demo.options false) (Demo.world 8)).2
     = [("run0", pending); ("run0", running); ("run0", completed)].
Proof.
  pose (p := prepare Demo.env (Demo.options false) (Demo.world 8)).
  pose (l := match p.1 with
             | Return l => l
             | _ => {| the_test := Demo.t1; prompt := ""; mergedVariables := [];
                       batchId := ""; apiKeyMap := ∅ |}
             end).
  pose (s := selections Demo.env "u1" "t1" false (the_test l) (prompt l)
               (mergedVariables l) (batchId l) (apiKeyMap l) [Demo.openai] [] O p.2).
  pose (rs := match s.1 with Return next => next.1 | _ => [] end).
  pose (i := match s.1 with Return next => next.2 | _ => O end).
  assert (Hprep : prepare Demo.env (Demo.options false) (Demo.world 8) = (Return l, p.2))
    by (vm_compute; reflexivity).
  assert (Hdone : selections Demo.env (userId (Demo.options false))
                    (testId (Demo.options false)) false (the_test l) (prompt l)
                    (mergedVariables l) (batchId l) (apiKeyMap l) [Demo.openai] [] O p.2
                  = (Return (rs, i), s.2))
    by (vm_compute; reflexivity).
  assert (Hdeny : RateLimit.allowed
                    (RateLimit.checkRateLimit (iso (clock Demo.env (clockReads s.2)))
                       (storage Demo.env (upserts s.2)) (userId (Demo.options false))
                       (rateLimit s.2)).1 = false)
    by (vm_compute; reflexivity).
  destruct (mid_batch_limit_throws Demo.env (Demo.options false) (Demo.world 8)
              l p.2 [Demo.openai] Demo.anthropic [Demo.google] rs i s.2
              eq_refl Hprep eq_refl Hdone Hdeny)
    as (Hthrow & _ & _ & Hlog & _).
  split.
  - rewrite Hthrow. vm_compute. reflexivity.
  - rewrite Hlog. vm_compute. reflexivity.
Defined.

(** C1 as stated fails: with three pairs and the limit reached before the
    second, [runTest] throws; the result of the first pair is not
    returned. *)
Lemma mid_batch_limit_returns_nothing :
  length (pairs (Demo.options false)) = 3%nat
  /\ (runTest Demo.env (Demo.options false) (Demo.world 8)).1
     = Throw (Err Error "Rate limit exceeded after 1 runs. Results so far have been saved.")
  /\ length (run (runTest Demo.env (Demo.options false) (Demo.world 8)).2) = 1%nat.
Proof. split; [reflexivity|]. split; vm_compute; reflexivity. Qed.

(** C7.  Take a [runTest] over three selections [a], [b], [c], run once,
    where the key of [b] is switched off (or of another user, or not in the
    store).  Then, the turn of [a] having given [rs1], the re-check before
    [b] having passed and the turn of [c] having given [rs3], [runTest]
    returns exactly three results: the one of [a], then for [b] a [failed]
    result with the empty id and the message API key not found or inactive,
    then the one of [c].  The turn of [b] writes no row and no status. *)
Theorem inactive_key_is_isolated (env : Env) (options : RunOptions) (w : World)
    (l : Locals) (w0 : World) (a b c : ModelConfig.t)
    (rs1 rs3 : list RunResult.t) (i1 i3 : nat) (w1 w2 w3 : World) :
  modelConfigs options = [a; b; c] ->
  default 1%nat (batchCount options) = 1%nat ->
  match apiKey w !! ModelConfig.apiKeyId b with
  | Some k => Prisma.ApiKey.isActive k = false
              \/ Prisma.ApiKey.userId k <> userId options
  | None => True
  end ->
  prepare env options w = (Return l, w0) ->
  attempt env (userId options) (testId options) (default false (isDryRun options))
    (the_test l) (prompt l) (mergedVariables l) (batchId l) (apiKeyMap l)
    a [] O w0 = (Return (rs1, i1), w1) ->
  recheck env (userId options) (default false (isDryRun options)) rs1 w1
  = (Return tt, w2) ->
  attempt env (userId options) (testId options) (default false (isDryRun options))
    (the_test l) (prompt l) (mergedVariables l) (batchId l) (apiKeyMap l)
    c (rs1 ++ [keyNotFound b]) i1 w2 = (Return (rs3, i3), w3) ->
  exists r0 r2,
    runTest env options w = (Return [r0; keyNotFound b; r2], w3)
    /\ rs1 = [r0]
    /\ RunResult.id (keyNotFound b) = ""
    /\ RunResult.status (keyNotFound b) = failed
    /\ RunResult.errorMessage (keyNotFound b) = Value "API key not found or inactive"
    /\ run w2 = run w1
    /\ statusLog w2 = statusLog w1.
Proof.
  intros Hmcs Hcount Hoff Hprep Ha Hb Hc.
  assert (Hkey : apiKeyMap l !! ModelConfig.apiKeyId b = None).
  { destruct (prepare_locals env options w l w0 Hprep) as (_ & _ & _ & _ & ->).
    apply activeKeys_None, Hoff. }
  pose proof Ha as Ha1. apply attempt_adds_one in Ha1 as [r0 Hr0].
  pose proof Hc as Hc1. apply attempt_adds_one in Hc1 as [r2 Hr2].
  cbn in Hr0, Hr2. subst rs1 rs3.
  exists r0, r2.
  assert (Hframe : run w2 = run w1 /\ statusLog w2 = statusLog w1).
  { rewrite recheck_spec in Hb. cbn zeta in Hb.
    destruct (default false (isDryRun options)).
    - injection Hb as <-. done.
    - destruct (RateLimit.allowed _); [|done]. injection Hb as <-. done. }
  split; [|tauto].
  rewrite runTest_unfold, Hprep. unfold pairs. rewrite Hcount, Hmcs.
  cbn [replicate concat app TestRunner.selections]. unfold System.bind.
  rewrite Ha. cbn [fst snd].
  erewrite attempt_key_missing by eassumption. cbn [fst snd].
  rewrite Hc. reflexivity.
Qed.

Lemma inactive_key_is_isolated_witness :
  exists r0 r2,
    (runTest Demo.env (Demo.options false) (Demo.world 0)).1
    = Return [r0; keyNotFound Demo.anthropic; r2]
    /\ RunResult.id r0 = "run0" /\ RunResult.id r2 = "run1".
Proof.
  pose (p := prepare Demo.env (Demo.options false) (Demo.world 0)).
  pose (l := match p.1 with
             | Return l => l
             | _ => {| the_test := Demo.t1; prompt := ""; mergedVariables := [];
                       batchId := ""; apiKeyMap := ∅ |}
             end).
  pose (go := attempt Demo.env (userId (Demo.options false)) (testId (Demo.options false))
                (default false (isDryRun (Demo.options false)))
                (the_test l) (prompt l) (mergedVariables l) (batchId l) (apiKeyMap l)).
  pose (ta := go Demo.openai [] O p.2).
  pose (rs1 := match ta.1 with Return next => next.1 | _ => [] end).
  pose (i1 := match ta.1 with Return next => next.2 | _ => O end).
  pose (tb := recheck Demo.env (userId (Demo.options false))
                (default false (isDryRun (Demo.options false))) rs1 ta.2).
  pose (tc := go Demo.google (rs1 ++ [keyNotFound Demo.anthropic]) i1 tb.2).
  pose (rs3 := match tc.1 with Return next => next.1 | _ => [] end).
  pose (i3 := match tc.1 with Return next => next.2 | _ => O end).
  assert (Hprep : prepare Demo.env (Demo.options false) (Demo.world 0) = (Return l, p.2))
    by (vm_compute; reflexivity).
  assert (Hoff : match apiKey (Demo.world 0) !! ModelConfig.apiKeyId Demo.anthropic with
                 | Some k => Prisma.ApiKey.isActive k = false
                             \/ Prisma.ApiKey.userId k <> userId (Demo.options false)
                 | None => True
                 end)
    by (vm_compute; left; reflexivity).
  assert (Ha : go Demo.openai [] O p.2 = (Return (rs1, i1), ta.2))
    by (vm_compute; reflexivity).
  assert (Hb : recheck Demo.env (userId (Demo.options false))
                 (default false (isDryRun (Demo.options false))) rs1 ta.2
               = (Return tt, tb.2))
    by (vm_compute; reflexivity).
  assert (Hc : go Demo.google (rs1 ++ [keyNotFound Demo.anthropic]) i1 tb.2
               = (Return (rs3, i3), tc.2))
    by (vm_compute; reflexivity).
  destruct (inactive_key_is_isolated Demo.env (Demo.options false) (Demo.world 0)
              l p.2 Demo.openai Demo.anthropic Demo.google rs1 rs3 i1 i3
              ta.2 tb.2 tc.2 eq_refl eq_refl Hoff Hprep Ha Hb Hc)
    as (r0 & r2 & Hrun & Hrs1 & _).
  exists r0, r2. rewrite Hrun. split; [reflexivity|].
  assert (Hres : (runTest Demo.env (Demo.options false) (Demo.world 0)).1
                 = Return [r0; keyNotFound Demo.anthropic; r2])
    by (rewrite Hrun; reflexivity).
  vm_compute in Hres. injection Hres as <- <-. split; reflexivity.
Defined.

End TestRunnerFacts.

(** ** Prices and estimates *)

Module CostFacts.
Import Js Pricing.
Local Arguments Ascii.eqb : simpl never.
Local Arguments String.eqb : simpl never.

(** [Math.ceil(n / 4)] on integers. *)
Lemma ceil_quarter (n : Z) :
  4 * Qceiling (inject_Z n / 4) - 4 < n <= 4 * Qceiling (inject_Z n / 4).
Proof.
  assert (E : Qceiling (inject_Z n / 4) = - ((- n) / 4)).
  { unfold Qceiling, Qfloor, Qdiv, Qmult, Qinv, Qopp, inject_Z. cbn.
    rewrite Z.mul_1_r. reflexivity. }
  rewrite E.
  pose proof (Z.div_mod (- n) 4 ltac:(lia)).
  pose proof (Z.mod_pos_bound (- n) 4 ltac:(lia)). lia.
Qed.

(** The estimate is the number of tokens of four characters that cover the
    text: four times the estimate is at least the length of the text and
    less than the length plus four; it is zero for the empty text only. *)
Theorem estimateTokenCount_bounds (text : string) :
  let n := estimateTokenCount text in
  4 * n - 4 < Z.of_nat (String.length text) <= 4 * n
  /\ (n = 0 <-> text = "").
Proof.
  cbn zeta. unfold estimateTokenCount.
  destruct text as [|c text].
  - change (String.eqb "" "") with true. cbv iota. cbn [String.length].
    split; [lia|]. split; done.
  - change (String.eqb (String c text) "") with false. cbv iota.
    pose proof (ceil_quarter (Z.of_nat (String.length (String c text)))) as H.
    split; [exact H|]. split; [|done].
    intros E. rewrite E in H. cbn [String.length] in H. lia.
Qed.

(** The keys an object has of its own. *)
Lemma own_In {A : Type} (o : list (string * A)) (k : string) :
  own o k <> None <-> In k (map fst o).
Proof.
  induction o as [|[k' a] o IH]; cbn [own map fst In]; [done|].
  destruct (String.eqb k' k) eqn:E.
  - apply String.eqb_eq in E. split; [auto|done].
  - apply String.eqb_neq in E. rewrite IH. split; [auto|]. intros [?|?]; done.
Qed.

(** For a provider and a model that are none of the names an object
    inherits, [calculateCost] returns a cost, and the cost counts as exact
    ([isEstimated] is [false]) exactly when [getModelsForProvider] lists
    the model for the provider. *)
Theorem calculateCost_exact_iff_listed (provider model : string) (i o : float) :
  inherited provider = false ->
  inherited model = false ->
  exists c ms,
    calculateCost provider model i o = Return c
    /\ getModelsForProvider provider = Return ms
    /\ (isEstimated c = false <-> In model ms).
Proof.
  intros Hp Hm. unfold calculateCost, getModelsForProvider, get. rewrite Hp.
  destruct (own PROVIDER_CONFIGS provider) as [cfg|].
  - pose proof (own_In (models cfg) model) as Hin. rewrite Hm.
    destruct (own (models cfg) model) as [p|].
    + eexists _, _. split; [reflexivity|]. split; [reflexivity|]. cbn.
      split; [intros _; apply Hin; done|done].
    + assert (~ In model (map fst (models cfg))) by (rewrite <- Hin; auto).
      destruct (own (models cfg) (defaultModel cfg));
        [|destruct (inherited (defaultModel cfg))];
        (eexists _, _; split; [reflexivity|]; split; [reflexivity|]; cbn; split; done).
  - eexists _, _. split; [reflexivity|]. split; [reflexivity|]. cbn. split; done.
Qed.

(** A model of the table, priced. *)
Lemma calculateCost_exact_iff_listed_witness :
  exists c ms,
    calculateCost "openai" "gpt-4o-mini" 1000 500 = Return c
    /\ getModelsForProvider "openai" = Return ms
    /\ (isEstimated c = false <-> In "gpt-4o-mini" ms).
Proof.
  apply (calculateCost_exact_iff_listed "openai" "gpt-4o-mini" 1000 500); reflexivity.
Defined.

(** For a provider of [getAvailableProviders], a model it does not list
    is priced at the rates of the default model of the provider, as an
    estimate: every default model is in the list of its provider, so the
    flat rate is never used for a provider of the table. *)
Theorem unlisted_model_gets_default_price (provider model : string) (i o : float) :
  In provider (map fst getAvailableProviders) ->
  inherited model = false ->
  (forall ms, getModelsForProvider provider = Return ms -> ~ In model ms) ->
  exists cfg d,
    own PROVIDER_CONFIGS provider = Some cfg
    /\ own (models cfg) (defaultModel cfg) = Some d
    /\ calculateCost provider model i o
       = Return {| cost := linear d i o; isEstimated := true |}.
Proof.
  intros Hp Hm Hms.
  assert (Hcfg : exists cfg, own PROVIDER_CONFIGS provider = Some cfg
                 /\ exists d, own (models cfg) (defaultModel cfg) = Some d).
  { cbn in Hp. repeat (destruct Hp as [<-|Hp]; [eexists; split; [reflexivity|eexists; reflexivity]|]).
    done. }
  destruct Hcfg as (cfg & Hc & d & Hd). exists cfg, d. split; [done|]. split; [done|].
  unfold calculateCost, get. rewrite Hc.
  assert (Hn : own (models cfg) model = None).
  { destruct (own (models cfg) model) eqn:E; [|done]. exfalso.
    eapply (Hms (map fst (models cfg))).
    - unfold getModelsForProvider, get. rewrite Hc. reflexivity.
    - apply own_In. rewrite E. done. }
  rewrite Hn, Hm, Hd. reflexivity.
Qed.

(** A model Anthropic does not list. *)
Lemma unlisted_model_gets_default_price_witness :
  exists cfg d,
    own PROVIDER_CONFIGS "anthropic" = Some cfg
    /\ own (models cfg) (defaultModel cfg) = Some d
    /\ calculateCost "anthropic" "claude-9" 1000 500
       = Return {| cost := linear d 1000 500; isEstimated := true |}.
Proof.
  apply (unlisted_model_gets_default_price "anthropic" "claude-9" 1000 500).
  - cbn. auto.
  - reflexivity.
  - intros ms [= <-]. cbn. intros H. repeat (destruct H as [H|H]; [discriminate H|]). exact H.
Defined.

End CostFacts.

(** ** Keys, the setup check and redaction *)

Module SecretFacts.
Import Js RegExp Encryption RegExpFacts EncryptionFacts.
Local Arguments Ascii.eqb : simpl never.
Local Arguments String.eqb : simpl never.

(** Strings and their characters. *)
Lemma chars_app (a b : string) : chars (a +:+ b) = chars a ++ chars b.
Proof.
  unfold chars. induction a as [|c a IH]; [done|].
  simpl. by rewrite IH.
Qed.

Lemma chars_substring (n m : nat) (s : string) :
  chars (String.substring n m s) = take m (drop n (chars s)).
Proof.
  revert n m. induction s as [|c s IH]; intros n m.
  - destruct n, m; done.
  - destruct n as [|n].
    + destruct m as [|m]; [done|]. cbn. f_equal. apply (IH O m).
    + cbn. apply IH.
Qed.

Lemma chars_inj (a b : string) : chars a = chars b -> a = b.
Proof. intros H. rewrite <- (text_chars a), <- (text_chars b), H. done. Qed.

(** [getKeyLastFour] always gives four characters: the mask for a key
    shorter than four, else the end of the key, so that what it leaves out
    is all of the key but its last four characters. *)
Theorem getKeyLastFour_shape (apiKey : string) :
  String.length (getKeyLastFour apiKey) = 4%nat
  /\ ((String.length apiKey < 4)%nat -> getKeyLastFour apiKey = "****")
  /\ ((4 <= String.length apiKey)%nat ->
      exists hidden, apiKey = hidden +:+ getKeyLastFour apiKey).
Proof.
  unfold getKeyLastFour.
  destruct (Nat.ltb_spec (String.length apiKey) 4) as [Hs|Hl].
  - split; [done|]. split; [done|lia].
  - split; [|split; [lia|]].
    + rewrite <- length_chars, chars_substring. rewrite length_take. rewrite length_drop, length_chars. lia.
    + intros _. exists (text (take (String.length apiKey - 4) (chars apiKey))).
      apply chars_inj. rewrite chars_app, chars_text, chars_substring.
      rewrite (take_ge (drop _ _)) by (rewrite length_drop, length_chars; lia).
      by rewrite take_drop.
Qed.

(** *** Keys that are not hexadecimal *)

(** Reading hexadecimal stops at the first pair that is not two digits: a
    text of even length with a character that is no digit gives fewer
    bytes than it has pairs. *)
Lemma from_hex_chars_stops (l : list ascii) :
  Exists (fun c => hex_value c = None) l ->
  Nat.Even (length l) ->
  (2 * length (from_hex_chars l) < length l)%nat.
Proof.
  remember (length l) as n eqn:Hn.
  revert l Hn. induction n as [n IH] using lt_wf_ind. intros l -> Hex Hev.
  destruct l as [|h [|lo l]].
  - inversion Hex.
  - destruct Hev as [k Hk]. cbn in Hk. lia.
  - cbn [from_hex_chars].
    destruct (hex_value h) eqn:Eh; [|cbn; lia].
    destruct (hex_value lo) eqn:El; [|cbn; lia].
    cbn [length].
    assert (Hex' : Exists (fun c => hex_value c = None) l).
    { inversion Hex as [? ? H0|? ? H0]; subst; [congruence|].
      inversion H0 as [? ? H1|? ? H1]; subst; [congruence|done]. }
    assert (Hev' : Nat.Even (length l)).
    { destruct Hev as [k Hk]. cbn in Hk. exists (k - 1)%nat. lia. }
    specialize (IH (length l) ltac:(cbn; lia) l eq_refl Hex' Hev'). lia.
Qed.

Section BadKey.
Variable gctr : bytes -> bytes -> bytes -> bytes.
Variable gtag : bytes -> bytes -> bytes -> bytes.

(** The check of [getEncryptionKey] is on the length alone.  A key of 64
    characters with one that is no hexadecimal digit passes it, as fewer
    than 32 bytes; [encryptApiKey], with the IV that [randomBytes] gives it,
    then throws the error of the cipher about the key length, and
    [validateEncryptionSetup] the wrapped error, not one that begins with
    FATAL. *)
Theorem non_hex_key_fails_late (key : string) (random : bytes) (plaintext : Text) :
  String.length key = 64%nat ->
  Exists (fun c => hex_value c = None) (chars key) ->
  (exists raw, getEncryptionKey (Some key) = Return raw /\ (length raw < 32)%nat)
  /\ (length random = IV_LENGTH ->
      exists cls, encryptApiKey gctr gtag (Some key) random plaintext
                  = Throw (Err cls "Invalid key length"))
  /\ (exists text, validateEncryptionSetup gctr gtag (Some key) random
                    = Throw (Err Error ("Encryption setup validation failed: " +:+ text))).
Proof.
  intros Hlen Hbad.
  assert (Hget : getEncryptionKey (Some key) = Return (from_hex key)).
  { unfold getEncryptionKey. destruct key; [done|]. rewrite Hlen. done. }
  assert (Hshort : (length (from_hex key) < 32)%nat).
  { unfold from_hex. pose proof (from_hex_chars_stops (chars key) Hbad) as H.
    rewrite length_chars, Hlen in H. specialize (H ltac:(by exists 32%nat)). lia. }
  assert (Hc : forall iv, iv <> [] ->
                 createCipheriv (from_hex key) iv
                 = Throw (Err RangeError "Invalid key length")).
  { intros [|x iv] Hiv; [done|]. unfold createCipheriv. cbn [length Nat.eqb].
    destruct (Nat.eqb_spec (length (from_hex key)) 32); [lia|done]. }
  split; [eauto|]. split.
  - intros Hiv. exists RangeError.
    unfold encryptApiKey. rewrite Hget. cbn [bind]. rewrite Hc; [done|].
    intros ->. done.
  - unfold validateEncryptionSetup. rewrite Hget. cbn [bind].
    unfold encryptApiKey. rewrite Hget. cbn [bind].
    destruct random as [|x random].
    + unfold createCipheriv. cbn [length Nat.eqb bind]. eauto.
    + rewrite Hc by done. cbn [bind]. eauto.
Qed.

End BadKey.

(** A key that begins with g. *)
Lemma non_hex_key_fails_late_witness :
  let key := "g00102030405060708090a0b0c0d0e0f101112131415161718191a1b1c1d1e1f" in
  (exists raw, getEncryptionKey (Some key) = Return raw /\ (length raw < 32)%nat)
  /\ (exists cls,
        encryptApiKey toy_gctr toy_gtag (Some key) (from_hex "a0a1a2a3a4a5a6a7a8a9aaab")
          (units "sk-live-4fA9")
        = Throw (Err cls "Invalid key length"))
  /\ (exists text,
        validateEncryptionSetup toy_gctr toy_gtag (Some key)
          (from_hex "a0a1a2a3a4a5a6a7a8a9aaab")
        = Throw (Err Error ("Encryption setup validation failed: " +:+ text))).
Proof.
  intros key.
  destruct (non_hex_key_fails_late toy_gctr toy_gtag key
              (from_hex "a0a1a2a3a4a5a6a7a8a9aaab") (units "sk-live-4fA9"))
    as (H1 & H2 & H3).
  - reflexivity.
  - apply Exists_cons_hd. reflexivity.
  - split; [exact H1|]. split; [apply H2; reflexivity|exact H3].
Defined.

(** *** validateEncryptionSetup *)

Section Setup.
Variable gctr : bytes -> bytes -> bytes -> bytes.
Variable gtag : bytes -> bytes -> bytes -> bytes.

(** With a key of 32 bytes configured and a cipher that keeps its contract
    (the counter-mode transformation undoes itself, tags are 16 bytes),
    [validateEncryptionSetup] returns: its round trip succeeds. *)
Theorem validateEncryptionSetup_passes (env : option string) (key random : bytes) :
  (forall k iv data, gctr k iv (gctr k iv data) = data) ->
  (forall k iv data, length (gtag k iv data) = AUTH_TAG_LENGTH) ->
  getEncryptionKey env = Return key ->
  length key = 32%nat ->
  length random = IV_LENGTH ->
  validateEncryptionSetup gctr gtag env random = Return tt.
Proof.
  intros Hinv Htag Hkey Hlen Hiv.
  destruct (decrypt_encrypt gctr gtag Hinv Htag env key random (units "test-key-12345")
              Hkey Hlen Hiv (units_JsString _))
    as (d & He & _ & Hd).
  unfold validateEncryptionSetup. rewrite Hkey. cbn [bind]. rewrite He. cbn [bind].
  rewrite Hd, units_wellFormed. cbn [bind].
  rewrite bool_decide_eq_true_2 by reflexivity. done.
Qed.

(** A text begins with what it was built from. *)
Lemma starts_with_prefix (p rest : string) :
  starts_with (chars p) (chars (p +:+ rest)) = true.
Proof. apply starts_with_app. rewrite chars_app. eauto. Qed.

(** Whatever [validateEncryptionSetup] throws is an [Error] whose message
    begins with FATAL: (the error of [getEncryptionKey], passed on as it
    is) or with the words of the wrapper. *)
Theorem validateEncryptionSetup_errors (env : option string) (random : bytes) (e : Thrown) :
  validateEncryptionSetup gctr gtag env random = Throw e ->
  exists message,
    e = Err Error message
    /\ (starts_with (chars "FATAL:") (chars message) = true
        \/ starts_with (chars "Encryption setup validation failed: ") (chars message)
           = true).
Proof.
  unfold validateEncryptionSetup.
  destruct (getEncryptionKey env) as [key|thrown|] eqn:Hkey; cbn [bind].
  - set (body := bind _ _). intros H.
    assert (Hbody : forall cls message, body = Throw (Err cls message) ->
              starts_with (chars "FATAL:") (chars message) = false).
    { subst body. clear H. intros cls message. unfold encryptApiKey. rewrite Hkey.
      cbn [bind]. unfold createCipheriv at 1.
      destruct (_ =? _)%nat; [intros [= <- <-]; done|].
      destruct (negb _); [intros [= <- <-]; done|]. cbn [bind].
      unfold decryptApiKey. rewrite Hkey. cbn [bind iv authTag encryptedKey].
      unfold createCipheriv.
      destruct (_ =? _)%nat; [intros [= <- <-]; done|].
      destruct (negb _); [intros [= <- <-]; done|]. cbn [bind].
      destruct (negb _); [intros [= <- <-]; done|].
      destruct (Nat.odd _); [intros [= <- <-]; done|].
      destruct (bool_decide _); [|intros [= <- <-]; done].
      unfold utf8_decode. destruct (utf8_decode_units _); [|done]. cbn [bind].
      destruct (negb _); [intros [= <- <-]; done|done]. }
    destruct body as [[]|[cls message|]|]; [done| |done|done].
    rewrite (Hbody cls message eq_refl) in H. injection H as <-.
    eexists. split; [reflexivity|]. right. apply starts_with_prefix.
  - unfold getEncryptionKey in Hkey.
    destruct env as [[|c key]|]; [injection Hkey as <-| |injection Hkey as <-].
    + intros [= <-]. eexists. split; [reflexivity|]. left. done.
    + destruct (negb _); [injection Hkey as <-|done].
      intros [= <-]. eexists. split; [reflexivity|]. left. done.
    + intros [= <-]. eexists. split; [reflexivity|]. left. done.
  - done.
Qed.

End Setup.

(** The key and the cipher of the demonstration. *)
Lemma validateEncryptionSetup_passes_witness :
  validateEncryptionSetup toy_gctr toy_gtag
    (Some "000102030405060708090a0b0c0d0e0f101112131415161718191a1b1c1d1e1f")
    (from_hex "a0a1a2a3a4a5a6a7a8a9aaab") = Return tt.
Proof.
  apply (validateEncryptionSetup_passes toy_gctr toy_gtag _
           (from_hex "000102030405060708090a0b0c0d0e0f101112131415161718191a1b1c1d1e1f")).
  - apply toy_gctr_involutive.
  - apply toy_gtag_length.
  - reflexivity.
  - reflexivity.
  - reflexivity.
Defined.

(** A key of four characters. *)
Lemma validateEncryptionSetup_errors_witness :
  exists message,
    Err Error
      "FATAL: APP_ENCRYPTION_KEY must be exactly 64 hex characters (32 bytes). Generate with: openssl rand -hex 32"
    = Err Error message
    /\ (starts_with (chars "FATAL:") (chars message) = true
        \/ starts_with (chars "Encryption setup validation failed: ") (chars message)
           = true).
Proof.
  apply (validateEncryptionSetup_errors toy_gctr toy_gtag (Some "0001") []).
  reflexivity.
Defined.

(** *** Redaction *)

(** Replacing a text that does not occur changes nothing. *)
Lemma scan_absent (p r s : list ascii) :
  p <> [] -> mem "$" r = false -> includes_from s p = false -> scan p r s = s.
Proof.
  intros Hp Hr. induction s as [|c s IH]; intros Hin.
  - by apply scan_nil.
  - cbn [includes_from] in Hin. apply orb_false_elim in Hin as [Hst Hin].
    rewrite scan_miss by done. by rewrite IH.
Qed.

(** A key of eight characters is not empty. *)
Lemma long_nonempty (apiKey : string) :
  (8 <= String.length apiKey)%nat -> chars apiKey <> [].
Proof. destruct apiKey; cbn; [lia|done]. Qed.

(** [redactApiKey] leaves a text in which the key does not occur as it
    is: the key is matched character by character, the characters that
    mean something in a regular expression included. *)
Theorem redactApiKey_absent (text apiKey : string) :
  includes text apiKey = false -> redactApiKey text apiKey = Return text.
Proof.
  intros Hin.
  destruct (Nat.ltb_spec (String.length apiKey) 8) as [Hs|Hl].
  - unfold redactApiKey. rewrite (proj2 (Nat.ltb_lt _ _) Hs), orb_true_r. done.
  - rewrite redactApiKey_long by done. unfold redacted.
    rewrite scan_absent; [by rewrite text_chars|by apply long_nonempty|done|done].
Qed.

(** A key with dots, and a text that the dots would match as a
    pattern. *)
Lemma redactApiKey_absent_witness :
  redactApiKey "401 for skXliveX1234" "sk.live.1234" = Return "401 for skXliveX1234".
Proof. apply (redactApiKey_absent "401 for skXliveX1234" "sk.live.1234"). reflexivity. Defined.

(** Redacting what has been redacted changes nothing. *)
Lemma redacted_twice (p s : list ascii) :
  (8 <= length p)%nat ->
  mem "[" p = false ->
  mem "]" p = false ->
  p <> chars "REDACTED" ->
  redacted p (redacted p s) = redacted p s.
Proof.
  intros Hl Ho Hc Hw. unfold redacted at 1. apply scan_absent.
  - destruct p; [cbn in Hl; lia|done].
  - done.
  - by apply redacted_clear.
Qed.

(** Redacting twice is redacting once, for a key without brackets that is
    not the word REDACTED: the adapters redact the message of an error
    where they throw it and again where they catch it. *)
Theorem redactApiKey_idempotent (text apiKey out : string) :
  includes apiKey "[" = false ->
  includes apiKey "]" = false ->
  apiKey <> "REDACTED" ->
  redactApiKey text apiKey = Return out ->
  redactApiKey out apiKey = Return out.
Proof.
  intros Hopen Hclose Hword.
  destruct (Nat.ltb_spec (String.length apiKey) 8) as [Hs|Hl].
  - unfold redactApiKey. rewrite (proj2 (Nat.ltb_lt _ _) Hs), orb_true_r.
    by intros [= <-].
  - rewrite !redactApiKey_long by done. intros [= <-]. rewrite chars_text.
    rewrite includes_char in Hopen, Hclose.
    rewrite redacted_twice; [done|by rewrite length_chars|done|done|].
    intros E. apply Hword. rewrite <- (text_chars apiKey), E. reflexivity.
Qed.

(** A message with the key in it twice. *)
Lemma redactApiKey_idempotent_witness :
  redactApiKey "bad key [REDACTED] ([REDACTED])" "sk-live-4fA9"
  = Return "bad key [REDACTED] ([REDACTED])".
Proof.
  apply (redactApiKey_idempotent "bad key sk-live-4fA9 (sk-live-4fA9)" "sk-live-4fA9");
    [reflexivity|reflexivity|discriminate|reflexivity].
Defined.

End SecretFacts.

(** ** The limiter over time *)

Module LimiterFacts.
Import RateLimit RateLimitFacts.
Local Arguments Ascii.eqb : simpl never.
Local Arguments String.eqb : simpl never.

(** Counting the calls of a window. *)
Lemma hits_nonneg (u w : string) (cs : list Call) : 0 <= hits u w cs.
Proof. induction cs as [|c cs IH]; cbn [hits]; [lia|]. destruct (counts u w c); lia. Qed.

Lemma hits_app (u w : string) (a b : list Call) :
  hits u w (a ++ b) = hits u w a + hits u w b.
Proof. induction a as [|c a IH]; cbn [hits app]; [lia|]. rewrite IH. lia. Qed.

Lemma hits_filter (c : Call) (cs : list Call) :
  hits (userId c) (windowKey (nowISO c)) (filter (fun c' => same_window c c' = true) cs)
  = hits (userId c) (windowKey (nowISO c)) cs.
Proof.
  induction cs as [|c' cs IH]; [done|].
  assert (Hc : counts (userId c) (windowKey (nowISO c)) c'
               = storageOk c' && same_window c c').
  { unfold counts, same_window. by rewrite andb_assoc. }
  rewrite filter_cons. destruct (decide _) as [Heq|Hne]; cbn [hits]; rewrite IH; [done|].
  rewrite Hc. destruct (same_window c c'); [done|]. rewrite andb_false_r. lia.
Qed.

(** On a table that calls of the limiter have filled from nothing,
    [remaining] lies between 0 and the maximum; a call that is denied has
    nothing remaining; and only a call whose upsert failed sees the whole
    maximum remaining. *)
Theorem checkRateLimit_reachable (before : list Call) (c : Call) :
  let r := (call c (calls before ∅)).1 in
  0 <= remaining r <= MAX_RUNS_PER_MINUTE
  /\ (allowed r = false -> remaining r = 0)
  /\ (remaining r = MAX_RUNS_PER_MINUTE -> storageOk c = false).
Proof.
  cbn zeta. rewrite call_result. unfold count_of.
  destruct (storageOk c) eqn:Hok; [|cbn; unfold MAX_RUNS_PER_MINUTE; split; [lia|done]].
  pose proof (calls_count_of before ∅ (userId c) (windowKey (nowISO c))) as Hc.
  unfold count_of in Hc. rewrite Hc, lookup_empty. cbn [default].
  pose proof (hits_nonneg (userId c) (windowKey (nowISO c)) before).
  cbn [allowed remaining]. unfold MAX_RUNS_PER_MINUTE.
  split; [lia|]. split; [|lia].
  intros Hd. apply Z.leb_gt in Hd. lia.
Qed.

(** What a call is told depends on the earlier calls of the same user in
    the same minute only: calls of other users, and calls in other
    minutes, can be left out. *)
Theorem checkRateLimit_own_window (t : Table) (before : list Call) (c : Call) :
  (call c (calls before t)).1
  = (call c (calls (filter (fun c' => same_window c c' = true) before) t)).1.
Proof.
  destruct (storageOk c) eqn:Hok.
  - rewrite !call_after by done. by rewrite hits_filter.
  - rewrite !call_result, Hok. done.
Qed.

(** Once a call is denied, every later call of the user in that minute
    that reaches the store is denied too, whatever happens in between. *)
Theorem checkRateLimit_stays_denied (t : Table) (before more : list Call) (c c' : Call) :
  allowed (call c (calls before t)).1 = false ->
  storageOk c' = true ->
  userId c' = userId c ->
  windowKey (nowISO c') = windowKey (nowISO c) ->
  allowed (call c' (calls (before ++ c :: more) t)).1 = false.
Proof.
  intros Hd Hok Hu Hw.
  destruct (storageOk c) eqn:Hc; [|by rewrite call_result, Hc in Hd].
  rewrite call_after in Hd by done. rewrite call_after by done.
  cbn [allowed] in *. rewrite Hu, Hw. apply Z.leb_gt in Hd. apply Z.leb_gt.
  rewrite hits_app. cbn [hits].
  pose proof (hits_nonneg (userId c) (windowKey (nowISO c)) more).
  destruct (counts _ _ c); lia.
Qed.

(** Ten calls, the denied eleventh, a call of someone else, and the
    twelfth. *)
Lemma checkRateLimit_stays_denied_witness :
  allowed (call (Demo.check "2026-01-05T12:00:59.000Z" "u1")
             (calls (replicate 10 (Demo.check "2026-01-05T12:00:07.503Z" "u1")
                     ++ Demo.check "2026-01-05T12:00:30.000Z" "u1"
                        :: [Demo.check "2026-01-05T12:00:31.000Z" "u2"]) ∅)).1 = false.
Proof.
  apply (checkRateLimit_stays_denied ∅
           (replicate 10 (Demo.check "2026-01-05T12:00:07.503Z" "u1"))
           [Demo.check "2026-01-05T12:00:31.000Z" "u2"]
           (Demo.check "2026-01-05T12:00:30.000Z" "u1")
           (Demo.check "2026-01-05T12:00:59.000Z" "u1")).
  - vm_compute. reflexivity.
  - reflexivity.
  - reflexivity.
  - reflexivity.
Defined.

End LimiterFacts.

(** ** Verdicts *)

Module ValidationFacts.
Import Js RegExp Validation RegExpFacts.
Local Arguments Ascii.eqb : simpl never.
Local Arguments String.eqb : simpl never.

(** [s.includes(sub)], on strings. *)
Lemma includes_spec (s sub : string) :
  includes s sub = true <-> exists a b, s = a +:+ sub +:+ b.
Proof.
  unfold includes. rewrite includes_from_spec. split.
  - intros (a & b & E). exists (text a), (text b).
    rewrite <- (text_chars s), E, <- (text_chars (_ +:+ _)).
    by rewrite !SecretFacts.chars_app, !chars_text.
  - intros (a & b & ->). exists (chars a), (chars b). by rewrite !SecretFacts.chars_app.
Qed.

(** [validateOutput] gives no verdict exactly when neither rule is set, an
    empty rule counting as none.  A verdict passes exactly when the output
    holds the expected text, if that rule is set, and the schema check
    passes, if that one is. *)
Theorem validateOutput_verdict (validateJsonSchema : string -> string -> ValidationResult)
    (output : string) (expectedContains jsonSchema : option string) :
  (validateOutput validateJsonSchema output expectedContains jsonSchema = None
   <-> (expectedContains = None \/ expectedContains = Some "")
       /\ (jsonSchema = None \/ jsonSchema = Some ""))
  /\ forall r,
       validateOutput validateJsonSchema output expectedContains jsonSchema = Some r ->
       passed r = true
       <-> (forall e, expectedContains = Some e -> e <> "" ->
              exists a b, output = a +:+ e +:+ b)
           /\ (forall s, jsonSchema = Some s -> s <> "" ->
                 passed (validateJsonSchema output s) = true).
Proof.
  unfold validateOutput. split.
  - destruct expectedContains as [[|c e]|], jsonSchema as [[|d s]|];
      cbn [truthy]; split; try done; auto;
      intros [[H1|H1] [H2|H2]]; discriminate.
  - intros r.
    destruct expectedContains as [[|c e]|], jsonSchema as [[|d s]|];
      cbn [truthy app forallb map passed validateContains]; try done;
      intros [= <-]; cbn [passed];
      rewrite ?andb_true_r, ?andb_true_iff, ?includes_spec.
    all: split;
      [intros H; split; [intros ? [= <-] ?|intros ? [= <-] ?]; try done; apply H
      |intros [H1 H2]; repeat split; first [by apply H1|by apply H2|done]].
Qed.

End ValidationFacts.

(** ** The runner: errors, rows, budget and calls *)

Module RunnerFacts.
Import Js RegExp Providers Validation System TestRunner TestRunnerFacts.
Local Arguments Ascii.eqb : simpl never.
Local Arguments String.eqb : simpl never.

(** *** Keys that are not the caller's *)

(** [runAdHocPrompt] with a key that is switched off, or of another user,
    or not there: once past the limiter it returns the failed result for a
    key not found; it creates no run and calls no provider. *)
Theorem runAdHocPrompt_unusable_key (env : Env) (uid prompt : string)
    (mc : ModelConfig.t) (isDryRun : bool) (w : World) :
  match apiKey w !! ModelConfig.apiKeyId mc with
  | Some k => Prisma.ApiKey.isActive k = false \/ Prisma.ApiKey.userId k <> uid
  | None => True
  end ->
  let out := runAdHocPrompt env uid prompt mc isDryRun w in
  run out.2 = run w /\ statusLog out.2 = statusLog w /\ adapterLog out.2 = adapterLog w
  /\ (out.1 = Return (keyNotFound mc)
      \/ isDryRun = false
         /\ out.1 = Throw (Err Error
              "Rate limit exceeded. Please wait a minute before running more tests.")).
Proof.
  intros Hkey. cbn zeta.
  pose proof (activeKeys_None [ModelConfig.apiKeyId mc] uid (ModelConfig.apiKeyId mc)
                (apiKey w) Hkey) as Hnone.
  unfold runAdHocPrompt. destruct isDryRun.
  - unfold System.bind. cbn [ret]. rewrite Hnone. cbn. auto.
  - step_m. cbn -[RateLimit.checkRateLimit activeKeys].
    destruct (RateLimit.checkRateLimit _ _ _ _) as [r t].
    cbn -[activeKeys].
    destruct (RateLimit.allowed r); cbn -[activeKeys]; [|auto 10].
    rewrite Hnone. cbn. auto.
Qed.

(** The key of the demonstration that is switched off. *)
Lemma runAdHocPrompt_unusable_key_witness :
  let out := runAdHocPrompt Demo.env "u1" "Say hi" Demo.anthropic false (Demo.world 0) in
  run out.2 = run (Demo.world 0) /\ statusLog out.2 = statusLog (Demo.world 0)
  /\ adapterLog out.2 = adapterLog (Demo.world 0)
  /\ (out.1 = Return (keyNotFound Demo.anthropic)
      \/ false = false
         /\ out.1 = Throw (Err Error
              "Rate limit exceeded. Please wait a minute before running more tests.")).
Proof.
  apply (runAdHocPrompt_unusable_key Demo.env "u1" "Say hi" Demo.anthropic false
           (Demo.world 0)).
  vm_compute. left. reflexivity.
Defined.

(** *** What the runner throws *)





(** A source that is read as a pattern is one the constructor accepts. *)
Lemma plain_atom_char (c : ascii) (a : Atom) :
  plain_atom c = Some a ->
  Ascii.eqb c "*" || Ascii.eqb c "+" = false
  /\ Ascii.eqb c "?" = false
  /\ Ascii.eqb c ")" = false
  /\ Ascii.eqb c "|" || Ascii.eqb c "^" || Ascii.eqb c "$" = false
  /\ Ascii.eqb c "]" || Ascii.eqb c "}" = false.
Proof.
  destruct c as [[] [] [] [] [] [] [] []]; cbv; intros H;
    first [discriminate H|repeat split].
Qed.

Lemma item_Some (a : Atom) (starred : bool) (rest : option Pattern) (p : Pattern) :
  item a starred rest = Some p -> exists p', rest = Some p'.
Proof. destruct rest; [eauto|done]. Qed.

Lemma parse_accepted (src : list ascii) (p : Pattern) :
  parse src = Some p -> forall quantifiable lazy, syntax quantifiable lazy src = Accepted.
Proof.
  remember (length src) as n eqn:Hn. revert src p Hn.
  induction n as [n IH] using lt_wf_ind. intros src p -> Hp quantifiable lazy.
  assert (Hrest : forall a rest p0,
            (length rest < length src)%nat ->
            match rest with
            | q :: rest' =>
                if Ascii.eqb q "*" then item a true (parse rest')
                else item a false (parse rest)
            | [] => item a false (parse rest)
            end = Some p0 ->
            syntax true false rest = Accepted).
  { intros a [|q rest'] p0 Hlen H; [done|].
    destruct (Ascii.eqb_spec q "*") as [->|Hq].
    - apply item_Some in H as [p' H]. cbn [syntax].
      change (Ascii.eqb "*" "\") with false. change (Ascii.eqb "*" "*") with true.
      cbn [orb]. cbv iota. eapply (IH (length rest')); [cbn in *; lia|done|exact H].
    - apply item_Some in H as [p' H].
      eapply (IH (length (q :: rest'))); [lia|done|exact H]. }
  destruct src as [|c rest]; [done|]. cbn [parse syntax] in *.
  destruct (Ascii.eqb c "\").
  - destruct rest as [|e rest']; [done|].
    destruct (escaped_atom e) as [a|]; [|done].
    eapply Hrest; [|exact Hp]. cbn. lia.
  - destruct (plain_atom c) as [a|] eqn:Ha; [|done].
    destruct (plain_atom_char c a Ha) as (-> & -> & -> & -> & ->).
    eapply Hrest; [|exact Hp]. cbn. lia.
Qed.



Section LiveLoop.
Variable env : Env.
Variables (userId testId : string).
Variable test : Prisma.Test.t.
Variables (prompt : string) (mergedVariables : JsObject) (batchId : string).
Variable apiKeyMap : gmap string Prisma.ApiKey.t.



End LiveLoop.



(** *** A test that is not the caller's *)

(** [runTest] on a test of another user does what it does on a test that
    is not there: it throws Test not found (or the refusal of the limiter),
    having created no run and called no provider; the call has been counted
    by the limiter. *)
Theorem runTest_foreign_test (env : Env) (options : RunOptions) (w : World) :
  match test w !! testId options with
  | Some t => Prisma.Test.userId t <> userId options
  | None => True
  end ->
  let out := runTest env options w in
  (out.1 = Throw (Err Error "Test not found") \/ out.1 = Throw admission)
  /\ run out.2 = run w /\ statusLog out.2 = statusLog w
  /\ adapterLog out.2 = adapterLog w
  /\ upserts out.2 = S (upserts w).
Proof.
  intros Hforeign. cbn zeta. rewrite runTest_unfold.
  pose proof (prepare_frame env options w) as Hf. cbn zeta in Hf.
  destruct Hf as (_ & Hup & Had & Hrun & Hlog & _).
  assert (Hp : (prepare env options w).1 = Throw (Err Error "Test not found")
               \/ (prepare env options w).1 = Throw admission).
  { unfold prepare. step_m. cbn -[RateLimit.checkRateLimit].
    destruct (RateLimit.checkRateLimit _ _ _ _) as [r t]. cbn.
    destruct (RateLimit.allowed r); cbn; [|by right].
    destruct (test w !! testId options) as [t1|]; cbn; [|by left].
    destruct (String.eqb_spec (Prisma.Test.userId t1) (userId options)); [done|].
    cbn. by left. }
  destruct (prepare env options w) as [[l|err|] w0]; cbn in *;
    [by destruct Hp| |by destruct Hp].
  split; [destruct Hp as [[= ->]|[= ->]]; auto|]. repeat split; assumption.
Qed.

(** The test of u1, asked for by u2. *)
Lemma runTest_foreign_test_witness :
  let options :=
    {| testId := "t1"; modelConfigs := [Demo.openai]; variables := None;
       batchCount := None; isDryRun := None; userId := "u2" |} in
  let out := runTest Demo.env options (Demo.world 0) in
  (out.1 = Throw (Err Error "Test not found") \/ out.1 = Throw admission)
  /\ run out.2 = run (Demo.world 0) /\ statusLog out.2 = statusLog (Demo.world 0)
  /\ adapterLog out.2 = adapterLog (Demo.world 0)
  /\ upserts out.2 = S (upserts (Demo.world 0)).
Proof.
  apply (runTest_foreign_test Demo.env
           {| testId := "t1"; modelConfigs := [Demo.openai]; variables := None;
              batchCount := None; isDryRun := None; userId := "u2" |} (Demo.world 0)).
  vm_compute. discriminate.
Defined.

(** A step of a computation. *)
Lemma bind_unfold {A B : Type} (m : M A) (k : A -> M B) (w : World) :
  System.bind m k w
  = match m w with
    | (Return a, w') => k a w'
    | (Throw e, w') => (Throw e, w')
    | (Unmodelled, w') => (Unmodelled, w')
    end.
Proof. reflexivity. Qed.

(** *** The rows of a batch *)

(** What an update of a run leaves as it is. *)
Lemma update_keeps {A : Type} (f : Prisma.Run.t -> A) (runId : string)
    (data : Prisma.Run.t -> Prisma.Run.t) (rows : list Prisma.Run.t) :
  (forall r, f (data r) = f r) ->
  map f (map (fun r => if String.eqb (Prisma.Run.id r) runId then data r else r) rows)
  = map f rows.
Proof.
  intros H. rewrite map_map. apply map_ext. intros r.
  destruct (String.eqb _ _); [apply H|done].
Qed.

Lemma executeRun_keeps {A : Type} (f : Prisma.Run.t -> A) (env : Env)
    (runId prompt : string) (mc : ModelConfig.t) (key : KeyMaterial)
    (e j : option string) (isDryRun : bool) (w : World) :
  (forall r, f (set_running r) = f r) ->
  (forall a b c r, f (set_dry_run a b c r) = f r) ->
  (forall a b c d e' g h v t r, f (set_completed a b c d e' g h v t r) = f r) ->
  (forall a b c r, f (set_failed a b c r) = f r) ->
  map f (run (executeRun env runId prompt mc key e j isDryRun w).2) = map f (run w).
Proof.
  intros H1 H2 H3 H4. step_m. destruct isDryRun.
  - destruct (Pricing.calculateCost _ _ _ _); cbn; rewrite !update_keeps; auto.
  - destruct (Encryption.decryptApiKey _ _ _ _); cbn; [|rewrite !update_keeps; auto..].
    destruct (narrow _); cbn; [|rewrite !update_keeps; auto..].
    destruct (getAdapter _); cbn; [|rewrite !update_keeps; auto].
    destruct (complete _ _ _ _); cbn; [|rewrite !update_keeps; auto].
    destruct (Pricing.calculateCost _ _ _ _); cbn; rewrite !update_keeps; auto.
Qed.

Section Rows.
Variable env : Env.
Variables (userId testId : string) (isDryRun : bool).
Variable test : Prisma.Test.t.
Variables (prompt : string) (mergedVariables : JsObject) (batchId : string).
Variable apiKeyMap : gmap string Prisma.ApiKey.t.

Lemma attempt_rows (mc : ModelConfig.t) (rs : list RunResult.t) (i : nat) (w : World) :
  let out := attempt env userId testId isDryRun test prompt mergedVariables batchId
               apiKeyMap mc rs i w in
  exists k, (k <= 1)%nat
    /\ map Prisma.Run.batchIndex (run out.2)
       = map Prisma.Run.batchIndex (run w) ++ map Some (seq i k)
    /\ map Prisma.Run.batchId (run out.2)
       = map Prisma.Run.batchId (run w) ++ replicate k (Some batchId)
    /\ forall next, out.1 = Return next ->
         next.2 = (i + k)%nat /\ k = length (resolved apiKeyMap [mc]).
Proof.
  cbn zeta. unfold attempt. rewrite bind_unfold, recheck_spec. cbv zeta.
  assert (Hzero : forall w1 : World, run w1 = run w ->
            map Prisma.Run.batchIndex (run w1)
            = map Prisma.Run.batchIndex (run w) ++ map Some (seq i 0)
            /\ map Prisma.Run.batchId (run w1)
               = map Prisma.Run.batchId (run w) ++ replicate 0 (Some batchId)).
  { intros w1 ->. cbn. by rewrite !app_nil_r. }
  assert (Hmain : forall w1 : World, run w1 = run w ->
    let out :=
      match apiKeyMap !! ModelConfig.apiKeyId mc with
      | Some apiKey =>
          System.bind
            (run_create env
               (newRun userId (Some testId) mc prompt mergedVariables (Some batchId)
                  (Some i) isDryRun))
            (fun run =>
               System.bind
                 (executeRun env (Prisma.Run.id run) prompt mc (keyMaterial apiKey)
                    (Prisma.Test.expectedContains test) (Prisma.Test.jsonSchema test)
                    isDryRun)
                 (fun result => ret (rs ++ [result], S i)))
      | None => ret (rs ++ [keyNotFound mc], i)
      end w1 in
    exists k, (k <= 1)%nat
      /\ map Prisma.Run.batchIndex (run out.2)
         = map Prisma.Run.batchIndex (run w) ++ map Some (seq i k)
      /\ map Prisma.Run.batchId (run out.2)
         = map Prisma.Run.batchId (run w) ++ replicate k (Some batchId)
      /\ forall next, out.1 = Return next ->
           next.2 = (i + k)%nat /\ k = length (resolved apiKeyMap [mc])).
  { intros w1 Hw1. cbn zeta. unfold resolved. rewrite filter_cons, filter_nil.
    destruct (apiKeyMap !! ModelConfig.apiKeyId mc) as [k|] eqn:Hk.
    - rewrite decide_True by eauto.
      exists 1%nat. split; [lia|].
      unfold System.bind. cbn [run_create].
      match goal with
      | |- context [executeRun ?e ?id ?p ?m ?kk ?x ?j ?d ?w0] =>
          pose proof (executeRun_keeps Prisma.Run.batchIndex e id p m kk x j d w0
                        ltac:(done) ltac:(done) ltac:(done) ltac:(done)) as Hi;
          pose proof (executeRun_keeps Prisma.Run.batchId e id p m kk x j d w0
                        ltac:(done) ltac:(done) ltac:(done) ltac:(done)) as Hb;
          destruct (executeRun e id p m kk x j d w0) as [[res| |] w3]
      end; cbn in Hi, Hb |- *; rewrite Hi, Hb, !map_app, Hw1; cbn;
        (split; [done|]); (split; [done|]); [|done..].
      intros next [= <-]. cbn. split; [lia|done].
    - rewrite decide_False by (intros [? ?]; done).
      exists 0%nat. split; [lia|]. cbn [ret fst snd].
      destruct (Hzero w1 Hw1) as [-> ->]. split; [done|]. split; [done|].
      intros next [= <-]. cbn. split; [lia|done]. }
  destruct isDryRun.
  - apply Hmain. done.
  - destruct (RateLimit.allowed _).
    + apply Hmain. done.
    + exists 0%nat. split; [lia|]. cbn [fst snd].
      match goal with |- context [map _ (run ?w1)] => destruct (Hzero w1 eq_refl) as [-> ->] end.
      split; [done|]. split; [done|]. done.
Qed.

Lemma selections_rows (mcs : list ModelConfig.t) (rs : list RunResult.t) (i : nat)
    (w : World) :
  let out := selections env userId testId isDryRun test prompt mergedVariables batchId
               apiKeyMap mcs rs i w in
  exists k, (k <= length mcs)%nat
    /\ map Prisma.Run.batchIndex (run out.2)
       = map Prisma.Run.batchIndex (run w) ++ map Some (seq i k)
    /\ map Prisma.Run.batchId (run out.2)
       = map Prisma.Run.batchId (run w) ++ replicate k (Some batchId)
    /\ forall next, out.1 = Return next ->
         next.2 = (i + k)%nat /\ k = length (resolved apiKeyMap mcs).
Proof.
  cbn zeta. revert rs i w. induction mcs as [|mc mcs IH]; intros rs i w.
  - exists 0%nat. cbn. rewrite !app_nil_r. split; [lia|]. split; [done|]. split; [done|].
    intros next [= <-]. cbn. split; [lia|done].
  - cbn [selections]. unfold System.bind.
    destruct (attempt_rows mc rs i w) as (k1 & Hk1 & Hi1 & Hb1 & Hn1). cbn zeta in *.
    destruct (attempt _ _ _ _ _ _ _ _ _ _ _ _ _) as [[next| |] w1] eqn:Ha;
      cbn [fst snd] in *.
    + destruct (Hn1 next eq_refl) as [Hnext Hres].
      destruct (IH next.1 next.2 w1) as (k2 & Hk2 & Hi2 & Hb2 & Hn2).
      exists (k1 + k2)%nat. split; [cbn [length]; lia|].
      rewrite Hnext in Hi2, Hb2, Hn2 |- *.
      rewrite Hi2, Hb2, Hi1, Hb1, <- !app_assoc, seq_app, map_app.
      rewrite replicate_add. split; [done|]. split; [done|].
      intros nn Hnn. destruct (Hn2 nn Hnn) as [-> ->]. split; [lia|].
      rewrite Hres. unfold resolved. rewrite <- length_app.
      change (mc :: mcs) with ([mc] ++ mcs). by rewrite filter_app.
    + exists k1. split; [cbn [length]; lia|]. split; [done|]. split; [done|]. done.
    + exists k1. split; [cbn [length]; lia|]. split; [done|]. split; [done|]. done.
Qed.

End Rows.

(** The rows [runTest] adds to [run] are numbered 0, 1, 2, ... by
    [batchIndex] in the order they are created, all under the batch id of
    the call; a selection whose key did not resolve takes no number.  When
    [runTest] returns there is one row for each pair whose key resolved. *)
Theorem runTest_batch_rows (env : Env) (options : RunOptions) (w : World)
    (l : Locals) (w0 : World) :
  prepare env options w = (Return l, w0) ->
  let out := runTest env options w in
  exists k, (k <= length (pairs options))%nat
    /\ map Prisma.Run.batchIndex (run out.2)
       = map Prisma.Run.batchIndex (run w) ++ map Some (seq 0 k)
    /\ map Prisma.Run.batchId (run out.2)
       = map Prisma.Run.batchId (run w) ++ replicate k (Some (batchId l))
    /\ forall rs, out.1 = Return rs ->
         k = length (resolved (apiKeyMap l) (pairs options)).
Proof.
  intros Hp. cbn zeta. rewrite runTest_unfold.
  pose proof (prepare_frame env options w) as Hf. cbn zeta in Hf.
  destruct Hf as (_ & _ & _ & Hrun & _). rewrite Hp in Hrun |- *. cbn [snd] in Hrun.
  match goal with
  | |- context [selections ?e ?u ?t ?d ?tt ?p ?m ?b ?k ?mcs ?rs ?i ?w1] =>
      destruct (selections_rows e u t d tt p m b k mcs rs i w1) as (n & Hn & Hi & Hb & Hr);
      destruct (selections e u t d tt p m b k mcs rs i w1) as [[next| |] w'] eqn:Hs
  end; cbn [fst snd] in *; rewrite Hrun in Hi, Hb; exists n;
    (split; [done|]); (split; [done|]); (split; [done|]); [|done..].
  intros rs _. by destruct (Hr next eq_refl).
Qed.


(** Three selections, the second on a key that is switched off: rows 0
    and 1. *)
Lemma runTest_batch_rows_witness :
  let out := runTest Demo.env (Demo.options false) (Demo.world 0) in
  exists k, (k <= 3)%nat
    /\ map Prisma.Run.batchIndex (run out.2) = [] ++ map Some (seq 0 k)
    /\ map Prisma.Run.batchId (run out.2)
       = [] ++ replicate k (Some "batch_1767614407603_k3x9qa")
    /\ forall rs, out.1 = Return rs -> k = 2%nat.
Proof.
  eassert (Hp : prepare Demo.env (Demo.options false) (Demo.world 0) = (Return _, _))
    by (vm_compute; reflexivity).
  exact (runTest_batch_rows Demo.env (Demo.options false) (Demo.world 0) _ _ Hp).
Defined.

(** *** The budget of a minute *)

(** A call of the limiter that reaches the store. *)
Lemma check_counts (iso u : string) (t : gmap (string * string) Z) :
  let r := RateLimit.checkRateLimit iso true u t in
  RateLimit.count_of r.2 u (RateLimit.windowKey iso)
  = RateLimit.count_of t u (RateLimit.windowKey iso) + 1
  /\ RateLimit.allowed r.1
     = (RateLimit.count_of t u (RateLimit.windowKey iso) + 1 <=? 10).
Proof.
  cbn zeta.
  pose (c := {| RateLimit.nowISO := iso; RateLimit.storageOk := true;
                RateLimit.userId := u |}).
  pose proof (RateLimitFacts.call_count_of c t u (RateLimit.windowKey iso)) as Hc.
  pose proof (RateLimitFacts.call_result c t) as Hr.
  unfold RateLimit.call, RateLimit.counts in Hc, Hr. subst c.
  cbn [RateLimit.nowISO RateLimit.storageOk RateLimit.userId andb] in Hc, Hr.
  rewrite !bool_decide_eq_true_2 in Hc by done. split; [exact Hc|].
  rewrite Hr. done.
Qed.

Section Budget.
Variable env : Env.
Variables (userId testId : string).
Variable test : Prisma.Test.t.
Variables (prompt : string) (mergedVariables : JsObject) (batchId : string).
Variable apiKeyMap : gmap string Prisma.ApiKey.t.
Variable wk : string.
Hypothesis storage_ok : forall n, storage env n = true.
Hypothesis one_window : forall n, RateLimit.windowKey (iso (clock env n)) = wk.

Lemma attempt_budget (mc : ModelConfig.t) (rs : list RunResult.t) (i : nat)
    (w w' : World) (next : list RunResult.t * nat) :
  attempt env userId testId false test prompt mergedVariables batchId apiKeyMap
    mc rs i w = (Return next, w') ->
  RateLimit.count_of (rateLimit w') userId wk
  = RateLimit.count_of (rateLimit w) userId wk + 1
  /\ RateLimit.count_of (rateLimit w') userId wk <= 10.
Proof.
  unfold attempt. rewrite bind_unfold, recheck_spec. cbv zeta. cbv iota.
  rewrite storage_ok.
  destruct (check_counts (iso (clock env (clockReads w))) userId (rateLimit w))
    as [Hcount Hallowed]. rewrite one_window in Hcount, Hallowed.
  set (r := RateLimit.checkRateLimit _ _ _ _) in *. clearbody r.
  rewrite Hallowed.
  destruct (Z.leb_spec (RateLimit.count_of (rateLimit w) userId wk + 1) 10) as [Hle|];
    [|done].
  destruct (apiKeyMap !! _) as [k|].
  - unfold System.bind. cbn [run_create].
    match goal with
    | |- context [executeRun ?e ?id ?p ?m ?kk ?x ?j false ?w0] =>
        pose proof (executeRun_frame e id p m kk x j false w0) as Hf;
        destruct (executeRun e id p m kk x j false w0) as [[res| |] w3]
    end; cbn in Hf |- *; [|done..].
    destruct Hf as (Hrl & _). intros [= _ <-]. rewrite Hrl, Hcount. lia.
  - intros [= _ <-]. cbn. rewrite Hcount. lia.
Qed.

Lemma selections_budget (mcs : list ModelConfig.t) (rs : list RunResult.t) (i : nat)
    (w w' : World) (next : list RunResult.t * nat) :
  selections env userId testId false test prompt mergedVariables batchId apiKeyMap
    mcs rs i w = (Return next, w') ->
  RateLimit.count_of (rateLimit w') userId wk
  = RateLimit.count_of (rateLimit w) userId wk + Z.of_nat (length mcs)
  /\ (mcs <> [] -> RateLimit.count_of (rateLimit w') userId wk <= 10).
Proof.
  revert rs i w. induction mcs as [|mc mcs IH]; intros rs i w.
  - intros [= _ <-]. cbn. split; [lia|done].
  - cbn [selections]. rewrite bind_unfold.
    destruct (attempt _ _ _ _ _ _ _ _ _ _ _ _ _) as [[n1| |] w1] eqn:Ha; [|done..].
    intros Hs. apply attempt_budget in Ha as [Ha1 Ha2].
    apply IH in Hs as [Hs1 Hs2]. split.
    + rewrite Hs1, Ha1. cbn [length]. lia.
    + intros _. destruct mcs as [|mc' mcs]; [|by apply Hs2].
      rewrite Hs1. cbn. lia.
Qed.

End Budget.

(** Within one minute and with the store working, a [runTest] that is no
    dry run and returns has been counted once at admission and once for
    every pair, a pair whose key did not resolve included, and the count
    is within the maximum: from an unused minute no more than nine pairs
    can complete. *)
Theorem runTest_rate_budget (env : Env) (options : RunOptions) (w : World)
    (wk : string) (rs : list RunResult.t) (w' : World) :
  default false (isDryRun options) = false ->
  (forall n, storage env n = true) ->
  (forall n, RateLimit.windowKey (iso (clock env n)) = wk) ->
  runTest env options w = (Return rs, w') ->
  RateLimit.count_of (rateLimit w') (userId options) wk
  = RateLimit.count_of (rateLimit w) (userId options) wk
    + 1 + Z.of_nat (length (pairs options))
  /\ RateLimit.count_of (rateLimit w') (userId options) wk
     <= RateLimit.MAX_RUNS_PER_MINUTE.
Proof.
  intros Hlive Hok Hwin. rewrite runTest_unfold, Hlive.
  pose proof (prepare_frame env options w) as Hf. cbn zeta in Hf.
  destruct Hf as (Hrl & _ & _ & _ & _ & Hdeny).
  rewrite Hok in Hrl, Hdeny.
  destruct (check_counts (iso (clock env (clockReads w))) (userId options) (rateLimit w))
    as [Hcount Hallowed]. rewrite Hwin in Hcount, Hallowed.
  destruct (prepare env options w) as [[l| |] w0]; [|done..].
  cbn [fst snd] in *.
  assert (Hin : RateLimit.count_of (rateLimit w) (userId options) wk + 1 <= 10).
  { destruct (Z.leb_spec (RateLimit.count_of (rateLimit w) (userId options) wk + 1) 10);
      [done|]. by specialize (Hdeny Hallowed). }
  destruct (selections _ _ _ _ _ _ _ _ _ _ _ _ _) as [[next| |] w1] eqn:Hs; [|done..].
  intros [= _ <-].
  apply (selections_budget env _ _ _ _ _ _ _ wk Hok Hwin) in Hs as [Hs1 Hs2].
  rewrite Hs1, Hrl, Hcount. unfold RateLimit.MAX_RUNS_PER_MINUTE. split; [lia|].
  destruct (pairs options) as [|mc mcs]; [cbn; lia|].
  rewrite <- Hcount, <- Hrl, <- Hs1. by apply Hs2.
Qed.

(** Five calls used, three selections: nine. *)
Lemma runTest_rate_budget_witness :
  let out := runTest Demo.env (Demo.options false) (Demo.world 5) in
  RateLimit.count_of (rateLimit out.2) "u1" "2026-01-05T12:00"
  = RateLimit.count_of (rateLimit (Demo.world 5)) "u1" "2026-01-05T12:00" + 1 + 3
  /\ RateLimit.count_of (rateLimit out.2) "u1" "2026-01-05T12:00" <= 10.
Proof.
  assert (H1 : default false (isDryRun (Demo.options false)) = false) by reflexivity.
  assert (H2 : forall n, storage Demo.env n = true) by reflexivity.
  assert (H3 : forall n, RateLimit.windowKey (iso (clock Demo.env n)) = "2026-01-05T12:00")
    by reflexivity.
  eassert (H4 : runTest Demo.env (Demo.options false) (Demo.world 5) = (Return _, _))
    by (vm_compute; reflexivity).
  cbn zeta. rewrite H4 at 1 2.
  exact (runTest_rate_budget Demo.env (Demo.options false) (Demo.world 5)
           "2026-01-05T12:00" _ _ H1 H2 H3 H4).
Defined.

(** *** Calls of the providers *)

(** [executeRun] calls a provider once at most. *)
Lemma executeRun_calls (env : Env) (runId prompt : string) (mc : ModelConfig.t)
    (key : KeyMaterial) (e j : option string) (isDryRun : bool) (w : World) :
  exists calls,
    adapterLog (executeRun env runId prompt mc key e j isDryRun w).2
    = adapterLog w ++ calls
    /\ (length calls <= 1)%nat.
Proof.
  step_m. destruct isDryRun.
  - exists []. rewrite app_nil_r. destruct (Pricing.calculateCost _ _ _ _); cbn; auto.
  - destruct (Encryption.decryptApiKey _ _ _ _); cbn;
      [|exists []; rewrite app_nil_r; auto..].
    destruct (narrow _); cbn; [|exists []; rewrite app_nil_r; auto..].
    destruct (getAdapter _); cbn; [|exists []; rewrite app_nil_r; auto].
    eexists [_].
    destruct (complete _ _ _ _); cbn; [|auto].
    destruct (Pricing.calculateCost _ _ _ _); cbn; auto.
Qed.

Section Calls.
Variable env : Env.
Variables (userId testId : string) (isDryRun : bool).
Variable test : Prisma.Test.t.
Variables (prompt : string) (mergedVariables : JsObject) (batchId : string).
Variable apiKeyMap : gmap string Prisma.ApiKey.t.

Lemma attempt_calls (mc : ModelConfig.t) (rs : list RunResult.t) (i : nat) (w : World) :
  let out := attempt env userId testId isDryRun test prompt mergedVariables batchId
               apiKeyMap mc rs i w in
  exists calls k,
    adapterLog out.2 = adapterLog w ++ calls
    /\ length (run out.2) = (length (run w) + k)%nat
    /\ (length calls <= k <= 1)%nat.
Proof.
  cbn zeta. unfold attempt. rewrite bind_unfold, recheck_spec. cbv zeta.
  assert (Hmain : forall w1 : World, run w1 = run w -> adapterLog w1 = adapterLog w ->
    let out :=
      match apiKeyMap !! ModelConfig.apiKeyId mc with
      | Some apiKey =>
          System.bind
            (run_create env
               (newRun userId (Some testId) mc prompt mergedVariables (Some batchId)
                  (Some i) isDryRun))
            (fun run =>
               System.bind
                 (executeRun env (Prisma.Run.id run) prompt mc (keyMaterial apiKey)
                    (Prisma.Test.expectedContains test) (Prisma.Test.jsonSchema test)
                    isDryRun)
                 (fun result => ret (rs ++ [result], S i)))
      | None => ret (rs ++ [keyNotFound mc], i)
      end w1 in
    exists calls k,
      adapterLog out.2 = adapterLog w ++ calls
      /\ length (run out.2) = (length (run w) + k)%nat
      /\ (length calls <= k <= 1)%nat).
  { intros w1 Hrun Hlog. cbn zeta.
    destruct (apiKeyMap !! ModelConfig.apiKeyId mc) as [k|].
    - unfold System.bind. cbn [run_create].
      match goal with
      | |- context [executeRun ?e ?id ?p ?m ?kk ?x ?j ?d ?w0] =>
          destruct (executeRun_calls e id p m kk x j d w0) as (calls & Hc & Hl);
          pose proof (executeRun_frame e id p m kk x j d w0) as Hf;
          destruct (executeRun e id p m kk x j d w0) as [[res| |] w3]
      end; cbn in Hf, Hc |- *; destruct Hf as (_ & _ & _ & _ & _ & Hlen & _);
        exists calls, 1%nat; rewrite Hc, Hlog, Hlen, length_app, Hrun; cbn;
        (split; [done|]); (split; [done|]); lia.
    - exists [], 0%nat. cbn. rewrite app_nil_r, Hrun, Hlog. split; [done|].
      split; lia. }
  destruct isDryRun.
  - by apply Hmain.
  - destruct (RateLimit.allowed _).
    + by apply Hmain.
    + exists [], 0%nat. cbn. rewrite app_nil_r. split; [done|]. split; lia.
Qed.

Lemma selections_calls (mcs : list ModelConfig.t) (rs : list RunResult.t) (i : nat)
    (w : World) :
  let out := selections env userId testId isDryRun test prompt mergedVariables batchId
               apiKeyMap mcs rs i w in
  exists calls k,
    adapterLog out.2 = adapterLog w ++ calls
    /\ length (run out.2) = (length (run w) + k)%nat
    /\ (length calls <= k <= length mcs)%nat.
Proof.
  cbn zeta. revert rs i w. induction mcs as [|mc mcs IH]; intros rs i w.
  - exists [], 0%nat. cbn. rewrite app_nil_r. split; [done|]. split; lia.
  - cbn [selections]. rewrite bind_unfold.
    destruct (attempt_calls mc rs i w) as (c1 & k1 & Hc1 & Hr1 & Hl1). cbn zeta in *.
    destruct (attempt _ _ _ _ _ _ _ _ _ _ _ _ _) as [[next| |] w1]; cbn [fst snd] in *.
    + destruct (IH next.1 next.2 w1) as (c2 & k2 & Hc2 & Hr2 & Hl2).
      exists (c1 ++ c2), (k1 + k2)%nat.
      rewrite Hc2, Hc1, Hr2, Hr1, app_assoc, length_app. cbn [length].
      split; [done|]. split; lia.
    + exists c1, k1. cbn [length]. split; [done|]. split; lia.
    + exists c1, k1. cbn [length]. split; [done|]. split; lia.
Qed.

End Calls.

(** [runTest] calls the providers no more often than it creates runs, and
    creates no more runs than there are pairs, however it ends. *)
Theorem runTest_calls_bounded (env : Env) (options : RunOptions) (w : World) :
  let out := runTest env options w in
  exists calls k,
    adapterLog out.2 = adapterLog w ++ calls
    /\ length (run out.2) = (length (run w) + k)%nat
    /\ (length calls <= k <= length (pairs options))%nat.
Proof.
  cbn zeta. rewrite runTest_unfold.
  pose proof (prepare_frame env options w) as Hf. cbn zeta in Hf.
  destruct Hf as (_ & _ & Hlog & Hrun & _).
  destruct (prepare env options w) as [[l| |] w0]; cbn [fst snd] in *.
  - match goal with
    | |- context [selections ?e ?u ?t ?d ?tt ?p ?m ?b ?k ?mcs ?rs ?i ?w1] =>
        destruct (selections_calls e u t d tt p m b k mcs rs i w1)
          as (calls & n & Hc & Hr & Hl);
        destruct (selections e u t d tt p m b k mcs rs i w1) as [[next| |] w']
    end; cbn [fst snd] in *; rewrite Hlog in Hc; rewrite Hrun in Hr; eauto.
  - exists [], 0%nat. rewrite app_nil_r, Hlog, Hrun. cbn [length]. split; [done|].
    split; lia.
  - exists [], 0%nat. rewrite app_nil_r, Hlog, Hrun. cbn [length]. split; [done|].
    split; lia.
Qed.

(** A key stored as [encryptApiKey] returned it reaches the provider as
    it was entered: outside a dry run, [executeRun] for a provider with an
    adapter makes one call, with the prompt as the one user message and the
    decrypted key. *)
Theorem executeRun_sends_stored_key (env : Env) (runId prompt : string)
    (mc : ModelConfig.t) (key random : Encryption.bytes) (plaintext : string)
    (d : Encryption.EncryptedData) (base e j : option string) (adapter : string)
    (w : World) :
  (forall k iv data, gctr env k iv (gctr env k iv data) = data) ->
  (forall k iv data, length (gtag env k iv data) = Encryption.AUTH_TAG_LENGTH) ->
  Encryption.getEncryptionKey (APP_ENCRYPTION_KEY env) = Return key ->
  length key = 32%nat ->
  length random = Encryption.IV_LENGTH ->
  Encryption.encryptApiKey (gctr env) (gtag env) (APP_ENCRYPTION_KEY env) random
    (units plaintext)
  = Return d ->
  getAdapter (ModelConfig.provider mc) = Some adapter ->
  adapterLog
    (executeRun env runId prompt mc
       {| encryptedKey := Encryption.encryptedKey d; iv := Encryption.iv d;
          authTag := Encryption.authTag d; baseUrl := base |} e j false w).2
  = adapterLog w
    ++ [(adapter,
         {| Providers.messages := [ {| role := user; content := prompt |} ];
            Providers.model := ModelConfig.model mc;
            Providers.apiKey := plaintext;
            Providers.baseUrl := truthy base |})].
Proof.
  intros Hinv Htag Hkey Hlen Hiv Henc Had.
  destruct (EncryptionFacts.decrypt_encrypt (gctr env) (gtag env) Hinv Htag
              (APP_ENCRYPTION_KEY env) key random (units plaintext) Hkey Hlen Hiv
              (EncryptionFacts.units_JsString _)) as (d' & He & _ & Hd).
  rewrite Henc in He. injection He as <-.
  step_m. cbn [encryptedKey iv authTag baseUrl].
  replace {| Encryption.encryptedKey := Encryption.encryptedKey d;
             Encryption.iv := Encryption.iv d;
             Encryption.authTag := Encryption.authTag d |} with d by (by destruct d).
  rewrite Hd, EncryptionFacts.units_wellFormed, EncryptionFacts.narrow_units, Had. cbn.
  destruct (complete _ _ _ _); cbn; [|done].
  destruct (Pricing.calculateCost _ _ _ _); cbn; done.
Qed.

(** The key of the demonstration, with an empty base URL. *)
Lemma executeRun_sends_stored_key_witness :
  adapterLog
    (executeRun Demo.env "run0" "Say hi" Demo.openai
       {| encryptedKey := "394166342d6576696c2d6b73"; iv := "a0a1a2a3a4a5a6a7a8a9aaab";
          authTag := "394166342d6576696c2d6b7300000000"; baseUrl := Some "" |}
       None None false (Demo.world 0)).2
  = [] ++ [("openai",
            {| Providers.messages := [ {| role := user; content := "Say hi" |} ];
               Providers.model := "gpt-4o";
               Providers.apiKey := "sk-live-4fA9";
               Providers.baseUrl := None |})].
Proof.
  eassert (Hk : Encryption.getEncryptionKey (APP_ENCRYPTION_KEY Demo.env) = Return _)
    by reflexivity.
  eassert (He : Encryption.encryptApiKey (gctr Demo.env) (gtag Demo.env)
                  (APP_ENCRYPTION_KEY Demo.env)
                  (Encryption.from_hex "a0a1a2a3a4a5a6a7a8a9aaab") (units "sk-live-4fA9")
                = Return _) by (vm_compute; reflexivity).
  assert (Hl : length (Encryption.from_hex Demo.key) = 32%nat) by reflexivity.
  assert (Hr : length (Encryption.from_hex "a0a1a2a3a4a5a6a7a8a9aaab")
               = Encryption.IV_LENGTH) by reflexivity.
  exact (executeRun_sends_stored_key Demo.env "run0" "Say hi" Demo.openai
           (Encryption.from_hex Demo.key)
           (Encryption.from_hex "a0a1a2a3a4a5a6a7a8a9aaab")
           "sk-live-4fA9" _ (Some "") None None "openai" (Demo.world 0)
           EncryptionFacts.toy_gctr_involutive EncryptionFacts.toy_gtag_length
           Hk Hl Hr He eq_refl).
Defined.

End RunnerFacts.

(** ** The server actions *)

Module ActionFacts.
Import Js RegExp Validation System TestRunner TestRunnerFacts Actions RegExpFacts.
Local Arguments Ascii.eqb : simpl never.
Local Arguments String.eqb : simpl never.

(** *** executeTestRun *)

(** [executeTestRun] without a session, or with data the schema refuses,
    returns an error and leaves the store as it is: the limiter is not
    asked.  Without a session the error asks to log in; with a session, a
    test id and no selection it is the message of the schema. *)
Theorem executeTestRun_rejects_early (errorMap : ErrorMap) (env : Env)
    (session : option string) (data : RunTestData.t) (w : World) :
  truthy session = None \/ runTestSchema data <> [] ->
  exists text,
    executeTestRun errorMap env session data w
    = (Return {| RunState.error := Some text; RunState.success := None;
                 RunState.results := None |}, w)
    /\ (truthy session = None -> text = "Please log in to continue")
    /\ (truthy session <> None ->
        RunTestData.testId data <> "" ->
        RunTestData.modelConfigs data = [] ->
        text = "Select at least one model").
Proof.
  intros Hearly. unfold executeTestRun, requireAuth.
  destruct (truthy session) as [userId|].
  - destruct Hearly as [|Hissues]; [done|].
    destruct (runTestSchema data) as [|issue issues] eqn:Hs; [done|].
    eexists. split; [reflexivity|]. split; [done|].
    intros _ Hid Hmcs. unfold runTestSchema in Hs. rewrite Hmcs in Hs.
    destruct (RunTestData.testId data); [done|].
    cbn in Hs. injection Hs as <- _. reflexivity.
  - eexists. split; [reflexivity|]. split; [done|]. done.
Qed.

(** No selection. *)
Lemma executeTestRun_rejects_early_witness :
  let data :=
    {| RunTestData.testId := "t1"; RunTestData.modelConfigs := [];
       RunTestData.variables := None; RunTestData.batchCount := Some 3%float;
       RunTestData.isDryRun := None |} in
  exists text,
    executeTestRun (fun _ _ => "Invalid input") Demo.env (Some "u1") data (Demo.world 0)
    = (Return {| RunState.error := Some text; RunState.success := None;
                 RunState.results := None |}, Demo.world 0)
    /\ (truthy (Some "u1") = None -> text = "Please log in to continue")
    /\ (truthy (Some "u1") <> None ->
        RunTestData.testId data <> "" ->
        RunTestData.modelConfigs data = [] ->
        text = "Select at least one model").
Proof.
  apply (executeTestRun_rejects_early (fun _ _ => "Invalid input") Demo.env (Some "u1")
           {| RunTestData.testId := "t1"; RunTestData.modelConfigs := [];
              RunTestData.variables := None; RunTestData.batchCount := Some 3%float;
              RunTestData.isDryRun := None |} (Demo.world 0)).
  right. vm_compute. discriminate.
Defined.

(** How often the loop turns for a count the schema lets through. *)
Lemma turns_range (n : float) :
  PrimFloat.is_nan n = false ->
  (n <? 1)%float = false ->
  (1 <= turns n <= 10)%nat.
Proof.
  intros Hnan Hmin. unfold turns. split.
  - assert (H0 : (number (Z.of_nat 0) <? n)%float = true).
    { unfold PrimFloat.is_nan in Hnan. apply negb_false_iff in Hnan.
      rewrite FloatAxioms.eqb_spec in Hnan. rewrite FloatAxioms.ltb_spec in Hmin |- *.
      change (Prim2SF (number (Z.of_nat 0))) with (SpecFloat.S754_zero false).
      change (Prim2SF 1) with (SpecFloat.S754_finite false 4503599627370496 (-52)) in Hmin.
      destruct (Prim2SF n) as [s|[]| |[] m e].
      - by vm_compute in Hmin.
      - by vm_compute in Hmin.
      - reflexivity.
      - by vm_compute in Hnan.
      - by vm_compute in Hmin.
      - reflexivity. }
    cbn [seq]. rewrite filter_cons_True by (cbv beta; by rewrite H0).
    cbn [length]. lia.
  - etransitivity; [apply length_filter|]. done.
Qed.

(** The number of pairs. *)
Lemma length_pairs (options : RunOptions) :
  length (pairs options)
  = (default 1%nat (batchCount options) * length (modelConfigs options))%nat.
Proof.
  unfold pairs. induction (default 1%nat (batchCount options)) as [|k IH]; [done|].
  cbn [replicate concat]. rewrite length_app, IH. lia.
Qed.

(** When [executeTestRun] returns results, it reports success and no
    error, there was a selection, and the results are one for each
    selection in each of 1 to 10 repetitions: the schema lets no other
    [batchCount] through. *)
Theorem executeTestRun_batch_bound (errorMap : ErrorMap) (env : Env)
    (session : option string) (data : RunTestData.t) (w : World)
    (state : RunState.t) (w' : World) (rs : list RunResult.t) :
  executeTestRun errorMap env session data w = (Return state, w') ->
  RunState.results state = Some rs ->
  RunState.success state = Some true
  /\ RunState.error state = None
  /\ RunTestData.modelConfigs data <> []
  /\ exists n, (1 <= n <= 10)%nat
       /\ length rs = (n * length (RunTestData.modelConfigs data))%nat.
Proof.
  unfold executeTestRun.
  destruct (requireAuth session) as [userId|e|]; [| |done].
  - destruct (runTestSchema data) as [|issue issues] eqn:Hs; [|by intros [= <- _]].
    destruct (runTest env (validated data userId) w) as [[results|e|] w1] eqn:Hrun;
      [| |done].
    + intros [= <- _] [= <-]. cbn. split; [done|]. split; [done|].
      apply runTest_returns_all in Hrun. rewrite length_pairs in Hrun. cbn in Hrun.
      unfold runTestSchema in Hs.
      apply app_eq_nil in Hs as [_ Hs]. apply app_eq_nil in Hs as [Hm Hb].
      split.
      * intros E. rewrite E in Hm. done.
      * exists (turns (default 1%float (RunTestData.batchCount data))).
        split; [|done].
        destruct (RunTestData.batchCount data) as [n|]; [|cbn; vm_compute; lia].
        cbn [default].
        destruct (PrimFloat.is_nan n) eqn:Hnan; [done|].
        apply app_eq_nil in Hb as [Hmin _].
        destruct (n <? 1)%float eqn:Hlt; [done|]. by apply turns_range.
    + intros [= <- _]. by destruct e as [cls text|]; cbn; [destruct (String.eqb _ _)|].
  - intros [= <- _]. by destruct e as [cls text|]; cbn; [destruct (String.eqb _ _)|].
Qed.


(** A dry run of three selections with a [batchCount] of 2.5: three
    repetitions. *)
Lemma executeTestRun_batch_bound_witness :
  let data :=
    {| RunTestData.testId := "t1";
       RunTestData.modelConfigs := [Demo.openai; Demo.anthropic; Demo.google];
       RunTestData.variables := None; RunTestData.batchCount := Some 2.5%float;
       RunTestData.isDryRun := Some true |} in
  exists state w' rs,
    executeTestRun (fun _ _ => "Invalid input") Demo.env (Some "u1") data (Demo.world 0)
    = (Return state, w')
    /\ RunState.results state = Some rs
    /\ RunState.success state = Some true
    /\ RunState.error state = None
    /\ RunTestData.modelConfigs data <> []
    /\ exists n, (1 <= n <= 10)%nat
         /\ length rs = (n * length (RunTestData.modelConfigs data))%nat.
Proof.
  eassert (H : executeTestRun (fun _ _ => "Invalid input") Demo.env (Some "u1")
                 {| RunTestData.testId := "t1";
                    RunTestData.modelConfigs := [Demo.openai; Demo.anthropic; Demo.google];
                    RunTestData.variables := None;
                    RunTestData.batchCount := Some 2.5%float;
                    RunTestData.isDryRun := Some true |} (Demo.world 0)
               = (Return {| RunState.error := _; RunState.success := _;
                            RunState.results := Some _ |}, _))
    by (vm_compute; reflexivity).
  eexists _, _, _. split; [exact H|]. split; [reflexivity|].
  exact (executeTestRun_batch_bound _ _ _ _ _ _ _ _ H eq_refl).
Defined.

(** *** executeAdHocRun *)

(** [executeAdHocRun] reports success for a run that failed: for a dry
    run on a key that is switched off, of another user or not there, it
    returns [success] with the one failed result, and the store as it
    was. *)
Theorem executeAdHocRun_unusable_key (errorMap : ErrorMap) (env : Env)
    (userId : string) (data : AdHocData.t) (w : World) :
  userId <> "" ->
  AdHocData.prompt data <> "" ->
  AdHocData.isDryRun data = Some true ->
  match apiKey w !! AdHocData.apiKeyId data with
  | Some k => Prisma.ApiKey.isActive k = false \/ Prisma.ApiKey.userId k <> userId
  | None => True
  end ->
  executeAdHocRun errorMap env (Some userId) data w
  = (Return {| RunState.error := None; RunState.success := Some true;
               RunState.results :=
                 Some [keyNotFound
                         {| ModelConfig.provider := AdHocData.provider data;
                            ModelConfig.model := AdHocData.model data;
                            ModelConfig.apiKeyId := AdHocData.apiKeyId data |}] |}, w).
Proof.
  intros Hu Hp Hdry Hkey. unfold executeAdHocRun, requireAuth, runAdHocSchema.
  destruct userId as [|c u]; [done|]. cbn [truthy].
  destruct (AdHocData.prompt data) as [|c' p] eqn:Hprompt; [done|].
  cbn [String.length Nat.ltb Nat.leb]. rewrite Hdry.
  change (default false (Some true)) with true.
  unfold runAdHocPrompt, System.bind. cbn [ret ModelConfig.apiKeyId].
  rewrite (activeKeys_None _ _ _ _ Hkey). reflexivity.
Qed.

(** The key that is switched off. *)
Lemma executeAdHocRun_unusable_key_witness :
  let data :=
    {| AdHocData.prompt := "Say hi"; AdHocData.provider := "anthropic";
       AdHocData.model := "claude-3-opus-20240229"; AdHocData.apiKeyId := "k2";
       AdHocData.isDryRun := Some true |} in
  executeAdHocRun (fun _ _ => "Invalid input") Demo.env (Some "u1") data (Demo.world 0)
  = (Return {| RunState.error := None; RunState.success := Some true;
               RunState.results := Some [keyNotFound Demo.anthropic] |}, Demo.world 0).
Proof.
  apply (executeAdHocRun_unusable_key (fun _ _ => "Invalid input") Demo.env "u1"
           {| AdHocData.prompt := "Say hi"; AdHocData.provider := "anthropic";
              AdHocData.model := "claude-3-opus-20240229"; AdHocData.apiKeyId := "k2";
              AdHocData.isDryRun := Some true |} (Demo.world 0)).
  - discriminate.
  - discriminate.
  - reflexivity.
  - vm_compute. left. reflexivity.
Defined.

(** *** toggleApiKeyActive *)

(** [toggleApiKeyActive] called twice leaves the keys as they were; it
    changes no other key; and on a key of another user it changes nothing
    and returns an error. *)
Theorem toggleApiKeyActive_twice (session : option string) (keyId : string) (w : World) :
  let once := toggleApiKeyActive session keyId w in
  let twice := toggleApiKeyActive session keyId once.2 in
  apiKey twice.2 = apiKey w
  /\ (forall id, id <> keyId -> apiKey once.2 !! id = apiKey w !! id)
  /\ (forall k, apiKey w !! keyId = Some k ->
        truthy session <> Some (Prisma.ApiKey.userId k) ->
        once.2 = w /\ exists text, once.1 = Return {| KeyState.error := Some text;
                                                      KeyState.success := None |}).
Proof.
  cbn zeta. unfold toggleApiKeyActive, requireAuth.
  destruct (truthy session) as [userId|] eqn:Hs.
  - destruct (apiKey w !! keyId) as [k|] eqn:Hk.
    + destruct (String.eqb_spec (Prisma.ApiKey.userId k) userId) as [Hu|Hu].
      * cbn [snd fst apiKey]. rewrite lookup_insert_eq.
        cbn [Prisma.ApiKey.userId]. rewrite (proj2 (String.eqb_eq _ _) Hu).
        cbn [snd apiKey Prisma.ApiKey.userId Prisma.ApiKey.isActive
             Prisma.ApiKey.encryptedKey Prisma.ApiKey.iv Prisma.ApiKey.authTag
             Prisma.ApiKey.baseUrl].
        rewrite insert_insert_eq, negb_involutive. split; [|split].
        -- apply insert_id. rewrite Hk. by destruct k.
        -- intros id Hid. by rewrite lookup_insert_ne.
        -- intros k' [= <-] Hne. by subst.
      * cbn [snd fst]. rewrite Hk, (proj2 (String.eqb_neq _ _) Hu). cbn [snd fst].
        split; [done|]. split; [done|]. intros k' [= <-] _. eauto.
    + cbn [snd fst]. rewrite Hk. cbn [snd fst]. split; [done|]. split; [done|]. done.
  - cbn [snd fst]. split; [done|]. split; [done|]. intros k Hk _. eauto.
Qed.

(** Once its owner has switched an active key off, a run on that key
    returns the failed result for a key not found; the other keys are as
    they were. *)
Theorem toggled_off_key_is_unusable (env : Env) (userId keyId prompt : string)
    (k : Prisma.ApiKey.t) (mc : ModelConfig.t) (w : World) :
  userId <> "" ->
  apiKey w !! keyId = Some k ->
  Prisma.ApiKey.userId k = userId ->
  Prisma.ApiKey.isActive k = true ->
  ModelConfig.apiKeyId mc = keyId ->
  let off := (toggleApiKeyActive (Some userId) keyId w).2 in
  runAdHocPrompt env userId prompt mc true off = (Return (keyNotFound mc), off)
  /\ forall other, other <> keyId -> apiKey off !! other = apiKey w !! other.
Proof.
  intros Hu Hk Hown Hact Hmc. cbn zeta.
  unfold toggleApiKeyActive, requireAuth. destruct userId as [|c u]; [done|].
  cbn [truthy]. rewrite Hk, (proj2 (String.eqb_eq _ _) Hown). cbn [snd]. split.
  - unfold runAdHocPrompt, System.bind. cbn [ret apiKey].
    rewrite activeKeys_None; [done|]. rewrite Hmc, lookup_insert_eq. left.
    cbn. by rewrite Hact.
  - intros other Hne. cbn [apiKey]. by rewrite lookup_insert_ne.
Qed.

(** The active key of the demonstration. *)
Lemma toggled_off_key_is_unusable_witness :
  let off := (toggleApiKeyActive (Some "u1") "k1" (Demo.world 0)).2 in
  runAdHocPrompt Demo.env "u1" "Say hi" Demo.openai true off
  = (Return (keyNotFound Demo.openai), off)
  /\ forall other, other <> "k1" -> apiKey off !! other = apiKey (Demo.world 0) !! other.
Proof.
  apply (toggled_off_key_is_unusable Demo.env "u1" "k1" "Say hi" Demo.k1 Demo.openai
           (Demo.world 0)).
  - discriminate.
  - vm_compute. reflexivity.
  - reflexivity.
  - reflexivity.
  - reflexivity.
Defined.

(** A key of the comparison is no name an object inherits: it holds a [/]. *)
Lemma comparisonKey_plain (run : Prisma.Run.t) : inherited (comparisonKey run) = false.
Proof.
  assert (Hslash : mem "/" (chars (comparisonKey run)) = true).
  { unfold comparisonKey. rewrite !SecretFacts.chars_app. apply mem_true.
    apply elem_of_app. right. apply elem_of_app. left. cbn. left. }
  unfold inherited. apply not_true_is_false. intros H.
  apply existsb_exists in H as (name & Hin & Heq). apply String.eqb_eq in Heq.
  rewrite Heq in Hslash. cbn in Hin.
  repeat (destruct Hin as [<-|Hin]; [by vm_compute in Hslash|]). done.
Qed.

(** Reading a group after a row was added. *)
Lemma own_push (key k : string) (run : Prisma.Run.t) (grouped : Grouped) :
  own (push key run grouped) k
  = if String.eqb key k then option_map (fun runs => runs ++ [run]) (own grouped k)
    else own grouped k.
Proof.
  induction grouped as [|[k' runs] grouped IH]; cbn [push own option_map].
  - by destruct (String.eqb key k).
  - destruct (String.eqb_spec k' key) as [->|Hne]; cbn [own].
    + by destruct (String.eqb key k).
    + destruct (String.eqb_spec k' k) as [->|Hk].
      * by rewrite (proj2 (String.eqb_neq _ _) (not_eq_sym Hne)).
      * exact IH.
Qed.

Lemma keys_push (key : string) (run : Prisma.Run.t) (grouped : Grouped) :
  map fst (push key run grouped) = map fst grouped.
Proof.
  induction grouped as [|[k' runs] grouped IH]; [done|]. cbn [push].
  destruct (String.eqb k' key); cbn [map fst]; [done|]. by rewrite IH.
Qed.

Lemma own_snoc {A : Type} (o : list (string * A)) (key k : string) (a : A) :
  own (o ++ [(key, a)]) k
  = match own o k with
    | Some x => Some x
    | None => if String.eqb key k then Some a else None
    end.
Proof.
  induction o as [|[k' x] o IH]; cbn [app own]; [done|].
  by destruct (String.eqb k' k).
Qed.

Lemma own_keys {A : Type} (o : list (string * A)) (k : string) :
  own o k = None <-> k ∉ map fst o.
Proof.
  induction o as [|[k' x] o IH]; cbn [own map fst]; [split; [intros _; apply not_elem_of_nil|done]|].
  rewrite not_elem_of_cons. destruct (String.eqb_spec k' k) as [->|Hne].
  - split; [done|]. intros [? _]. done.
  - rewrite IH. split; [intros ?; split; [by apply not_eq_sym|done]|by intros [_ ?]].
Qed.

(** The loop keeps the groups as [grouped_by] says. *)
Lemma group_spec (runsPerModel : Z) (runs seen : list Prisma.Run.t) (grouped : Grouped) :
  grouped_by (Z.to_nat runsPerModel) seen grouped ->
  exists grouped',
    group runsPerModel runs grouped = Return grouped'
    /\ grouped_by (Z.to_nat runsPerModel) (seen ++ runs) grouped'.
Proof.
  revert seen grouped. induction runs as [|run runs IH]; intros seen grouped Hinv.
  - exists grouped. rewrite app_nil_r. done.
  - cbn [group]. unfold get. rewrite comparisonKey_plain.
    destruct Hinv as [Hnd Hown].
    assert (Hstep : forall grouped1,
              grouped_by (Z.to_nat runsPerModel) (seen ++ [run]) grouped1 ->
              exists grouped',
                group runsPerModel runs grouped1 = Return grouped'
                /\ grouped_by (Z.to_nat runsPerModel) (seen ++ run :: runs) grouped').
    { intros grouped1 H1. apply IH in H1 as (grouped' & Hg & Hinv').
      exists grouped'. by rewrite <- app_assoc in Hinv'. }
    assert (Hfilter : forall key,
              filter (fun r => comparisonKey r = key) (seen ++ [run])
              = filter (fun r => comparisonKey r = key) seen
                ++ (if String.eqb (comparisonKey run) key then [run] else [])).
    { intros key. rewrite filter_app, filter_cons, filter_nil.
      destruct (String.eqb_spec (comparisonKey run) key) as [E|E];
        [by rewrite decide_True|by rewrite decide_False]. }
    assert (Hmem : forall key,
              bool_decide (key ∈ map comparisonKey (seen ++ [run]))
              = bool_decide (key ∈ map comparisonKey seen)
                || String.eqb (comparisonKey run) key).
    { intros key. rewrite map_app. cbn [map].
      destruct (String.eqb_spec (comparisonKey run) key) as [E|E].
      - rewrite orb_true_r. apply bool_decide_eq_true_2, elem_of_app. right.
        rewrite E. apply list_elem_of_here.
      - rewrite orb_false_r. apply bool_decide_ext. rewrite elem_of_app.
        rewrite list_elem_of_singleton. split; [|auto]. intros [?|?]; [done|].
        by subst. }
    pose proof (Hown (comparisonKey run)) as Hkey.
    destruct (own grouped (comparisonKey run)) as [found|] eqn:Hfound.
    + (* the key has a group *)
      destruct (bool_decide (comparisonKey run ∈ map comparisonKey seen)) eqn:Hseen;
        [|done].
      injection Hkey as Hkey.
      apply Hstep. split.
      * destruct (_ <? _); [by rewrite keys_push|done].
      * intros key. rewrite Hmem, Hfilter.
        destruct (String.eqb_spec (comparisonKey run) key) as [<-|Hne].
        -- rewrite Hseen. cbn [orb].
           set (mine := filter _ seen) in *.
           destruct (Z.ltb_spec (Z.of_nat (length found)) runsPerModel) as [Hlt|Hge].
           ++ rewrite own_push, String.eqb_refl, Hfound. cbn [option_map]. f_equal.
              rewrite Hkey in Hlt |- *. rewrite length_take in Hlt.
              assert (Hl : (length mine < Z.to_nat runsPerModel)%nat) by lia.
              rewrite (take_ge mine) by lia.
              rewrite take_ge; [done|]. rewrite length_app. cbn [length]. lia.
           ++ rewrite Hfound. f_equal. rewrite Hkey in Hge |- *.
              rewrite length_take in Hge.
              rewrite take_app_le; [done|]. lia.
        -- rewrite orb_false_r, app_nil_r.
           destruct (_ <? _); [|apply Hown].
           rewrite own_push, (proj2 (String.eqb_neq _ _) Hne). apply Hown.
    + (* a new key *)
      destruct (bool_decide (comparisonKey run ∈ map comparisonKey seen)) eqn:Hseen;
        [done|].
      apply bool_decide_eq_false in Hseen.
      assert (Hnone : filter (fun r => comparisonKey r = comparisonKey run) seen = []).
      { destruct (filter _ seen) as [|r rest] eqn:Hf; [done|]. exfalso. apply Hseen.
        assert (Hr : r ∈ filter (fun r => comparisonKey r = comparisonKey run) seen)
          by (rewrite Hf; apply list_elem_of_here).
        apply list_elem_of_filter in Hr as [<- Hr]. apply list_elem_of_fmap. eauto. }
      apply Hstep. split.
      * assert (Hfresh : NoDup (map fst (grouped ++ [(comparisonKey run, [])]))).
        { rewrite map_app. cbn [map fst]. apply NoDup_app. split; [done|].
          split; [|apply NoDup_singleton].
          intros k Hk ->%list_elem_of_singleton. by apply own_keys in Hfound. }
        destruct (_ <? _); [by rewrite keys_push|done].
      * intros key. rewrite Hmem, Hfilter.
        assert (Hnew : own (if 0 <? runsPerModel
                            then push (comparisonKey run) run
                                   (grouped ++ [(comparisonKey run, [])])
                            else grouped ++ [(comparisonKey run, [])]) key
                       = match own grouped key with
                         | Some x => Some x
                         | None =>
                             if String.eqb (comparisonKey run) key
                             then Some (take (Z.to_nat runsPerModel) [run])
                             else None
                         end).
        { destruct (Z.ltb_spec 0 runsPerModel) as [Hpos|Hneg].
          - rewrite own_push, own_snoc.
            destruct (String.eqb_spec (comparisonKey run) key) as [<-|Hne].
            + rewrite Hfound. cbn [option_map app]. f_equal.
              rewrite take_ge; [done|]. cbn [length]. lia.
            + done.
          - rewrite own_snoc.
            destruct (String.eqb (comparisonKey run) key); [|done].
            replace (Z.to_nat runsPerModel) with 0%nat by lia. done. }
        rewrite Hnew, Hown. clear Hnew.
        destruct (String.eqb_spec (comparisonKey run) key) as [E|Hne].
        -- rewrite <- E. rewrite bool_decide_eq_false_2 by done. cbn [orb].
           by rewrite Hnone.
        -- rewrite orb_false_r, app_nil_r. by destruct (bool_decide _).
Qed.

(** [getRunsForComparison] never throws on the rows it is given.  Its
    result has one group for each provider/model key among the rows, and
    none else; a group holds the first [runsPerModel] rows of its key, in
    the order of the rows (5 when no number is given). *)
Theorem getRunsForComparison_groups (runs : list Prisma.Run.t) (runsPerModel : option Z) :
  exists grouped,
    getRunsForComparison runs runsPerModel = Return grouped
    /\ NoDup (map fst grouped)
    /\ forall key,
         own grouped key
         = if bool_decide (key ∈ map comparisonKey runs)
           then Some (take (Z.to_nat (default 5 runsPerModel))
                        (filter (fun run => comparisonKey run = key) runs))
           else None.
Proof.
  unfold getRunsForComparison.
  destruct (group_spec (default 5 runsPerModel) runs [] []) as (grouped & Hg & Hinv).
  - split; [apply NoDup_nil_2|]. intros key. cbn. done.
  - exists grouped. split; [done|]. exact Hinv.
Qed.

End ActionFacts.

(** ** The adapters *)

Module AdapterFacts.
Import Js RegExp Encryption Providers Adapters RegExpFacts EncryptionFacts.
Local Arguments Ascii.eqb : simpl never.
Local Arguments String.eqb : simpl never.

(** *** The registry *)

(** Reading the registry after [set]. *)
Lemma own_set (key k : string) (a : ProviderAdapter) (m : Registry) :
  own (set key a m) k = if String.eqb key k then Some a else own m k.
Proof.
  induction m as [|[k' a'] m IH]; cbn [set own]; [done|].
  destruct (String.eqb_spec k' key) as [->|Hne]; cbn [own].
  - by destruct (String.eqb key k).
  - destruct (String.eqb_spec k' k) as [->|Hk]; [|exact IH].
    by rewrite (proj2 (String.eqb_neq _ _) (not_eq_sym Hne)).
Qed.

Lemma keys_set (key : string) (a : ProviderAdapter) (m : Registry) :
  map fst (set key a m)
  = if bool_decide (key ∈ map fst m) then map fst m else map fst m ++ [key].
Proof.
  induction m as [|[k' a'] m IH]; cbn [set map fst]; [done|].
  destruct (String.eqb_spec k' key) as [->|Hne]; cbn [map fst].
  - rewrite bool_decide_eq_true_2; [done|]. apply list_elem_of_here.
  - rewrite IH. destruct (bool_decide (key ∈ map fst m)) eqn:E.
    + apply bool_decide_eq_true in E. rewrite bool_decide_eq_true_2; [done|].
      by apply list_elem_of_further.
    + apply bool_decide_eq_false in E. rewrite bool_decide_eq_false_2; [done|].
      rewrite elem_of_cons. intros [?|?]; [by subst|done].
Qed.

Lemma NoDup_set (key : string) (a : ProviderAdapter) (m : Registry) :
  NoDup (map fst m) -> NoDup (map fst (set key a m)).
Proof.
  intros H. rewrite keys_set. destruct (bool_decide _) eqn:E; [done|].
  apply bool_decide_eq_false in E. apply NoDup_app. split; [done|].
  split; [|apply NoDup_singleton]. intros k Hk ->%list_elem_of_singleton. done.
Qed.

Lemma initAdapters_set (key : string) (a : ProviderAdapter) (m : Registry) :
  initAdapters (set key a m) = set key a m.
Proof.
  unfold initAdapters. destruct m as [|[k' a'] m]; [done|]. cbn [set].
  by destruct (String.eqb k' key).
Qed.

Lemma registered_snoc (custom : list ProviderAdapter) (a : ProviderAdapter) :
  registered (custom ++ [a]) = set (name a) a (initAdapters (registered custom)).
Proof. unfold registered. by rewrite fold_left_app. Qed.

Lemma own_registered (custom : list ProviderAdapter) (k : string) :
  own (initAdapters (registered custom)) k
  = match find (fun a => String.eqb (name a) k) (rev custom) with
    | Some a => Some a
    | None => own (initAdapters []) k
    end.
Proof.
  induction custom as [|a custom IH] using rev_ind; [done|].
  rewrite registered_snoc, initAdapters_set, own_set, rev_app_distr. cbn [rev app find].
  destruct (String.eqb (name a) k); [done|exact IH].
Qed.

Lemma NoDup_registered (custom : list ProviderAdapter) :
  NoDup (map fst (initAdapters (registered custom))).
Proof.
  induction custom as [|a custom IH] using rev_ind.
  - apply (bool_decide_unpack _). by vm_compute.
  - rewrite registered_snoc, initAdapters_set. by apply NoDup_set.
Qed.

(** After any sequence of [registerAdapter], [getAdapter] finds under a
    name the adapter registered last under it, else what it finds before
    any registration; what it finds bears the name asked for; the names of
    [getProviderNames] are distinct; [isProviderSupported] holds exactly
    for them; and the five providers of the start stay supported. *)
Theorem registry_lookup (custom : list ProviderAdapter) (providerName : string) :
  let adapters := registered custom in
  let found := (getAdapter providerName adapters).1 in
  found
  = match find (fun a => String.eqb (name a) providerName) (rev custom) with
    | Some a => Some a
    | None => (getAdapter providerName []).1
    end
  /\ (forall a, found = Some a -> name a = providerName)
  /\ NoDup (getProviderNames adapters).1
  /\ ((isProviderSupported providerName adapters).1 = true
      <-> providerName ∈ (getProviderNames adapters).1)
  /\ (Providers.getAdapter providerName <> None ->
      (isProviderSupported providerName adapters).1 = true).
Proof.
  cbn zeta. unfold getAdapter, getProviderNames, isProviderSupported. cbn [fst].
  pose proof (own_registered custom providerName) as Hown.
  assert (Hbase : forall a, own (initAdapters []) providerName = Some a ->
                            name a = providerName).
  { intros a.
    assert (Hinit : initAdapters []
                    = [("openai", OpenAIAdapter); ("anthropic", AnthropicAdapter);
                       ("google", GoogleAdapter); ("deepseek", DeepSeekAdapter);
                       ("local", LocalAdapter)]) by reflexivity.
    rewrite Hinit. cbn [own].
    repeat match goal with
           | |- context [String.eqb ?s providerName] =>
               destruct (String.eqb_spec s providerName) as [E|_];
               [intros [= <-]; exact E|]
           end.
    done. }
  split; [exact Hown|]. split; [|split; [apply NoDup_registered|split]].
  - intros a. rewrite Hown.
    destruct (find _ _) as [a'|] eqn:Hf; [|apply Hbase].
    intros [= <-]. apply find_some in Hf as [_ Hf]. by apply String.eqb_eq.
  - pose proof (CostFacts.own_In (initAdapters (registered custom)) providerName) as Hin.
    rewrite <- list_elem_of_In in Hin. rewrite <- Hin.
    destruct (own _ providerName); split; done.
  - intros Hsup. rewrite Hown. destruct (find _ _); [done|].
    unfold Providers.getAdapter, adapters in Hsup.
    destruct (existsb _ _) eqn:He in Hsup; [|done].
    apply existsb_exists in He as (n & Hn & He). apply String.eqb_eq in He as ->.
    cbn in Hn. repeat (destruct Hn as [<-|Hn]; [done|]). done.
Qed.

(** *** The lists of the adapters and the prices *)

(** Every model in the static list of one of the five adapters is priced
    by [calculateCost] under the name of the adapter, whose default model
    and display name are those of the price table; the price is exact but
    for the models of the local adapter other than [default]. *)
Theorem builtin_models_are_priced (a : ProviderAdapter) (model : string) (i o : float) :
  In a (getAllAdapters []).1 ->
  In model (getSupportedModels a) ->
  exists cfg c,
    own Pricing.PROVIDER_CONFIGS (name a) = Some cfg
    /\ Pricing.defaultModel cfg = getDefaultModel a
    /\ Pricing.displayName cfg = displayName a
    /\ Pricing.calculateCost (name a) model i o = Return c
    /\ (Pricing.isEstimated c = false <-> name a <> "local" \/ model = "default").
Proof.
  intros Ha Hm. vm_compute in Ha.
  repeat (destruct Ha as [<-|Ha]; [
    cbn in Hm;
    repeat (destruct Hm as [<-|Hm]; [
      eexists _, _; split; [reflexivity|]; split; [reflexivity|];
      split; [reflexivity|]; split; [vm_compute; reflexivity|];
      cbn; split; [intros H; first [by left|by right|done]
                  |intros [H|H]; done] |]);
    done |]).
  done.
Qed.

(** A model of Google. *)
Lemma builtin_models_are_priced_witness :
  exists cfg c,
    own Pricing.PROVIDER_CONFIGS "google" = Some cfg
    /\ Pricing.defaultModel cfg = "gemini-1.5-pro"
    /\ Pricing.displayName cfg = "Google Gemini"
    /\ Pricing.calculateCost "google" "gemini-1.5-flash" 1000 500 = Return c
    /\ (Pricing.isEstimated c = false <-> "google" <> "local" \/ "gemini-1.5-flash" = "default").
Proof.
  apply (builtin_models_are_priced GoogleAdapter "gemini-1.5-flash" 1000 500).
  - vm_compute. auto.
  - vm_compute. auto.
Defined.

(** *** The request bodies *)

(** The loop of the Anthropic adapter over the messages. *)
Lemma extract_fold (messages : list ProviderMessage) (systemPrompt : option string)
    (kept : list ProviderMessage) :
  fold_left
    (fun state msg =>
       match role msg with
       | Providers.system => (Some (content msg), state.2)
       | _ => (state.1, state.2 ++ [ {| role := role msg; content := content msg |} ])
       end)
    messages (systemPrompt, kept)
  = (match last (map content (List.filter is_system messages)) with
     | Some c => Some c
     | None => systemPrompt
     end,
     kept ++ List.filter (fun msg => negb (is_system msg)) messages).
Proof.
  revert systemPrompt kept. induction messages as [|[r c] messages IH];
    intros systemPrompt kept.
  - cbn. by rewrite app_nil_r.
  - cbn [fold_left List.filter]. unfold is_system at 1 3. cbn [role content fst snd].
    destruct r; cbn [negb map]; rewrite IH, <- ?app_assoc; cbn [app]; try done.
    rewrite last_cons. by destruct (last _).
Qed.

(** The loop of the Google adapter over the messages. *)
Lemma convert_fold (messages : list ProviderMessage)
    (systemInstruction : option (list string)) (contents : list Google.GeminiContent) :
  fold_left
    (fun state msg =>
       match Providers.role msg with
       | Providers.system => (Some [Providers.content msg], state.2)
       | Providers.assistant =>
           (state.1,
            state.2 ++ [ {| Google.role := Google.model;
                            Google.parts := [Providers.content msg] |} ])
       | Providers.user =>
           (state.1,
            state.2 ++ [ {| Google.role := Google.user;
                            Google.parts := [Providers.content msg] |} ])
       end)
    messages (systemInstruction, contents)
  = (match last (map content (List.filter is_system messages)) with
     | Some c => Some [c]
     | None => systemInstruction
     end,
     contents ++ map Google.turn (List.filter (fun msg => negb (is_system msg)) messages)).
Proof.
  revert systemInstruction contents. induction messages as [|[r c] messages IH];
    intros systemInstruction contents.
  - cbn. by rewrite app_nil_r.
  - cbn [fold_left List.filter]. unfold is_system at 1 3. cbn [role content fst snd].
    destruct r; cbn [negb map]; rewrite IH, <- ?app_assoc; cbn [app]; try done.
    rewrite last_cons. by destruct (last _).
Qed.

(** The Anthropic and the Google adapter send the messages that are no
    system messages, in their order, and of the system messages the last
    one only, outside the conversation (Anthropic drops an empty one; its
    [max_tokens] is never zero or [NaN]).  Google sends the role
    [assistant] as [model] and any other as [user]. *)
Theorem system_messages_are_lifted (r : Request) :
  let messages := Providers.messages (request r) in
  let chat := List.filter (fun msg => negb (is_system msg)) messages in
  let instruction := last (map content (List.filter is_system messages)) in
  (Anthropic.messages (Anthropic.requestBody r) = chat
   /\ Anthropic.system (Anthropic.requestBody r) = Validation.truthy instruction
   /\ truthy_number (Some (Anthropic.max_tokens (Anthropic.requestBody r)))
      = Some (Anthropic.max_tokens (Anthropic.requestBody r)))
  /\ (Google.contents (Google.requestBody r) = map Google.turn chat
      /\ Google.systemInstruction (Google.requestBody r)
         = option_map (fun c => [c]) instruction).
Proof.
  cbn zeta. split.
  - unfold Anthropic.requestBody, Anthropic.extract.
    rewrite extract_fold. cbn [Anthropic.messages Anthropic.system Anthropic.max_tokens
      fst snd app].
    split; [done|]. split; [by destruct (last _)|].
    destruct (truthy_number (maxTokens r)) as [f|] eqn:E; cbn [nullish]; [|reflexivity].
    unfold truthy_number in E |- *. destruct (maxTokens r) as [g|]; [|done].
    destruct (PrimFloat.is_zero g || PrimFloat.is_nan g) eqn:Eg; [done|].
    injection E as <-. by rewrite Eg.
  - unfold Google.requestBody, Google.convert.
    rewrite convert_fold. cbn [Google.contents Google.systemInstruction fst snd app].
    split; [done|]. by destruct (last _).
Qed.

(** *** What an adapter throws *)

Section Redacted.
Variable apiKey : string.
Hypothesis long : (8 <= String.length apiKey)%nat.
Hypothesis no_open : includes apiKey "[" = false.
Hypothesis no_close : includes apiKey "]" = false.
Hypothesis not_marker : apiKey <> "REDACTED".

(** What [redactApiKey] returns holds no key. *)
Lemma redactApiKey_clear (text : string) :
  exists out, redactApiKey text apiKey = Return out /\ includes out apiKey = false.
Proof.
  rewrite redactApiKey_long by done. eexists. split; [reflexivity|].
  unfold includes. rewrite chars_text.
  pose proof no_open as Hopen. pose proof no_close as Hclose.
  rewrite includes_char in Hopen, Hclose.
  apply redacted_clear; try done.
  - by rewrite length_chars.
  - intros E. apply not_marker. rewrite <- (text_chars apiKey), E. reflexivity.
Qed.

Lemma rethrow_clear {A : Type} (error e : Thrown) :
  @rethrow A apiKey error = Throw e ->
  exists text, e = Err Error text /\ includes text apiKey = false.
Proof.
  unfold rethrow.
  destruct (redactApiKey_clear
              match error with Err _ message => message | NonError => "Unknown error" end)
    as (out & -> & Hout).
  cbn [bind]. intros [= <-]. eauto.
Qed.

End Redacted.

(** For a key of 8 characters or more without brackets that is not the
    word REDACTED, no error that [complete] of the OpenAI or the Anthropic
    adapter throws holds the key, whatever the network did: a refusal with
    a message, a failure of [fetch], a body that is no JSON, or an answer
    without choices. *)
Theorem complete_errors_are_redacted (r : Request) :
  let apiKey := Providers.apiKey (request r) in
  (8 <= String.length apiKey)%nat ->
  includes apiKey "[" = false ->
  includes apiKey "]" = false ->
  apiKey <> "REDACTED" ->
  (forall fetched e, OpenAI.complete fetched r = Throw e ->
     exists text, e = Err Error text /\ includes text apiKey = false)
  /\ (forall fetched e, Anthropic.complete fetched r = Throw e ->
        exists text, e = Err Error text /\ includes text apiKey = false).
Proof.
  cbn zeta. intros Hl Ho Hc Hm. split; intros fetched e.
  - unfold OpenAI.complete.
    destruct fetched as [err|status message|[data|err]].
    + apply rethrow_clear; done.
    + destruct (redactApiKey_clear _ Hl Ho Hc Hm (errorMessage status message))
        as (out & -> & _). cbn [bind]. apply rethrow_clear; done.
    + destruct (OpenAI.choices data); [apply rethrow_clear; done|done].
    + apply rethrow_clear; done.
  - unfold Anthropic.complete.
    destruct fetched as [err|status message|[data|err]].
    + apply rethrow_clear; done.
    + destruct (redactApiKey_clear _ Hl Ho Hc Hm (errorMessage status message))
        as (out & -> & _). cbn [bind]. apply rethrow_clear; done.
    + done.
    + apply rethrow_clear; done.
Qed.

(** The key of the demonstration. *)
Lemma complete_errors_are_redacted_witness :
  let r :=
    {| request :=
         {| Providers.messages := [ {| role := user; content := "Say hi" |} ];
            Providers.model := "gpt-4o"; Providers.apiKey := "sk-live-4fA9";
            Providers.baseUrl := None |};
       maxTokens := None; temperature := None |} in
  (forall fetched e, OpenAI.complete fetched r = Throw e ->
     exists text, e = Err Error text /\ includes text "sk-live-4fA9" = false)
  /\ (forall fetched e, Anthropic.complete fetched r = Throw e ->
        exists text, e = Err Error text /\ includes text "sk-live-4fA9" = false).
Proof.
  apply (complete_errors_are_redacted
           {| request :=
                {| Providers.messages := [ {| role := user; content := "Say hi" |} ];
                   Providers.model := "gpt-4o"; Providers.apiKey := "sk-live-4fA9";
                   Providers.baseUrl := None |};
              maxTokens := None; temperature := None |}).
  - vm_compute. lia.
  - reflexivity.
  - reflexivity.
  - discriminate.
Defined.

End AdapterFacts.
